(** * setup_dynamo: value marshalling and batch writing

    A shallow embedding of [src/data/setup/setup_dynamo.py]: the decoder
    [_from_ddb_attr] / [normalize_record], the encoder [to_ddb_item], the
    chunked, retrying writer [batch_write_items] and the record preparation
    done by [main] before it calls the writer. *)

From Stdlib Require Import ZArith List String Ascii Bool Lia Sorted.
From Stdlib Require Import PrimFloat SpecFloat FloatOps.
From Stdlib Require Import Decimal DecimalString DecimalPos DecimalN DecimalZ.
Import ListNotations.

Set Warnings "-inexact-float,-register-all".
Set Default Proof Using "Type".

Open Scope string_scope.
Open Scope Z_scope.

(** ** Exceptions *)

Inductive exn : Type :=
| TypeError | ValueError | AttributeError | OverflowError | ClientError.

Inductive result (A : Type) : Type :=
| Ok (a : A)
| Raise (e : exn).
Arguments Ok {A} a.
Arguments Raise {A} e.

(** ** Python values

    The program is dynamically typed: decoded records, wire values and
    request payloads are all plain Python objects.  [value] is the part of
    that universe the program meets: what [json.load] produces, plus
    [VOther] for an object of any other type.  A dict keeps its insertion
    order, so it is an association list; a well-formed dict has no
    duplicate key.  A text is held as its UTF-8 encoding. *)

(** An object of a type outside the JSON data model (a complex number, a
    date): the program can only observe its [str()], which returns a text
    or raises, and its truth value; it is neither iterable as a wire
    payload nor convertible by [float()]. *)
Record other := { other_str : result string; other_truth : bool }.

Inductive value : Type :=
| VNone
| VBool (b : bool)
| VInt (z : Z)
| VFloat (f : float)
| VStr (s : string)
| VList (l : list value)
| VDict (d : list (string * value))
| VOther (o : other).

Definition record := list (string * value).

(** The induction principle that goes under lists and dicts. *)
Section value_induction.
Variable P : value -> Prop.
Hypothesis HNone : P VNone.
Hypothesis HBool : forall b, P (VBool b).
Hypothesis HInt : forall z, P (VInt z).
Hypothesis HFloat : forall f, P (VFloat f).
Hypothesis HStr : forall s, P (VStr s).
Hypothesis HList : forall l, Forall P l -> P (VList l).
Hypothesis HDict : forall d, Forall (fun kv => P (snd kv)) d -> P (VDict d).
Hypothesis HOther : forall o, P (VOther o).

Fixpoint value_rect' (v : value) : P v :=
    match v with
    | VNone => HNone
    | VBool b => HBool b
    | VInt z => HInt z
    | VFloat f => HFloat f
    | VStr s => HStr s
    | VList l =>
        HList l ((fix go (l : list value) : Forall P l :=
                    match l with
                    | [] => Forall_nil P
                    | x :: xs => Forall_cons x (value_rect' x) (go xs)
                    end) l)
    | VDict d =>
        HDict d ((fix go (d : list (string * value))
                    : Forall (fun kv => P (snd kv)) d :=
                    match d with
                    | [] => Forall_nil _
                    | kv :: xs =>
                        Forall_cons (P := fun kv => P (snd kv)) kv
                          (value_rect' (snd kv)) (go xs)
                    end) d)
    | VOther o => HOther o
    end.
End value_induction.

(** ** Raising and catching *)

Definition rbind {A B} (m : result A) (k : A -> result B) : result B :=
  match m with
  | Ok a => k a
  | Raise e => Raise e
  end.

Definition rmap {A B} (f : A -> B) (m : result A) : result B :=
  rbind m (fun a => Ok (f a)).

(** [try: body  except Exception: handler] *)
Definition try_except {A} (body : result A) (handler : result A) : result A :=
  match body with
  | Ok a => Ok a
  | Raise _ => handler
  end.

(** A list comprehension whose element expression may raise: the elements
    are evaluated in order and the first exception ends the evaluation. *)
Fixpoint list_comp {A B} (f : A -> result B) (l : list A) : result (list B) :=
  match l with
  | [] => Ok []
  | x :: xs => rbind (f x) (fun y => rbind (list_comp f xs) (fun ys => Ok (y :: ys)))
  end.

(** [{k: f(v) for k, v in d.items()}] *)
Definition dict_comp {A B} (f : A -> result B) (d : list (string * A))
  : result (list (string * B)) :=
  list_comp (fun kv => rmap (fun y => (fst kv, y)) (f (snd kv))) d.

(** ** Built-ins the program calls *)

Definition isinstance_dict (v : value) : bool :=
  match v with VDict _ => true | _ => false end.
Definition isinstance_str (v : value) : bool :=
  match v with VStr _ => true | _ => false end.
Definition isinstance_bool (v : value) : bool :=
  match v with VBool _ => true | _ => false end.
(** [bool] is a subclass of [int]. *)
Definition isinstance_int (v : value) : bool :=
  match v with VInt _ | VBool _ => true | _ => false end.
Definition isinstance_float (v : value) : bool :=
  match v with VFloat _ => true | _ => false end.
Definition is_None (v : value) : bool :=
  match v with VNone => true | _ => false end.

Definition len {A} (l : list A) : Z := Z.of_nat (List.length l).

(** *** Characters

    A text is the UTF-8 encoding of a Python [str].  A character (a code
    point) is a byte that is no continuation byte, followed by its
    continuation bytes. *)

Definition is_continuation (c : ascii) : bool :=
  let n := N_of_ascii c in ((128 <=? n) && (n <? 192))%N.

(** The characters of a text, each as a text of its own: what
    [for x in s] yields. *)
Fixpoint characters (s : string) : list string :=
  match s with
  | EmptyString => []
  | String c s' =>
      match characters s' with
      | g :: gs =>
          if match s' with
             | String c' _ => is_continuation c'
             | EmptyString => false
             end
          then String c g :: gs
          else String c EmptyString :: g :: gs
      | [] => [String c EmptyString]
      end
  end.

Definition payload_bits (rest : string) (lead : N) : N :=
  fold_left (fun acc b => acc * 64 + N_of_ascii b mod 64)%N
            (list_ascii_of_string rest) lead.

(** The code point of a character: the UTF-8 decoding of its one to four
    bytes, and U+FFFD when the bytes are no encoding of a character. *)
Definition code_point (g : string) : N :=
  match g with
  | EmptyString => 65533
  | String c rest =>
      let b := N_of_ascii c in
      let k := String.length rest in
      if b <? 128 then (if Nat.eqb k 0 then b else 65533)
      else if (192 <=? b) && (b <? 224) && Nat.eqb k 1
           then payload_bits rest (b mod 32)
      else if (224 <=? b) && (b <? 240) && Nat.eqb k 2
           then payload_bits rest (b mod 16)
      else if (240 <=? b) && (b <? 248) && Nat.eqb k 3
           then payload_bits rest (b mod 8)
      else 65533
  end%N.

(** *** Digits

    The interpreter's Unicode database (version 14.0.0): the decimal
    digits come in runs of ten, from a zero on, and [decimal_zeros] lists
    the zeros; [other_digits] lists the ranges of the characters that are
    digits without being decimal digits (superscripts, circled digits and
    the like). *)
Definition decimal_zeros : list N :=
  [ 48; 1632; 1776; 1984; 2406; 2534; 2662; 2790; 2918; 3046; 3174; 3302;
    3430; 3558; 3664; 3792; 3872; 4160; 4240; 6112; 6160; 6470; 6608; 6784;
    6800; 6992; 7088; 7232; 7248; 42528; 43216; 43264; 43472; 43504; 43600;
    44016; 65296; 66720; 68912; 69734; 69872; 69942; 70096; 70384; 70736;
    70864; 71248; 71360; 71472; 71904; 72016; 72784; 73040; 73120; 92768;
    92864; 93008; 120782; 120792; 120802; 120812; 120822; 123200; 123632;
    125264; 130032 ]%N.

Definition other_digits : list (N * N) :=
  [ (178, 179); (185, 185); (4969, 4977); (6618, 6618); (8304, 8304);
    (8308, 8313); (8320, 8329); (9312, 9320); (9332, 9340); (9352, 9360);
    (9450, 9450); (9461, 9469); (9471, 9471); (10102, 10110);
    (10112, 10120); (10122, 10130); (68160, 68163); (69216, 69224);
    (69714, 69722); (127232, 127242) ]%N.

(** The value of a decimal digit, [None] for any other character. *)
Definition decimal_value (cp : N) : option Z :=
  match find (fun z => (z <=? cp) && (cp <? z + 10))%N decimal_zeros with
  | Some z => Some (Z.of_N (cp - z))
  | None => None
  end.

(** A digit: a character whose Numeric_Type is Decimal or Digit. *)
Definition is_digit_point (cp : N) : bool :=
  match decimal_value cp with
  | Some _ => true
  | None => existsb (fun r => (fst r <=? cp) && (cp <=? snd r))%N other_digits
  end.

(** [s.isdigit()]: at least one character, all of them digits. *)
Definition isdigit (s : string) : bool :=
  match characters s with
  | [] => false
  | gs => forallb (fun g => is_digit_point (code_point g)) gs
  end.

(** [s.startswith('-')] *)
Definition startswith_minus (s : string) : bool :=
  match s with
  | String "-" _ => true
  | _ => false
  end.

(** [s[1:]] of a text whose first character is a single byte, as ['-']
    is: the program takes it of no other text. *)
Definition tail (s : string) : string :=
  match s with
  | EmptyString => EmptyString
  | String _ s' => s'
  end.

(** *** Integers and text

    The interpreter converts between integers and decimal text of at most
    [int_max_str_digits] digits, the sign not counted, and raises
    [ValueError] beyond ([sys.get_int_max_str_digits()], 4300 unless the
    interpreter is told otherwise; the program does not change it). *)
Definition int_max_str_digits : Z := 4300.

(** The values of the characters of a text, when all of them are decimal
    digits. *)
Fixpoint decimal_values (gs : list string) : option (list Z) :=
  match gs with
  | [] => Some []
  | g :: gs' =>
      match decimal_value (code_point g), decimal_values gs' with
      | Some d, Some ds => Some (d :: ds)
      | _, _ => None
      end
  end.

(** The number that a run of decimal digits writes. *)
Definition number_of_digits (ds : list Z) : Z :=
  fold_left (fun acc d => 10 * acc + d) ds 0.

(** [int(s)] on a run of digits: the decimal digits of any script are
    read, a digit that is not decimal or a run of more than
    [int_max_str_digits] digits is a [ValueError]. *)
Definition int_of_digits (s : string) : result Z :=
  match decimal_values (characters s) with
  | Some (d :: ds) =>
      if len (d :: ds) <=? int_max_str_digits
      then Ok (number_of_digits (d :: ds))
      else Raise ValueError
  | _ => Raise ValueError
  end.

(** [int(s)] on the text the program gives it, an optional sign and
    digits; anything else is a [ValueError]. *)
Definition int_of_str (s : string) : result Z :=
  match s with
  | String "-" s' => rmap Z.opp (int_of_digits s')
  | String "+" s' => int_of_digits s'
  | _ => int_of_digits s
  end.

(** The decimal text of an integer, with a minus sign when negative. *)
Definition str_of_int (z : Z) : string :=
  NilZero.string_of_int (Z.to_int z).

(** The number of decimal digits of an integer. *)
Definition int_digits (z : Z) : Z :=
  Z.of_nat (String.length (str_of_int (Z.abs z))).

(** [str(z)] of an integer: its decimal text, and a [ValueError] when it
    has more than [int_max_str_digits] digits. *)
Definition py_str_int (z : Z) : result string :=
  if int_digits z <=? int_max_str_digits then Ok (str_of_int z)
  else Raise ValueError.

(** *** Plain decimal text

    The digits [0] to [9], of which [str(z)] is made. *)

Definition is_digit (c : ascii) : bool :=
  let n := Z.of_N (N_of_ascii c) in (48 <=? n) && (n <=? 57).

Definition digit_val (c : ascii) : Z := Z.of_N (N_of_ascii c) - 48.

Fixpoint all_digits (s : string) : bool :=
  match s with
  | EmptyString => true
  | String c s' => is_digit c && all_digits s'
  end.

Fixpoint digits_value (acc : Z) (s : string) : Z :=
  match s with
  | EmptyString => acc
  | String c s' => digits_value (10 * acc + digit_val c) s'
  end.

(** *** Floats

    A Python float is an IEEE 754 binary64 number. *)

(** [float(z)] of an integer: the nearest float, ties to even;
    [OverflowError] when the integer is beyond the finite floats. *)
Definition float_of_int (z : Z) : result float :=
  match binary_normalize prec emax z 0 false with
  | S754_infinity _ => Raise OverflowError
  | x => Ok (SF2Prim x)
  end.

(** [bool(f)] of a float: false at zero of either sign, true at NaN. *)
Definition float_truth (f : float) : bool := negb (PrimFloat.eqb f 0%float).


(** ** The interpreter's text conversions

    Three conversions of the Python runtime are taken as given: the text of
    a float ([str(f)], the shortest text that reads back as [f]), the
    reading of a float from text ([float(s)], [None] standing for its
    [ValueError]) and the text of a list or dict ([str(v)], which nests
    [repr] and raises when the [repr] of a member does). *)
Section Runtime.

Variable float_str : float -> string.
Variable float_of_str : string -> option float.
Variable repr_container : value -> result string.

(** [float(v)] *)
Definition py_float (v : value) : result float :=
  match v with
  | VBool b => Ok (if b then 1%float else 0%float)
  | VInt z => float_of_int z
  | VFloat f => Ok f
  | VStr s =>
      match float_of_str s with
      | Some f => Ok f
      | None => Raise ValueError
      end
  | VNone | VList _ | VDict _ | VOther _ => Raise TypeError
  end.

(** [bool(v)] *)
Definition py_bool (v : value) : bool :=
  match v with
  | VNone => false
  | VBool b => b
  | VInt z => negb (z =? 0)
  | VFloat f => float_truth f
  | VStr s => negb (String.eqb s "")
  | VList l => negb (len l =? 0)
  | VDict d => negb (len d =? 0)
  | VOther o => other_truth o
  end.

(** [str(v)] *)
Definition py_str (v : value) : result string :=
  match v with
  | VNone => Ok "None"
  | VBool true => Ok "True"
  | VBool false => Ok "False"
  | VInt z => py_str_int z
  | VFloat f => Ok (float_str f)
  | VStr s => Ok s
  | VList _ | VDict _ => repr_container v
  | VOther o => other_str o
  end.

(** ** JSON normalization (Dynamo-style -> plain dict) *)

(** The [N] branch of [_from_ddb_attr]:
<<
        try:
            if isinstance(v, str):
                if v.isdigit() or (v.startswith('-') and v[1:].isdigit()):
                    return int(v)
            return float(v)
        except Exception:
            return v
>> *)
Definition from_number (v : value) : result value :=
  try_except
    (match v with
     | VStr s =>
         if isdigit s || (startswith_minus s && isdigit (tail s))
         then rmap VInt (int_of_str s)
         else rmap VFloat (py_float v)
     | _ => rmap VFloat (py_float v)
     end)
    (Ok v).

(** The characters of a text, as [for x in v] yields them. *)
Definition chars (s : string) : list value := map VStr (characters s).

(** [for x in v]: what iterating over [v] yields. *)
Definition iterate (v : value) : result (list value) :=
  match v with
  | VList l => Ok l
  | VStr s => Ok (chars s)
  | VDict d => Ok (map (fun kv => VStr (fst kv)) d)
  | VNone | VBool _ | VInt _ | VFloat _ | VOther _ => Raise TypeError
  end.

(** [v.items()] *)
Definition items (v : value) : result (list (string * value)) :=
  match v with
  | VDict d => Ok d
  | _ => Raise AttributeError
  end.

(** [_from_ddb_attr]: convert a DynamoDB AttributeValue to a Python value.

    The first test, [not isinstance(attr, dict) or len(attr) != 1], and the
    unpacking [(t, v), = attr.items()] are the outer match: a dict of
    exactly one item goes on, anything else is returned as it is (lemma
    [from_ddb_attr_not_single]).

    The [L] branch iterates over its payload whatever it is: a list yields
    its elements, a text its characters, a dict its keys, and anything else
    is a [TypeError]; characters and keys are texts, which the function
    returns as they are (lemma [from_ddb_attr_str]).  The [M] branch calls
    [v.items()], which only a dict has. *)
Fixpoint _from_ddb_attr (attr : value) : result value :=
  match attr with
  | VDict [(t, v)] =>
      if String.eqb t "S" then Ok v
      else if String.eqb t "N" then from_number v
      else if String.eqb t "BOOL" then Ok (VBool (py_bool v))
      else if String.eqb t "NULL" then Ok VNone
      else if String.eqb t "L" then
        match v with
        | VList l =>
            rmap VList
              ((fix each (l : list value) : result (list value) :=
                  match l with
                  | [] => Ok []
                  | x :: xs =>
                      rbind (_from_ddb_attr x) (fun y =>
                      rbind (each xs) (fun ys => Ok (y :: ys)))
                  end) l)
        | VStr s => Ok (VList (chars s))
        | VDict d => Ok (VList (map (fun kv => VStr (fst kv)) d))
        | VNone | VBool _ | VInt _ | VFloat _ | VOther _ => Raise TypeError
        end
      else if String.eqb t "M" then
        match v with
        | VDict d =>
            rmap VDict
              ((fix each (d : list (string * value))
                  : result (list (string * value)) :=
                  match d with
                  | [] => Ok []
                  | kv :: xs =>
                      rbind (rmap (fun y => (fst kv, y)) (_from_ddb_attr (snd kv)))
                        (fun y => rbind (each xs) (fun ys => Ok (y :: ys)))
                  end) d)
        | _ => Raise AttributeError
        end
      else Ok v
  | _ => Ok attr
  end.

Definition recognized_tags : list string := ["S"; "N"; "BOOL"; "L"; "M"; "NULL"].

Definition str_in (s : string) (l : list string) : bool :=
  existsb (String.eqb s) l.

(** The test of [normalize_record] on one attribute value:
    [isinstance(v, dict) and len(v) == 1 and next(iter(v)) in (...)]. *)
Definition looks_tagged (v : value) : bool :=
  match v with
  | VDict d =>
      (len d =? 1) &&
      match d with
      | (t, _) :: _ => str_in t recognized_tags
      | [] => false
      end
  | _ => false
  end.

(** [normalize_record]: turn either a Dynamo AttributeValue map or a plain
    dict into a plain dict. *)
Definition normalize_record (obj : record) : result record :=
  if existsb looks_tagged (map snd obj)
  then dict_comp _from_ddb_attr obj
  else Ok obj.

(** ** DDB write helpers *)

(** The inner [conv] of [to_ddb_item], with its tests in the source's
    order.  [str(v)] can raise, and the exception ends the conversion: the
    comprehensions of the [L] and [M] branches stop at the first element
    that raises (lemma [conv_unfold] gives them as [list_comp] and
    [dict_comp]). *)
Fixpoint conv (v : value) : result value :=
  if is_None v then Ok (VDict [("NULL", VBool true)])
  else if isinstance_bool v then Ok (VDict [("BOOL", v)])
  else if (isinstance_int v || isinstance_float v) && negb (isinstance_bool v)
       then rmap (fun t => VDict [("N", VStr t)]) (py_str v)
  else if isinstance_str v then Ok (VDict [("S", v)])
  else match v with
       | VList l =>
           rmap (fun ws => VDict [("L", VList ws)])
             ((fix each (l : list value) : result (list value) :=
                 match l with
                 | [] => Ok []
                 | x :: xs =>
                     rbind (conv x) (fun y =>
                     rbind (each xs) (fun ys => Ok (y :: ys)))
                 end) l)
       | VDict d =>
           rmap (fun ws => VDict [("M", VDict ws)])
             ((fix each (d : list (string * value))
                 : result (list (string * value)) :=
                 match d with
                 | [] => Ok []
                 | kv :: xs =>
                     rbind (rmap (fun y => (fst kv, y)) (conv (snd kv)))
                       (fun y => rbind (each xs) (fun ys => Ok (y :: ys)))
                 end) d)
       | _ => rmap (fun t => VDict [("S", VStr t)]) (py_str v)
       end.

(** [to_ddb_item]: convert a normal dict to a DynamoDB AttributeValue map. *)
Definition to_ddb_item (d : record) : result record := dict_comp conv d.

(** *** Numbers of the retry loop

    [backoff] starts as the float [0.2]; [min(backoff * 2, 5)] is a float
    while the doubled value is the smaller one and the integer [5] from
    then on. *)
Inductive number : Type :=
| NInt (z : Z)
| NFloat (f : float).

(** The exact comparison of an integer with a float, [None] at NaN. *)
Definition compare_int_float (z : Z) (f : float) : option comparison :=
  match Prim2SF f with
  | S754_nan => None
  | S754_infinity false => Some Lt
  | S754_infinity true => Some Gt
  | S754_zero _ => Some (z ?= 0)
  | S754_finite s m e =>
      let mz := if s then Z.neg m else Z.pos m in
      if 0 <=? e then Some (z ?= mz * 2 ^ e) else Some (z * 2 ^ (- e) ?= mz)
  end.

(** [a < b] *)
Definition num_ltb (a b : number) : bool :=
  match a, b with
  | NInt x, NInt y => x <? y
  | NFloat x, NFloat y => PrimFloat.ltb x y
  | NInt x, NFloat y =>
      match compare_int_float x y with Some Lt => true | _ => false end
  | NFloat x, NInt y =>
      match compare_int_float y x with Some Gt => true | _ => false end
  end.

(** [a == b] *)
Definition num_eqb (a b : number) : bool :=
  match a, b with
  | NInt x, NInt y => x =? y
  | NFloat x, NFloat y => PrimFloat.eqb x y
  | NInt x, NFloat y | NFloat y, NInt x =>
      match compare_int_float x y with Some Eq => true | _ => false end
  end.

(** [a <= b] *)
Definition num_leb (a b : number) : bool := num_ltb a b || num_eqb a b.

(** [a * 2]: an integer stays an integer, a float is multiplied by [2.0]. *)
Definition times2 (a : number) : number :=
  match a with
  | NInt z => NInt (z * 2)
  | NFloat f => NFloat (f * 2)%float
  end.

(** [min(a, b)]: [b] when [b < a], else [a]. *)
Definition py_min (a b : number) : number :=
  if num_ltb b a then b else a.

(** *** Ranges, slices and dict access *)

(** [range(stop)] *)
Definition range (stop : Z) : list Z :=
  map Z.of_nat (seq 0 (Z.to_nat stop)).

(** [range(start, stop, step)]; a zero step is a [ValueError]. *)
Definition range3 (start stop step : Z) : result (list Z) :=
  if step =? 0 then Raise ValueError
  else
    let n :=
      if 0 <? step
      then (if start <? stop then (stop - start - 1) / step + 1 else 0)
      else (if stop <? start then (start - stop - 1) / (- step) + 1 else 0) in
    Ok (map (fun k => start + Z.of_nat k * step) (seq 0 (Z.to_nat n))).

(** A slice bound, brought into [0 .. len]. *)
Definition clamp (n k : Z) : Z :=
  if k <? 0 then Z.max (k + n) 0 else Z.min k n.

(** [l[i:j]] *)
Definition slice {A} (l : list A) (i j : Z) : list A :=
  let i' := clamp (len l) i in
  let j' := clamp (len l) j in
  firstn (Z.to_nat (j' - i')) (skipn (Z.to_nat i') l).

(** [enumerate(l, start)] *)
Fixpoint enumerate {A} (l : list A) (start : Z) : list (Z * A) :=
  match l with
  | [] => []
  | x :: xs => (start, x) :: enumerate xs (start + 1)
  end.

(** [sum(l)] *)
Definition sum (l : list Z) : Z := fold_left Z.add l 0.

(** [k in d] *)
Definition dict_has (k : string) (d : record) : bool :=
  existsb (fun kv => String.eqb (fst kv) k) d.

(** [d[k]], [None] standing for the [KeyError]. *)
Fixpoint dict_get (k : string) (d : record) : option value :=
  match d with
  | [] => None
  | (k', v) :: d' => if String.eqb k' k then Some v else dict_get k d'
  end.

(** [d[k] = x]: the key keeps its place when it is there, and is added at
    the end when it is not. *)
Fixpoint dict_set (k : string) (x : value) (d : record) : record :=
  match d with
  | [] => [(k, x)]
  | (k', v) :: d' =>
      if String.eqb k' k then (k', x) :: d' else (k', v) :: dict_set k x d'
  end.

(** *** The chunks of [batch_write_items]:
    [[records[i : i + batch_size] for i in range(0, len(records), batch_size)]] *)
Definition chunks_of (records : list record) (batch_size : Z)
  : result (list (list record)) :=
  rmap (map (fun i => slice records i (i + batch_size)))
       (range3 0 (len records) batch_size).

(** ** The storage backend and the effects of the writer

    The client's [batch_write_item] is an external call: it answers with a
    response that may carry [UnprocessedItems] (a dict from table name to
    the write requests that were not applied), or raises.  A run yields
    its result, the backend's new state and the effects in the order they
    happened. *)
Definition request_items := list (string * list value).

Record response := { UnprocessedItems : option request_items }.

Inductive event : Type :=
| Call (req : request_items) (answer : result response)
| Sleep (seconds : number)
| Print (line : string).

(** The calls of a trace with their answers, the requests alone, and the
    sleeps, each in the order they happened. *)
Fixpoint calls_of (tr : list event) : list (request_items * result response) :=
  match tr with
  | [] => []
  | Call req answer :: tr' => (req, answer) :: calls_of tr'
  | _ :: tr' => calls_of tr'
  end.

Definition requests_of (tr : list event) : list request_items :=
  map fst (calls_of tr).

Fixpoint sleeps_of (tr : list event) : list number :=
  match tr with
  | [] => []
  | Sleep d :: tr' => d :: sleeps_of tr'
  | _ :: tr' => sleeps_of tr'
  end.

Section Backend.

Variable backend : Type.
Variable batch_write_item : request_items -> backend -> result response * backend.

Definition M (A : Type) : Type := backend -> result A * backend * list event.

Definition ret {A} (a : A) : M A := fun s => (Ok a, s, []).

Definition bind {A B} (m : M A) (k : A -> M B) : M B :=
  fun s =>
    match m s with
    | (Ok a, s1, t1) =>
        match k a s1 with
        | (r, s2, t2) => (r, s2, (t1 ++ t2)%list)
        end
    | (Raise e, s1, t1) => (Raise e, s1, t1)
    end.

Definition lift {A} (r : result A) : M A := fun s => (r, s, []).

Notation "x <- m ;; k" := (bind m (fun x => k))
  (at level 61, m at next level, right associativity).
Notation "m ;; k" := (bind m (fun _ => k))
  (at level 61, right associativity).

Definition call_batch_write_item (req : request_items) : M response :=
  fun s =>
    match batch_write_item req s with
    | (r, s') => (r, s', [Call req r])
    end.

Definition sleep (d : number) : M unit := fun s => (Ok tt, s, [Sleep d]).
Definition print (line : string) : M unit := fun s => (Ok tt, s, [Print line]).
Definition info (msg : string) : M unit := print ("[INFO] " ++ msg).
Definition warn (msg : string) : M unit := print ("[WARN] " ++ msg).

(** [resp.get("UnprocessedItems", {})] *)
Definition unprocessed_of (resp : response) : request_items :=
  match UnprocessedItems resp with
  | Some u => u
  | None => []
  end.

(** [sum(len(v) for v in unprocessed.values())] *)
Definition unprocessed_count (u : request_items) : Z :=
  sum (map (fun kv => len (snd kv)) u).

(** The retry loop of one chunk, [for attempt in range(max_retries): ...],
    by recursion on the attempts that are left.  The numbers in the
    printed lines are lengths and attempt numbers, far below the digit
    limit of [str]. *)
Fixpoint retry_loop (attempts : list Z) (request : request_items)
    (backoff : number) : M unit :=
  match attempts with
  | [] => ret tt
  | attempt :: rest =>
      resp <- call_batch_write_item request ;;
      let unprocessed := unprocessed_of resp in
      let count := unprocessed_count unprocessed in
      if count =? 0 then ret tt
      else
        warn (str_of_int count ++ " unprocessed items, retrying (attempt "
              ++ str_of_int (attempt + 1) ++ ")") ;;
        sleep backoff ;;
        retry_loop rest unprocessed (py_min (times2 backoff) (NInt 5))
  end.

(** [{"PutRequest": {"Item": item}}] *)
Definition put_request (item : record) : value :=
  VDict [("PutRequest", VDict [("Item", VDict item)])].

(** [{table_name: [{"PutRequest": {"Item": to_ddb_item(rec)}} for rec in chunk]}];
    an exception of [to_ddb_item] ends the comprehension. *)
Definition put_requests (table_name : string) (chunk : list record)
  : result request_items :=
  rmap (fun items => [(table_name, items)])
       (list_comp (fun rec => rmap put_request (to_ddb_item rec)) chunk).

(** The body of [for i, chunk in enumerate(chunks, 1)]. *)
Definition write_chunk (table_name : string) (total : Z) (max_retries : Z)
    (i : Z) (chunk : list record) : M unit :=
  request_items <- lift (put_requests table_name chunk) ;;
  retry_loop (range max_retries) request_items (NFloat 0.2) ;;
  info ("Wrote batch " ++ str_of_int i ++ "/" ++ str_of_int total
        ++ " (" ++ str_of_int (len chunk) ++ " items)").

Fixpoint for_each {A} (body : A -> M unit) (l : list A) : M unit :=
  match l with
  | [] => ret tt
  | x :: xs => body x ;; for_each body xs
  end.

(** [batch_write_items]: batch write many items with basic retry on
    UnprocessedItems. *)
Definition batch_write_items (table_name : string) (records : list record)
    (batch_size max_retries : Z) : M unit :=
  chunks <- lift (chunks_of records batch_size) ;;
  for_each (fun ic => write_chunk table_name (len chunks) max_retries (fst ic) (snd ic))
           (enumerate chunks 1).

(** ** Main: the import of a loaded JSON list (lines 199-216)

    [normalize_record(x)] calls [x.values()], which only a dict has. *)
Definition normalize_item (x : value) : result record :=
  match x with
  | VDict d => normalize_record d
  | _ => Raise AttributeError
  end.

(** [if "patient_id" in r and not isinstance(r["patient_id"], str):
       r["patient_id"] = str(r["patient_id"])] *)
Definition coerce_patient_id (r : record) : result record :=
  match dict_get "patient_id" r with
  | Some v =>
      if negb (isinstance_str v)
      then rmap (fun t => dict_set "patient_id" (VStr t) r) (py_str v)
      else Ok r
  | None => Ok r
  end.

(** What [main] does to the normalized records before it writes them:
    the filter on the primary key, then the loop that coerces
    [patient_id], which the first [str()] that raises ends. *)
Definition prepare_records (records : list record) : result (list record) :=
  list_comp coerce_patient_id (filter (dict_has "summarize_job_name") records).

(** The import, up to the end of the write; the example query printed
    after it is left out. *)
Definition main_import (table : string) (data : list value) : M unit :=
  records <- lift (list_comp normalize_item data) ;;
  let before := len records in
  let kept := filter (dict_has "summarize_job_name") records in
  let missing_count := before - len kept in
  (if negb (missing_count =? 0)
   then warn (str_of_int missing_count
              ++ " record(s) missing 'summarize_job_name' skipped")
   else ret tt) ;;
  records <- lift (list_comp coerce_patient_id kept) ;;
  if len records =? 0 then warn "No valid records to import."
  else
    batch_write_items table records 25 5 ;;
    info "Import complete. Example query:".

(** ** Notions of the specification *)

(** A Generic Value: built from null, booleans, integers, floats, strings,
    sequences and string-keyed mappings, each float in it satisfying [P]. *)
Fixpoint generic (P : float -> Prop) (v : value) : Prop :=
  match v with
  | VNone | VBool _ | VInt _ | VStr _ => True
  | VFloat f => P f
  | VList l =>
      (fix all (l : list value) : Prop :=
         match l with
         | [] => True
         | x :: xs => generic P x /\ all xs
         end) l
  | VDict d =>
      (fix all (d : list (string * value)) : Prop :=
         match d with
         | [] => True
         | kv :: xs => generic P (snd kv) /\ all xs
         end) d
  | VOther _ => False
  end.

(** The decoder's test for integer text. *)
Definition looks_int (s : string) : bool :=
  isdigit s || (startswith_minus s && isdigit (tail s)).

(** A float whose text the interpreter reads back as the same float, and
    whose text is not that of an integer. *)
Definition reads_back (f : float) : Prop :=
  float_of_str (float_str f) = Some f /\ looks_int (float_str f) = false.

(** A single-key mapping whose sole key is a recognized tag. *)
Definition tag_wrapper (v : value) : Prop :=
  exists t x, v = VDict [(t, x)] /\ In t recognized_tags.

(** A digit: a character that the Unicode standard classes as one, the
    digits [0] to [9] among them. *)
Definition digit (g : string) : Prop := is_digit_point (code_point g) = true.

(** A run of one or more digits. *)
Definition digit_run (s : string) : Prop :=
  exists g gs, characters s = g :: gs /\ Forall digit (g :: gs).

(** An optional leading minus followed only by digits. *)
Definition integer_text (t : string) : Prop :=
  digit_run t \/ exists ds, t = String "-" ds /\ digit_run ds.

(** A run of one or more of the digits [0] to [9]. *)
Inductive plain_digit_run : string -> Prop :=
| plain_digit_run_one c :
    In c ["0"; "1"; "2"; "3"; "4"; "5"; "6"; "7"; "8"; "9"]%char ->
    plain_digit_run (String c EmptyString)
| plain_digit_run_more c s :
    In c ["0"; "1"; "2"; "3"; "4"; "5"; "6"; "7"; "8"; "9"]%char ->
    plain_digit_run s -> plain_digit_run (String c s).

(** Decimal text: an optional leading minus followed only by the digits
    [0] to [9]; [digits_of] is the run of digits. *)
Definition decimal_text (t : string) : Prop :=
  plain_digit_run t \/ exists ds, t = String "-" ds /\ plain_digit_run ds.

Definition digits_of (t : string) : string :=
  match t with
  | String "-" ds => ds
  | _ => t
  end.






(** A run of calls in which the first request is [req] and every later one
    is the unprocessed subset that the answer before it reported; a call
    that raises is the last. *)
Fixpoint resubmits (req : request_items)
    (calls : list (request_items * result response)) : Prop :=
  match calls with
  | [] => True
  | (r, answer) :: rest =>
      r = req /\
      match answer with
      | Ok resp => resubmits (unprocessed_of resp) rest
      | Raise _ => rest = []
      end
  end.

(** The successive values of [backoff] from [b] on. *)
Fixpoint backoff_schedule (n : nat) (b : number) : list number :=
  match n with
  | O => []
  | S n' => b :: backoff_schedule n' (py_min (times2 b) (NInt 5))
  end.

(** The values [backoff] takes from [0.2] on. *)
Definition backoff_values : list number :=
  [NFloat 0.2; NFloat 0.4; NFloat 0.8; NFloat 1.6; NFloat 3.2; NInt 5].

(** A delay follows another in the schedule of the specification: it is
    double the previous one while that does not exceed the cap of 5, and
    the cap once it does. *)
Definition doubles_to_cap (a b : number) : Prop :=
  (num_leb (times2 a) (NInt 5) = true /\ b = times2 a)
  \/ (num_ltb (NInt 5) (times2 a) = true /\ b = NInt 5).

(** A backend that reports every submitted item as unprocessed. *)
Definition always_unprocessed : Prop :=
  forall req s,
    fst (batch_write_item req s) = Ok {| UnprocessedItems := Some req |}.

(** A backend that applies every submitted item. *)
Definition accepts_all : Prop :=
  forall req s, exists resp,
    fst (batch_write_item req s) = Ok resp
    /\ unprocessed_count (unprocessed_of resp) = 0.

(** [kept_of records kept]: [kept] is [records] without the records that
    lack the primary key, the others in their order. *)
Inductive kept_of : list record -> list record -> Prop :=
| kept_nil : kept_of [] []
| kept_keep r rs ks :
    In "summarize_job_name" (map fst r) -> kept_of rs ks ->
    kept_of (r :: rs) (r :: ks)
| kept_drop r rs ks :
    ~ In "summarize_job_name" (map fst r) -> kept_of rs ks ->
    kept_of (r :: rs) ks.

(** [coerced r r']: [r'] is [r] with the value of [patient_id], when there
    is one and it is not a string, replaced by its string form; the keys
    and every other value are those of [r]. *)
Definition coerced (r r' : record) : Prop :=
  map fst r' = map fst r
  /\ forall k,
       match dict_get k r with
       | Some v =>
           if String.eqb k "patient_id" && negb (isinstance_str v)
           then exists t, py_str v = Ok t /\ dict_get k r' = Some (VStr t)
           else dict_get k r' = Some v
       | None => dict_get k r' = None
       end.

(** The records whose [patient_id] can be coerced: it is a string, or
    [str()] returns on it. *)
Definition coercible (r : record) : Prop :=
  forall v, dict_get "patient_id" r = Some v ->
            isinstance_str v = true \/ exists t, py_str v = Ok t.

(** ** Further notions: shape of values *)

(** The nesting depth of a value: scalars are at depth 0, a list or a dict
    one above its deepest member. *)
Fixpoint depth (v : value) : nat :=
  match v with
  | VList l => S (list_max (map depth l))
  | VDict d => S (list_max (map (fun kv => depth (snd kv)) d))
  | VNone | VBool _ | VInt _ | VFloat _ | VStr _ | VOther _ => O
  end.

(** [plain v]: [v] with every object of another type replaced by its
    [str()] text, at any depth (such an object stays when its [str()]
    raises). *)
Fixpoint plain (v : value) : value :=
  match v with
  | VList l => VList (map plain l)
  | VDict d => VDict (map (fun kv => (fst kv, plain (snd kv))) d)
  | VOther o =>
      match other_str o with
      | Ok t => VStr t
      | Raise _ => v
      end
  | VNone | VBool _ | VInt _ | VFloat _ | VStr _ => v
  end.

(** A JSON value: no object of another type anywhere in it. *)
Definition json (v : value) : Prop := generic (fun _ => True) v.

(** A well-typed AttributeValue: one tag, with a payload of the type the
    tag announces (text under S and N, a boolean under BOOL, [True] under
    NULL, a list of AttributeValues under L, a map of them under M). *)
Fixpoint wire (v : value) : bool :=
  match v with
  | VDict [(t, x)] =>
      if String.eqb t "S" then isinstance_str x
      else if String.eqb t "N" then isinstance_str x
      else if String.eqb t "BOOL" then isinstance_bool x
      else if String.eqb t "NULL" then
        match x with VBool true => true | _ => false end
      else if String.eqb t "L" then
        match x with
        | VList l => forallb wire l
        | _ => false
        end
      else if String.eqb t "M" then
        match x with
        | VDict d => forallb (fun kv => wire (snd kv)) d
        | _ => false
        end
      else false
  | _ => false
  end.

(** ** Further notions: runs of the writer *)

(** A call that the backend answered, without raising. *)
Definition answered (ca : request_items * result response) : Prop :=
  exists resp, snd ca = Ok resp.

(** A call whose answer reported unprocessed items: the loop retries
    after it. *)
Definition reports_unprocessed (ca : request_items * result response) : bool :=
  match snd ca with
  | Ok resp => negb (unprocessed_count (unprocessed_of resp) =? 0)
  | Raise _ => false
  end.

(** The result of a run agrees with its trace: a run that returns has had
    all its calls answered; a run that raises [e] ends with the call that
    raised [e], all calls before it answered, or has had all its calls
    answered (and [e] comes from the encoding of a record). *)
Definition propagates (r : result unit) (tr : list event) : Prop :=
  match r with
  | Ok _ => Forall answered (calls_of tr)
  | Raise e =>
      (exists tr' req,
         tr = (tr' ++ [Call req (Raise e)])%list /\ Forall answered (calls_of tr'))
      \/ Forall answered (calls_of tr)
  end.

(** The progress lines of a trace: the texts printed by [info]. *)
Fixpoint infos_of (tr : list event) : list string :=
  match tr with
  | [] => []
  | Print line :: tr' =>
      if String.prefix "[INFO] " line then line :: infos_of tr' else infos_of tr'
  | _ :: tr' => infos_of tr'
  end.

(** The progress line of chunk [i] out of [total]. *)
Definition progress_line (total : Z) (ic : Z * list record) : string :=
  "[INFO] " ++ ("Wrote batch " ++ str_of_int (fst ic) ++ "/" ++ str_of_int total
                ++ " (" ++ str_of_int (len (snd ic)) ++ " items)").

(** [within req0 req]: every item of the request [req] is an item that
    [req0] has for the same table. *)
Definition within (req0 req : request_items) : Prop :=
  forall t items, In (t, items) req ->
    exists items0, In (t, items0) req0 /\ incl items items0.

(** A backend that reports as unprocessed only items it was sent. *)
Definition reports_only_submitted : Prop :=
  forall req s resp,
    fst (batch_write_item req s) = Ok resp -> within req (unprocessed_of resp).

(** ** AWS setup and the script

    The rest of the program: [ensure_table], [main] and the [__main__]
    block.  What [main] calls outside the program is given, like the
    batch write, as functions of the state of the outside world: the
    parsing of the command line ([argparse], which can end the process),
    the creation of the session and its clients, the identity check, the
    three table operations and the reading of the import file ([open]
    and [json.load]). *)

(** What ends a computation early: an exception of the writer and codec
    (a ClientError whose response nobody reads is [Exception ClientError]),
    a KeyError or IndexError, or [sys.exit(status)]. *)
Inductive failure : Type :=
| Exception (e : exn)
| LookupError
| SystemExit (status : Z).

Inductive outcome (A : Type) : Type :=
| Done (a : A)
| Failed (f : failure).
Arguments Done {A} a.
Arguments Failed {A} f.

(** What [describe_table] answers: the table is there, or a ClientError
    with the error code of its response,
    [e.response.get("Error", {}).get("Code")], or another exception. *)
Inductive described : Type :=
| TableFound
| DescribeClientError (code : option string)
| DescribeError (f : failure).

Record index_spec := {
  IndexName : string;
  IndexKeySchema : list (string * string);
  ProjectionType : string }.

(** The arguments of [create_table]; attribute definitions are pairs of
    name and type, key schemas pairs of name and key type. *)
Record table_spec := {
  TableName : string;
  AttributeDefinitions : list (string * string);
  KeySchema : list (string * string);
  GlobalSecondaryIndexes : list index_spec;
  BillingMode : string }.

(** The parsed command line. *)
Record arguments := {
  region : string;
  table : string;
  test_object : string;
  import_file : option string;
  dry_run : bool }.

(** What the script does, in order: the calls outside the program, the
    effects of the writer (with every line printed to stdout), the lines
    printed to stderr, and the object printed as JSON. *)
Inductive step : Type :=
| ParseArgs
| CreateClients (region_name : string)
| GetCallerIdentity
| DescribeTable (name : string)
| CreateTable (spec : table_spec)
| WaitTableExists (name : string)
| LoadJson (path : string)
| Effect (e : event)
| Stderr (line : string)
| PrintJson (v : value).

(** [ap.parse_args()]: the parsed command line, or the end of the process
    ([--help] prints the usage and exits with status 0, a command line
    that does not parse prints an error and exits with status 2). *)
Variable parse_args : backend -> outcome arguments * backend.
(** [boto3.Session(region_name=...)] and its three [session.client(...)]. *)
Variable create_clients : string -> backend -> outcome unit * backend.
Variable get_caller_identity : backend -> outcome (string * string) * backend.
Variable describe_table : string -> backend -> described * backend.
Variable create_table : table_spec -> backend -> outcome unit * backend.
Variable wait_table_exists : string -> backend -> outcome unit * backend.
Variable load_json : string -> backend -> outcome value * backend.
(** [str(e)] of an exception. *)
Variable exception_text : failure -> string.

Definition P (A : Type) : Type := backend -> outcome A * backend * list step.

Definition pret {A} (a : A) : P A := fun s => (Done a, s, []).

Definition pbind {A B} (m : P A) (k : A -> P B) : P B :=
  fun s =>
    match m s with
    | (Done a, s1, t1) =>
        match k a s1 with
        | (r, s2, t2) => (r, s2, (t1 ++ t2)%list)
        end
    | (Failed f, s1, t1) => (Failed f, s1, t1)
    end.

Notation "x <-- m ;; k" := (pbind m (fun x => k))
  (at level 61, m at next level, right associativity).
Notation "m ;;; k" := (pbind m (fun _ => k))
  (at level 61, right associativity).

Definition fail {A} (f : failure) : P A := fun s => (Failed f, s, []).

(** A computation of the writer, run inside the script. *)
Definition of_M {A} (m : M A) : P A :=
  fun s =>
    match m s with
    | (Ok a, s1, t) => (Done a, s1, map Effect t)
    | (Raise e, s1, t) => (Failed (Exception e), s1, map Effect t)
    end.

(** A client call, noted in the trace. *)
Definition client {A} (what : step) (op : backend -> outcome A * backend) : P A :=
  fun s => match op s with (r, s1) => (r, s1, [what]) end.

(** [err]: a line on stderr. *)
Definition err (msg : string) : P unit :=
  fun s => (Done tt, s, [Stderr ("[ERR ] " ++ msg)]).

(** [sys.exit(status)] *)
Definition sys_exit {A} (status : Z) : P A := fail (SystemExit status).

(** [try: body  except Exception as e: handler(e)]; [SystemExit] is not an
    [Exception] and passes through. *)
Definition try_except_exception {A} (body : P A) (handler : failure -> P A) : P A :=
  fun s =>
    match body s with
    | (Failed (SystemExit n), s1, t1) => (Failed (SystemExit n), s1, t1)
    | (Failed f, s1, t1) =>
        match handler f s1 with
        | (r, s2, t2) => (r, s2, (t1 ++ t2)%list)
        end
    | (Done a, s1, t1) => (Done a, s1, t1)
    end.

Definition isinstance_list (v : value) : bool :=
  match v with VList _ => true | _ => false end.

(** Whether [json.dumps] returns: it goes through the value in order and
    raises a [TypeError] at an object that is of no JSON type, and a
    [ValueError] at an integer beyond the digit limit. *)
Fixpoint serializable (v : value) : result unit :=
  match v with
  | VList l =>
      (fix each (l : list value) : result unit :=
         match l with
         | [] => Ok tt
         | x :: xs => rbind (serializable x) (fun _ => each xs)
         end) l
  | VDict d =>
      (fix each (d : list (string * value)) : result unit :=
         match d with
         | [] => Ok tt
         | kv :: xs => rbind (serializable (snd kv)) (fun _ => each xs)
         end) d
  | VOther _ => Raise TypeError
  | VInt z =>
      if int_digits z <=? int_max_str_digits then Ok tt else Raise ValueError
  | VNone | VBool _ | VFloat _ | VStr _ => Ok tt
  end.

(** [print(json.dumps(v, indent=2))] *)
Definition print_json (v : value) : P unit :=
  fun s =>
    match serializable v with
    | Ok _ => (Done tt, s, [PrintJson v])
    | Raise e => (Failed (Exception e), s, [])
    end.

(** The table that [ensure_table] creates: PK [summarize_job_name] (S),
    GSI on [patient_id] (S), on-demand billing. *)
Definition table_schema (table_name : string) : table_spec :=
  {| TableName := table_name;
     AttributeDefinitions := [("summarize_job_name", "S"); ("patient_id", "S")];
     KeySchema := [("summarize_job_name", "HASH")];
     GlobalSecondaryIndexes :=
       [ {| IndexName := "patient_id-index";
            IndexKeySchema := [("patient_id", "HASH")];
            ProjectionType := "ALL" |} ];
     BillingMode := "PAY_PER_REQUEST" |}.

Definition is_not_found (code : option string) : bool :=
  match code with
  | Some c => String.eqb c "ResourceNotFoundException"
  | None => false
  end.

(** [ensure_table]: create the DynamoDB table if it does not exist.  The
    [try] returns when [describe_table] does; its [except ClientError]
    lets the function go on only for the code ResourceNotFoundException
    and raises the error again for any other. *)
Definition ensure_table (table_name : string) : P unit :=
  fun s =>
    match describe_table table_name s with
    | (TableFound, s1) =>
        match of_M (info ("DynamoDB table exists: " ++ table_name)) s1 with
        | (r, s2, t2) => (r, s2, DescribeTable table_name :: t2)
        end
    | (DescribeClientError code, s1) =>
        if negb (is_not_found code)
        then (Failed (Exception ClientError), s1, [DescribeTable table_name])
        else
          match (of_M (info ("Creating DynamoDB table: " ++ table_name)) ;;;
                 client (CreateTable (table_schema table_name))
                        (create_table (table_schema table_name)) ;;;
                 client (WaitTableExists table_name) (wait_table_exists table_name) ;;;
                 of_M (info "Table created and active.")) s1 with
          | (r, s2, t2) => (r, s2, DescribeTable table_name :: t2)
          end
    | (DescribeError f, s1) => (Failed f, s1, [DescribeTable table_name])
    end.

(** The example query printed after an import. *)
Definition example_query (table_name : string) (example_key : value) : value :=
  VDict [("GetItem",
          VDict [("TableName", VStr table_name);
                 ("Key", VDict [("summarize_job_name",
                                 VDict [("S", example_key)])])])].

(** Lines 199-229 of [main]: the import of the loaded list, with the
    example query printed at the end. *)
Definition import_list (table_name : string) (data : list value) : P unit :=
  records <-- of_M (lift (list_comp normalize_item data)) ;;
  let before := len records in
  let kept := filter (dict_has "summarize_job_name") records in
  let missing_count := before - len kept in
  (if negb (missing_count =? 0)
   then of_M (warn (str_of_int missing_count
                    ++ " record(s) missing 'summarize_job_name' skipped"))
   else pret tt) ;;;
  records <-- of_M (lift (list_comp coerce_patient_id kept)) ;;
  if len records =? 0 then of_M (warn "No valid records to import.")
  else
    of_M (batch_write_items table_name records 25 5) ;;;
    of_M (info "Import complete. Example query:") ;;;
    example_key <--
      match records with
      | r :: _ =>
          match dict_get "summarize_job_name" r with
          | Some v => pret v
          | None => fail LookupError
          end
      | [] => fail LookupError
      end ;;
    print_json (example_query table_name example_key).

(** The body of [if args.import_file:]: read the file, check that it
    holds a list, import the list.  A file that cannot be read or parsed,
    or that holds something else than a list, ends the process with
    status 2. *)
Definition import_from_file (table_name path : string) : P unit :=
  of_M (info ("Importing sample file: " ++ path)) ;;;
  data <-- try_except_exception
             (client (LoadJson path) (load_json path))
             (fun e => err ("Failed to read JSON: " ++ exception_text e) ;;;
                       sys_exit 2) ;;
  match data with
  | VList l => import_list table_name l
  | _ => err "Import file must be a JSON list of objects" ;;; sys_exit 2
  end.

(** [if args.import_file: ...]: nothing to do without a path. *)
Definition import_if_given (args : arguments) : P unit :=
  match import_file args with
  | Some path =>
      if negb (String.eqb path "") then import_from_file (table args) path
      else pret tt
  | None => pret tt
  end.

(** [main] *)
Definition main : P unit :=
  args <-- client ParseArgs parse_args ;;
  client (CreateClients (region args)) (create_clients (region args)) ;;;
  ident <-- client GetCallerIdentity get_caller_identity ;;
  of_M (info ("AWS connected as Account " ++ fst ident ++ ", ARN " ++ snd ident
              ++ " in " ++ region args)) ;;;
  ensure_table (table args) ;;;
  if dry_run args then of_M (info "Dry-run complete. Infra verified.")
  else
    import_if_given args ;;;
    of_M (info "All done. You can now query by summarize_job_name or via GSI patient_id-index.").

(** [main] from line 174 on, the command line parsed and the clients
    created. *)
Definition main_connected (args : arguments) : P unit :=
  ident <-- client GetCallerIdentity get_caller_identity ;;
  of_M (info ("AWS connected as Account " ++ fst ident ++ ", ARN " ++ snd ident
              ++ " in " ++ region args)) ;;;
  ensure_table (table args) ;;;
  if dry_run args then of_M (info "Dry-run complete. Infra verified.")
  else
    import_if_given args ;;;
    of_M (info "All done. You can now query by summarize_job_name or via GSI patient_id-index.").

(** The [__main__] block: the exit status of the process, 0 when [main]
    returns, the status given to [sys.exit], 2 after a ClientError and 1
    after any other exception. *)
Definition script : backend -> Z * backend * list step :=
  fun s =>
    match main s with
    | (Done _, s1, t) => (0, s1, t)
    | (Failed (SystemExit status), s1, t) => (status, s1, t)
    | (Failed (Exception ClientError), s1, t) =>
        (2, s1,
         (t ++ [Stderr ("[ERR ] " ++ ("AWS error: "
                                      ++ exception_text (Exception ClientError)))])%list)
    | (Failed f, s1, t) =>
        (1, s1,
         (t ++ [Stderr ("[ERR ] " ++ ("Unexpected error: " ++ exception_text f))])%list)
    end.

(** The effects of the writer within a run of the script, in order. *)
Fixpoint effects_of (t : list step) : list event :=
  match t with
  | [] => []
  | Effect e :: t' => e :: effects_of t'
  | _ :: t' => effects_of t'
  end.

(** The steps of the setup: the parsing of the command line, the creation
    of the clients, the identity check, the table operations and printed
    lines; no batch write, no reading of a file, no JSON output. *)
Definition setup_step (st : step) : Prop :=
  match st with
  | ParseArgs | CreateClients _ | GetCallerIdentity | DescribeTable _ | CreateTable _ | WaitTableExists _
  | Effect (Print _) | Stderr _ => True
  | Effect (Call _ _) | Effect (Sleep _) | LoadJson _ | PrintJson _ => False
  end.

(** The batch-write requests of a run of the script. *)
Definition writes_of (t : list step) : list request_items :=
  requests_of (effects_of t).

(** A table service on which a table that was found, or created and
    waited for, is found at the next [describe_table]. *)
Definition tables_persist : Prop :=
  (forall name s,
     fst (describe_table name s) = TableFound ->
     fst (describe_table name (snd (describe_table name s))) = TableFound)
  /\ (forall name s,
        fst (create_table (table_schema name) s) = Done tt ->
        fst (wait_table_exists name (snd (create_table (table_schema name) s)))
        = Done tt ->
        fst (describe_table name
               (snd (wait_table_exists name
                       (snd (create_table (table_schema name) s)))))
        = TableFound).

(** Client operations that fail with exceptions only, never by exiting
    the process. *)
Definition clients_raise_exceptions : Prop :=
  (forall region_name s n,
     fst (create_clients region_name s) <> Failed (SystemExit n))
  /\ (forall s n, fst (get_caller_identity s) <> Failed (SystemExit n))
  /\ (forall name s n, fst (describe_table name s) <> DescribeError (SystemExit n))
  /\ (forall spec s n, fst (create_table spec s) <> Failed (SystemExit n))
  /\ (forall name s n, fst (wait_table_exists name s) <> Failed (SystemExit n))
  /\ (forall path s n, fst (load_json path s) <> Failed (SystemExit n)).

(** A command-line parser that ends the process with status 0 (after
    printing the usage for [--help]) or 2 (after an error message) only,
    as [argparse] does. *)
Definition parser_exits : Prop :=
  forall s n, fst (parse_args s) = Failed (SystemExit n) -> n = 0 \/ n = 2.

(** ** Sample instances

    Stand-ins on which the definitions can be run: float conversions that
    know the texts of 3.5, 0.5 and NaN, and two backends, one that reports
    every item as unprocessed and one that applies every item. *)
Definition sample_float_str (f : float) : string :=
  if PrimFloat.eqb f 3.5 then "3.5"
  else if PrimFloat.eqb f 0.5 then "0.5"
  else "nan".

Definition sample_float_of_str (s : string) : option float :=
  if String.eqb s "3.5" then Some 3.5%float
  else if String.eqb s "0.5" then Some 0.5%float
  else if String.eqb s "nan" then Some nan
  else None.

Definition sample_repr_container (v : value) : result string := Ok "[...]".

(** The least integer of 4301 digits. *)
Definition sample_big : Z := 10 ^ 4300.

Definition stubborn_backend (req : request_items) (s : unit)
  : result response * unit :=
  (Ok {| UnprocessedItems := Some req |}, s).

Definition accepting_backend (req : request_items) (s : unit)
  : result response * unit :=
  (Ok {| UnprocessedItems := None |}, s).


Definition sample_wire : record :=
  [ ("summarize_job_name", VDict [("S", VStr "job-9")]);
    ("codes", VDict [("L", VList [VDict [("N", VStr "12")]; VDict [("SS", VStr "raw")]])]);
    ("plain", VInt 1) ].

Definition sample_data : list value :=
  [ VDict [("patient_id", VStr "p1")];
    VDict [("summarize_job_name", VStr "job-1"); ("patient_id", VInt 42)] ].

Definition sample_records : list record :=
  [ [("summarize_job_name", VStr "job-1"); ("patient_id", VInt 42)];
    [("summarize_job_name", VStr "job-2")];
    [("summarize_job_name", VStr "job-3"); ("score", VFloat 3.5)] ].

(** A backend whose batch write fails with a ClientError. *)
Definition failing_backend (req : request_items) (s : unit)
  : result response * unit :=
  (Raise ClientError, s).

(** A record holding objects of other types, a complex number and a
    date. *)
Definition sample_mixed : record :=
  [ ("summarize_job_name", VStr "job-4");
    ("z", VOther {| other_str := Ok "(1+2j)"; other_truth := true |});
    ("tags", VList [VInt 1;
                    VOther {| other_str := Ok "2024-01-31"; other_truth := true |}]) ].

(** An outside world whose state is the names of the tables that exist:
    the clients are created and the identity check passes, a table is
    missing until it is created, the batch write applies every item, and
    the one import file holds [sample_data]; any other file does not
    parse. *)
Definition sample_create_clients (region_name : string) (s : list string)
  : outcome unit * list string :=
  (Done tt, s).

Definition sample_get_caller_identity (s : list string)
  : outcome (string * string) * list string :=
  (Done ("123456789012", "arn:aws:iam::123456789012:user/dev"), s).

Definition sample_describe_table (name : string) (s : list string)
  : described * list string :=
  if existsb (String.eqb name) s then (TableFound, s)
  else (DescribeClientError (Some "ResourceNotFoundException"), s).

Definition sample_create_table (spec : table_spec) (s : list string)
  : outcome unit * list string :=
  (Done tt, TableName spec :: s).

Definition sample_wait_table_exists (name : string) (s : list string)
  : outcome unit * list string :=
  (Done tt, s).

Definition sample_load_json (path : string) (s : list string)
  : outcome value * list string :=
  if String.eqb path "notes.json" then (Done (VList sample_data), s)
  else (Failed (Exception ValueError), s).

Definition sample_batch_write_item (req : request_items) (s : list string)
  : result response * list string :=
  (Ok {| UnprocessedItems := None |}, s).

Definition sample_exception_text (f : failure) : string :=
  match f with
  | Exception ClientError => "An error occurred"
  | Exception _ => "Expecting value"
  | LookupError => "'summarize_job_name'"
  | SystemExit _ => ""
  end.

Definition sample_args : arguments :=
  {| region := "us-west-2";
     table := "notes";
     test_object := "connectivity.txt";
     import_file := Some "notes.json";
     dry_run := false |}.

Definition sample_dry_run_args : arguments :=
  {| region := "us-west-2";
     table := "notes";
     test_object := "connectivity.txt";
     import_file := Some "notes.json";
     dry_run := true |}.

(** Command lines: an import, a dry run, and [--help]. *)
Definition sample_parse_args (s : list string)
  : outcome arguments * list string :=
  (Done sample_args, s).

Definition sample_parse_dry_run (s : list string)
  : outcome arguments * list string :=
  (Done sample_dry_run_args, s).

Definition sample_parse_help (s : list string)
  : outcome arguments * list string :=
  (Failed (SystemExit 0), s).

(** * Properties *)

(** ** Decimal text of integers *)

Lemma is_digit_In (c : ascii) :
  is_digit c = true
  <-> In c ["0"; "1"; "2"; "3"; "4"; "5"; "6"; "7"; "8"; "9"]%char.
Proof.
  split.
  - destruct c as [[] [] [] [] [] [] [] []]; intros H;
      try discriminate H; simpl; auto 12.
  - intros H; simpl in H.
    repeat (destruct H as [<- | H]; [reflexivity|]). destruct H.
Qed.

Lemma all_digits_string_of_uint (d : uint) :
  all_digits (NilEmpty.string_of_uint d) = true.
Proof.
  induction d; simpl; auto.
Qed.

Lemma digit_val_char (c : ascii) (k : Z) :
  Z.of_N (N_of_ascii c) = 48 + k -> digit_val c = k.
Proof.
  unfold digit_val; lia.
Qed.

Lemma digits_value_acc (d : uint) (acc : positive) :
  digits_value (Z.pos acc) (NilEmpty.string_of_uint d)
  = Z.pos (Pos.of_uint_acc d acc).
Proof.
  revert acc; induction d; intros acc;
    cbn [NilEmpty.string_of_uint digits_value Pos.of_uint_acc];
    [reflexivity | rewrite <- IHd; f_equal ..].
  all: match goal with
       | |- _ + digit_val ?c = _ =>
           let n := eval vm_compute in (Z.of_N (N_of_ascii c) - 48) in
           rewrite (digit_val_char c n) by reflexivity
       end; lia.
Qed.

Lemma digits_value_of_uint (d : uint) :
  digits_value 0 (NilEmpty.string_of_uint d) = Z.of_N (Pos.of_uint d).
Proof.
  induction d;
    cbn [NilEmpty.string_of_uint digits_value Pos.of_uint Z.of_N];
    [reflexivity | ..].
  1: exact IHd.
  all: rewrite <- digits_value_acc; f_equal.
Qed.

Lemma string_of_uint_pos (p : positive) :
  exists c s, NilEmpty.string_of_uint (Pos.to_uint p) = String c s.
Proof.
  pose proof (DecimalPos.Unsigned.to_uint_nonnil p) as H.
  destruct (Pos.to_uint p); simpl; eauto; congruence.
Qed.

Lemma digits_value_pos (p : positive) :
  digits_value 0 (NilEmpty.string_of_uint (Pos.to_uint p)) = Z.pos p.
Proof.
  rewrite digits_value_of_uint, DecimalPos.Unsigned.of_to. reflexivity.
Qed.

Lemma str_of_int_pos (p : positive) :
  str_of_int (Z.pos p) = NilEmpty.string_of_uint (Pos.to_uint p).
Proof.
  unfold str_of_int; simpl.
  pose proof (DecimalPos.Unsigned.to_uint_nonnil p) as H.
  unfold NilZero.string_of_uint. destruct (Pos.to_uint p); congruence.
Qed.

Lemma str_of_int_neg (p : positive) :
  str_of_int (Z.neg p) = String "-" (NilEmpty.string_of_uint (Pos.to_uint p)).
Proof.
  unfold str_of_int; simpl.
  pose proof (DecimalPos.Unsigned.to_uint_nonnil p) as H.
  unfold NilZero.string_of_uint. destruct (Pos.to_uint p); congruence.
Qed.

(** ** Characters and digits *)

(** The first character of a text starts with the first byte of the
    text. *)
Lemma characters_head (c : ascii) (s : string) :
  exists rest gs, characters (String c s) = String c rest :: gs.
Proof.
  cbn [characters]. destruct (characters s) as [|g gs]; [eauto|].
  destruct (match s with String c' _ => is_continuation c' | EmptyString => false end);
    eauto.
Qed.

(** The characters of plain decimal text are its bytes. *)
Lemma is_digit_not_continuation (c : ascii) :
  is_digit c = true -> is_continuation c = false.
Proof.
  intros H. apply is_digit_In in H. simpl in H.
  repeat (destruct H as [<- | H]; [reflexivity|]). destruct H.
Qed.

Lemma characters_digits (s : string) :
  all_digits s = true ->
  characters s = map (fun c => String c EmptyString) (list_ascii_of_string s).
Proof.
  induction s as [|c s IH]; [reflexivity|].
  cbn [all_digits]. intros H. apply andb_prop in H. destruct H as [Hc Hs].
  cbn [characters list_ascii_of_string map]. rewrite (IH Hs).
  destruct s as [|c' s']; [reflexivity|].
  cbn [all_digits] in Hs. apply andb_prop in Hs. destruct Hs as [Hc' _].
  cbn [list_ascii_of_string map]. rewrite (is_digit_not_continuation c' Hc').
  reflexivity.
Qed.

Lemma decimal_value_digit (c : ascii) :
  is_digit c = true ->
  decimal_value (code_point (String c EmptyString)) = Some (digit_val c).
Proof.
  intros H. apply is_digit_In in H. simpl in H.
  repeat (destruct H as [<- | H]; [reflexivity|]). destruct H.
Qed.

Lemma decimal_values_digits (s : string) :
  all_digits s = true ->
  decimal_values (characters s) = Some (map digit_val (list_ascii_of_string s)).
Proof.
  intros H. rewrite (characters_digits s H).
  induction s as [|c s IH]; [reflexivity|].
  cbn [all_digits] in H. apply andb_prop in H. destruct H as [Hc Hs].
  cbn [list_ascii_of_string map decimal_values].
  rewrite (decimal_value_digit c Hc), (IH Hs). reflexivity.
Qed.

Lemma number_of_digits_value (s : string) (acc : Z) :
  fold_left (fun acc d => 10 * acc + d) (map digit_val (list_ascii_of_string s)) acc
  = digits_value acc s.
Proof.
  revert acc. induction s as [|c s IH]; intros acc; [reflexivity|].
  cbn [list_ascii_of_string map fold_left digits_value]. apply IH.
Qed.

Lemma length_list_ascii (s : string) :
  List.length (list_ascii_of_string s) = String.length s.
Proof.
  induction s as [|c s IH]; [reflexivity|]. simpl. now rewrite IH.
Qed.

Lemma isdigit_digits (c : ascii) (s : string) :
  all_digits (String c s) = true -> isdigit (String c s) = true.
Proof.
  intros H. unfold isdigit. rewrite (characters_digits _ H).
  cbn [list_ascii_of_string map].
  change (forallb (fun g => is_digit_point (code_point g))
            (map (fun c => String c EmptyString) (list_ascii_of_string (String c s)))
          = true).
  apply forallb_forall. intros g Hg. apply in_map_iff in Hg.
  destruct Hg as (x & <- & Hx).
  assert (Hd : is_digit x = true).
  { clear -H Hx. revert H Hx. generalize (String c s) as t.
    induction t as [|y t IH]; [intros _ []|].
    cbn [all_digits list_ascii_of_string]. intros H [<- | Hx];
      apply andb_prop in H; destruct H as [Hy Ht]; [exact Hy | exact (IH Ht Hx)]. }
  unfold is_digit_point. now rewrite (decimal_value_digit x Hd).
Qed.

(** [int] reads a run of plain digits as its value, within the digit
    limit. *)
Lemma int_of_digits_plain (c : ascii) (s : string) :
  all_digits (String c s) = true ->
  int_of_digits (String c s)
  = if Z.of_nat (String.length (String c s)) <=? int_max_str_digits
    then Ok (digits_value 0 (String c s))
    else Raise ValueError.
Proof.
  intros H. unfold int_of_digits. rewrite (decimal_values_digits _ H).
  cbn [list_ascii_of_string map].
  change (digit_val c :: map digit_val (list_ascii_of_string s))
    with (map digit_val (list_ascii_of_string (String c s))).
  unfold len. rewrite length_map, length_list_ascii.
  unfold number_of_digits. rewrite number_of_digits_value. reflexivity.
Qed.

Lemma isdigit_pos (p : positive) :
  isdigit (NilEmpty.string_of_uint (Pos.to_uint p)) = true.
Proof.
  destruct (string_of_uint_pos p) as (c & s & E).
  pose proof (all_digits_string_of_uint (Pos.to_uint p)) as H.
  rewrite E in *. exact (isdigit_digits c s H).
Qed.

(** A digit is no sign, and no continuation byte starts one. *)
Lemma digit_head (c : ascii) (rest : string) :
  is_digit_point (code_point (String c rest)) = true ->
  c <> "-"%char /\ c <> "+"%char /\ is_continuation c = false.
Proof.
  intros H. repeat split.
  - intros ->. destruct rest; discriminate H.
  - intros ->. destruct rest; discriminate H.
  - destruct (is_continuation c) eqn:Ec; [|reflexivity]. exfalso.
    unfold is_continuation in Ec. cbv zeta in Ec.
    apply andb_prop in Ec. destruct Ec as [E1 E2].
    unfold code_point in H. cbv zeta in H.
    replace (N_of_ascii c <? 128)%N with false in H
      by (symmetry; apply N.ltb_ge; apply N.leb_le in E1; exact E1).
    replace (192 <=? N_of_ascii c)%N with false in H
      by (symmetry; apply N.leb_gt; apply N.ltb_lt in E2; exact E2).
    replace (224 <=? N_of_ascii c)%N with false in H
      by (symmetry; apply N.leb_gt; apply N.ltb_lt in E2; lia).
    replace (240 <=? N_of_ascii c)%N with false in H
      by (symmetry; apply N.leb_gt; apply N.ltb_lt in E2; lia).
    discriminate H.
Qed.

Lemma isdigit_head (c : ascii) (s : string) :
  isdigit (String c s) = true -> c <> "-"%char /\ c <> "+"%char.
Proof.
  unfold isdigit. destruct (characters_head c s) as (rest & gs & ->).
  cbn [forallb]. intros H. apply andb_prop in H. destruct H as [H _].
  destruct (digit_head c rest H) as (H1 & H2 & _). split; assumption.
Qed.

Lemma isdigit_nonempty (s : string) : isdigit s = true -> s <> EmptyString.
Proof.
  intros H ->. discriminate H.
Qed.

(** On a run of digits [int] reads the digits. *)
Lemma int_of_str_digits (s : string) :
  isdigit s = true -> int_of_str s = int_of_digits s.
Proof.
  intros H. destruct s as [|c s']; [discriminate H|].
  destruct (isdigit_head c s' H) as [Hm Hp].
  unfold int_of_str.
  destruct c as [[] [] [] [] [] [] [] []]; try reflexivity; congruence.
Qed.

Lemma int_of_str_minus (s : string) :
  int_of_str (String "-" s) = rmap Z.opp (int_of_digits s).
Proof.
  reflexivity.
Qed.

(** The text of an integer passes the decoder's integer test, and [int]
    reads the integer back from it when its digits are within the limit. *)
Lemma str_of_int_looks_int (z : Z) :
  let s := str_of_int z in
  isdigit s || (startswith_minus s && isdigit (tail s)) = true.
Proof.
  destruct z as [|p|p]; cbv zeta.
  - reflexivity.
  - rewrite str_of_int_pos, isdigit_pos. reflexivity.
  - rewrite str_of_int_neg. simpl tail.
    unfold startswith_minus. rewrite isdigit_pos.
    apply orb_true_r.
Qed.

Lemma int_of_str_of_int (z : Z) :
  int_of_str (str_of_int z)
  = if int_digits z <=? int_max_str_digits then Ok z else Raise ValueError.
Proof.
  unfold int_digits.
  destruct z as [|p|p]; cbn [Z.abs].
  - reflexivity.
  - rewrite str_of_int_pos.
    rewrite int_of_str_digits by apply isdigit_pos.
    destruct (string_of_uint_pos p) as (c & s & E).
    pose proof (all_digits_string_of_uint (Pos.to_uint p)) as H.
    pose proof (digits_value_pos p) as V.
    rewrite E in *. rewrite (int_of_digits_plain c s H), V. reflexivity.
  - rewrite str_of_int_neg, int_of_str_minus, str_of_int_pos.
    destruct (string_of_uint_pos p) as (c & s & E).
    pose proof (all_digits_string_of_uint (Pos.to_uint p)) as H.
    pose proof (digits_value_pos p) as V.
    rewrite E in *. rewrite (int_of_digits_plain c s H), V.
    destruct (Z.of_nat (String.length (String c s)) <=? int_max_str_digits);
      reflexivity.
Qed.

(** [str] and [int] are inverse on the integers within the limit. *)
Lemma int_of_py_str_int (z : Z) (t : string) :
  py_str_int z = Ok t ->
  t = str_of_int z /\ int_of_str t = Ok z
  /\ (int_digits z <=? int_max_str_digits) = true.
Proof.
  unfold py_str_int.
  destruct (int_digits z <=? int_max_str_digits) eqn:E; [|discriminate].
  intros [= <-]. rewrite int_of_str_of_int, E. auto.
Qed.

(** ** Comprehensions *)

Lemma list_comp_Ok_iff {A B} (f : A -> result B) (l : list A) (r : list B) :
  list_comp f l = Ok r <-> Forall2 (fun x y => f x = Ok y) l r.
Proof.
  revert r; induction l as [|x xs IH]; intros r; simpl.
  - split.
    + intros [= <-]. constructor.
    + intros H; inversion H; reflexivity.
  - destruct (f x) as [y|e] eqn:Ex; simpl.
    + destruct (list_comp f xs) as [ys|e] eqn:Exs; simpl.
      * split.
        -- intros [= <-]. constructor; [exact Ex | apply IH; reflexivity].
        -- intros H; inversion H as [|? y' ? ys' Hy Hys]; subst.
           apply IH in Hys. congruence.
      * split; [discriminate|].
        intros H; inversion H as [|? y' ? ys' Hy Hys]; subst.
        apply IH in Hys. discriminate.
    + split; [discriminate|].
      intros H; inversion H; subst; congruence.
Qed.

Lemma list_comp_id {A B} (f : A -> result B) (g : A -> B) (l : list A) :
  Forall (fun x => f x = Ok (g x)) l -> list_comp f l = Ok (map g l).
Proof.
  induction 1 as [|x xs Hx _ IH]; simpl.
  - reflexivity.
  - rewrite Hx; simpl. rewrite IH. reflexivity.
Qed.

Lemma dict_comp_Ok_iff {A B} (f : A -> result B) (d : list (string * A))
    (r : list (string * B)) :
  dict_comp f d = Ok r
  <-> Forall2 (fun kv kv' => fst kv' = fst kv /\ f (snd kv) = Ok (snd kv')) d r.
Proof.
  unfold dict_comp. rewrite list_comp_Ok_iff.
  split; intros H; induction H as [|[k x] [k' y] d' r' H1 _ IH];
    constructor; auto; simpl in *.
  - destruct (f x); simpl in H1; [injection H1 as <- <-; auto | discriminate].
  - destruct H1 as [-> ->]. reflexivity.
Qed.

Lemma dict_comp_keys {A B} (f : A -> result B) (d : list (string * A))
    (r : list (string * B)) :
  dict_comp f d = Ok r -> map fst r = map fst d.
Proof.
  rewrite dict_comp_Ok_iff.
  induction 1 as [|kv kv' d' r' [Hk _] _ IH]; simpl; congruence.
Qed.

Lemma list_comp_raises {A B} (f : A -> result B) (l : list A) (e : exn) :
  list_comp f l = Raise e -> exists x, In x l /\ f x = Raise e.
Proof.
  induction l as [|x xs IH]; cbn [list_comp]; [discriminate|].
  destruct (f x) as [y|e'] eqn:Ex; cbn [rbind].
  - destruct (list_comp f xs) as [ys|e'] eqn:Exs; cbn [rbind]; [discriminate|].
    intros [= ->]. destruct (IH eq_refl) as (x' & Hx' & Hf).
    exists x'. split; [right; exact Hx' | exact Hf].
  - intros [= ->]. exists x. split; [left; reflexivity | exact Ex].
Qed.

(** ** The decoder, in the source's form *)

Lemma from_ddb_attr_str (s : string) : _from_ddb_attr (VStr s) = Ok (VStr s).
Proof. reflexivity. Qed.

Lemma from_ddb_attr_not_single (attr : value) :
  (forall t v, attr <> VDict [(t, v)]) -> _from_ddb_attr attr = Ok attr.
Proof.
  intros H. destruct attr as [| | | | | |d|]; try reflexivity.
  destruct d as [|[t v] [|kv d']]; try reflexivity.
  exfalso. apply (H t v). reflexivity.
Qed.

Lemma list_comp_texts (l : list value) :
  Forall (fun x => isinstance_str x = true) l ->
  list_comp _from_ddb_attr l = Ok l.
Proof.
  intros H. rewrite <- (map_id l) at 2. apply list_comp_id.
  eapply Forall_impl; [|exact H].
  intros [] Hx; try discriminate. reflexivity.
Qed.

Lemma chars_texts (s : string) :
  Forall (fun x => isinstance_str x = true) (chars s).
Proof.
  unfold chars. apply Forall_forall. intros x Hx.
  apply in_map_iff in Hx. destruct Hx as (g & <- & _). reflexivity.
Qed.

Lemma keys_texts (d : list (string * value)) :
  Forall (fun x => isinstance_str x = true) (map (fun kv => VStr (fst kv)) d).
Proof.
  induction d; simpl; constructor; auto.
Qed.

(** [_from_ddb_attr] on a single-key dict, branch by branch as the source
    writes it: the [L] branch is the comprehension over whatever iterating
    the payload yields, the [M] branch the comprehension over its items. *)
Lemma from_ddb_attr_single (t : string) (v : value) :
  _from_ddb_attr (VDict [(t, v)]) =
    if String.eqb t "S" then Ok v
    else if String.eqb t "N" then from_number v
    else if String.eqb t "BOOL" then Ok (VBool (py_bool v))
    else if String.eqb t "NULL" then Ok VNone
    else if String.eqb t "L" then
      rbind (iterate v) (fun xs => rmap VList (list_comp _from_ddb_attr xs))
    else if String.eqb t "M" then
      rbind (items v) (fun d => rmap VDict (dict_comp _from_ddb_attr d))
    else Ok v.
Proof.
  cbn [_from_ddb_attr].
  repeat match goal with |- context [String.eqb t ?k] =>
    destruct (String.eqb t k); [try reflexivity|] end; try reflexivity.
  - destruct v; try reflexivity; cbn [iterate rbind].
    + rewrite list_comp_texts by apply chars_texts. reflexivity.
    + f_equal. induction l as [|x xs IH]; cbn [list_comp]; [reflexivity|].
      destruct (_from_ddb_attr x); cbn [rbind]; [|reflexivity].
      rewrite IH. reflexivity.
    + rewrite list_comp_texts by apply keys_texts. reflexivity.
  - destruct v; try reflexivity; cbn [items rbind].
    f_equal. unfold dict_comp.
    induction d as [|x xs IH]; cbn [list_comp]; [reflexivity|].
    destruct (rmap _ (_from_ddb_attr (snd x))); cbn [rbind]; [|reflexivity].
    rewrite IH. reflexivity.
Qed.

(** ** The encoder, constructor by constructor *)

(** [conv] as the source writes it: the [L] branch is the comprehension
    over the elements, the [M] branch the comprehension over the items. *)
Lemma conv_unfold (v : value) :
  conv v =
    match v with
    | VNone => Ok (VDict [("NULL", VBool true)])
    | VBool b => Ok (VDict [("BOOL", VBool b)])
    | VInt z => rmap (fun t => VDict [("N", VStr t)]) (py_str_int z)
    | VFloat f => Ok (VDict [("N", VStr (float_str f))])
    | VStr s => Ok (VDict [("S", VStr s)])
    | VList l => rmap (fun ws => VDict [("L", VList ws)]) (list_comp conv l)
    | VDict d => rmap (fun ws => VDict [("M", VDict ws)]) (to_ddb_item d)
    | VOther o => rmap (fun t => VDict [("S", VStr t)]) (other_str o)
    end.
Proof.
  destruct v as [|b|z|f|s|l|d|o]; try reflexivity.
  - cbn [conv is_None isinstance_bool isinstance_int isinstance_float
         isinstance_str orb andb negb].
    f_equal. induction l as [|x xs IH]; cbn [list_comp]; [reflexivity|].
    destruct (conv x); cbn [rbind]; [|reflexivity]. rewrite IH. reflexivity.
  - cbn [conv is_None isinstance_bool isinstance_int isinstance_float
         isinstance_str orb andb negb].
    f_equal. unfold to_ddb_item, dict_comp.
    induction d as [|x xs IH]; cbn [list_comp]; [reflexivity|].
    destruct (rmap _ (conv (snd x))); cbn [rbind]; [|reflexivity].
    rewrite IH. reflexivity.
Qed.





Lemma conv_text (s : string) : conv (VStr s) = Ok (VDict [("S", VStr s)]).
Proof. reflexivity. Qed.

Lemma conv_list (l : list value) :
  conv (VList l) = rmap (fun ws => VDict [("L", VList ws)]) (list_comp conv l).
Proof. apply (conv_unfold (VList l)). Qed.

Lemma conv_dict (d : list (string * value)) :
  conv (VDict d) = rmap (fun ws => VDict [("M", VDict ws)]) (to_ddb_item d).
Proof. apply (conv_unfold (VDict d)). Qed.

Lemma conv_other (o : other) :
  conv (VOther o) = rmap (fun t => VDict [("S", VStr t)]) (other_str o).
Proof. reflexivity. Qed.

(** Every encoded value is a single-key dict under a recognized tag. *)
Lemma conv_tagged (v w : value) :
  conv v = Ok w -> exists t x, w = VDict [(t, x)] /\ In t recognized_tags.
Proof.
  rewrite conv_unfold.
  destruct v as [|b|z|f|s|l|d|o]; cbn [rmap rbind].
  - intros [= <-]. exists "NULL", (VBool true). split; [reflexivity | simpl; auto 10].
  - intros [= <-]. exists "BOOL", (VBool b). split; [reflexivity | simpl; auto 10].
  - destruct (py_str_int z) as [t|e]; cbn [rmap rbind]; [|discriminate].
    intros [= <-]. exists "N", (VStr t). split; [reflexivity | simpl; auto 10].
  - intros [= <-]. exists "N", (VStr (float_str f)). split; [reflexivity | simpl; auto 10].
  - intros [= <-]. exists "S", (VStr s). split; [reflexivity | simpl; auto 10].
  - destruct (list_comp conv l) as [ws|e]; cbn [rmap rbind]; [|discriminate].
    intros [= <-]. exists "L", (VList ws). split; [reflexivity | simpl; auto 10].
  - destruct (to_ddb_item d) as [ws|e]; cbn [rmap rbind]; [|discriminate].
    intros [= <-]. exists "M", (VDict ws). split; [reflexivity | simpl; auto 10].
  - destruct (other_str o) as [t|e]; cbn [rmap rbind]; [|discriminate].
    intros [= <-]. exists "S", (VStr t). split; [reflexivity | simpl; auto 10].
Qed.

Lemma conv_looks_tagged (v w : value) : conv v = Ok w -> looks_tagged w = true.
Proof.
  intros H. destruct (conv_tagged v w H) as (t & x & -> & Ht).
  cbn [looks_tagged]. simpl in Ht.
  repeat (destruct Ht as [<- | Ht]; [reflexivity|]). destruct Ht.
Qed.

(** ** When the encoder returns *)

Lemma list_comp_returns {A B} (f : A -> result B) (l : list A) :
  (exists r, list_comp f l = Ok r) <-> Forall (fun x => exists y, f x = Ok y) l.
Proof.
  split.
  - intros [r Hr]. apply list_comp_Ok_iff in Hr.
    induction Hr; constructor; eauto.
  - induction 1 as [|x xs [y Hy] _ [ys Hys]]; simpl.
    + eauto.
    + rewrite Hy, Hys. simpl. eauto.
Qed.

Lemma dict_comp_returns {A B} (f : A -> result B) (d : list (string * A)) :
  (exists r, dict_comp f d = Ok r)
  <-> Forall (fun kv => exists y, f (snd kv) = Ok y) d.
Proof.
  unfold dict_comp. rewrite list_comp_returns.
  split; apply Forall_impl; intros kv [y Hy].
  - destruct (f (snd kv)); [eauto | discriminate].
  - rewrite Hy. simpl. eauto.
Qed.

Lemma rmap_returns {A B} (g : A -> B) (m : result A) :
  (exists r, rmap g m = Ok r) <-> (exists a, m = Ok a).
Proof.
  destruct m; simpl; split; intros [x H]; eauto; discriminate.
Qed.




(** ** Round trip *)

Lemma generic_list (P : float -> Prop) (l : list value) :
  generic P (VList l) <-> Forall (generic P) l.
Proof.
  induction l as [|x xs IH]; cbn [generic] in *.
  - split; constructor.
  - split.
    + intros [Hx Hxs]. constructor; [exact Hx | apply IH, Hxs].
    + intros H; inversion H; subst. split; [assumption | apply IH; assumption].
Qed.

Lemma generic_dict (P : float -> Prop) (d : list (string * value)) :
  generic P (VDict d) <-> Forall (fun kv => generic P (snd kv)) d.
Proof.
  induction d as [|x xs IH]; cbn [generic] in *.
  - split; constructor.
  - split.
    + intros [Hx Hxs]. constructor; [exact Hx | apply IH, Hxs].
    + intros H; inversion H; subst. split; [assumption | apply IH; assumption].
Qed.





Lemma from_number_int_text (z : Z) (t : string) :
  py_str_int z = Ok t -> from_number (VStr t) = Ok (VInt z).
Proof.
  intros H. destruct (int_of_py_str_int z t H) as (-> & Hint & _).
  unfold from_number.
  change (isdigit (str_of_int z)
          || (startswith_minus (str_of_int z) && isdigit (tail (str_of_int z))))
    with (looks_int (str_of_int z)).
  unfold looks_int. rewrite (str_of_int_looks_int z).
  rewrite Hint. reflexivity.
Qed.

Lemma from_number_float_text (f : float) :
  reads_back f -> from_number (VStr (float_str f)) = Ok (VFloat f).
Proof.
  intros [Hread Hint]. unfold from_number.
  change (isdigit (float_str f)
          || (startswith_minus (float_str f) && isdigit (tail (float_str f))))
    with (looks_int (float_str f)).
  rewrite Hint. cbn [py_float]. rewrite Hread. reflexivity.
Qed.

Lemma list_comp_compose {A B C} (f : A -> result B) (g : B -> result C)
    (h : A -> C) (l : list A) (l' : list B) :
  list_comp f l = Ok l' ->
  Forall (fun x => forall y, f x = Ok y -> g y = Ok (h x)) l ->
  list_comp g l' = Ok (map h l).
Proof.
  rewrite list_comp_Ok_iff. intros H.
  induction H as [|x y xs ys Hxy _ IH]; intros F; [reflexivity|].
  inversion F as [|? ? Hx Hxs]; subst.
  cbn [list_comp map]. rewrite (Hx y Hxy), (IH Hxs). reflexivity.
Qed.

Lemma dict_comp_to_ddb_item (d w : record) :
  to_ddb_item d = Ok w ->
  Forall (fun kv => forall y, conv (snd kv) = Ok y -> _from_ddb_attr y = Ok (snd kv)) d ->
  dict_comp _from_ddb_attr w = Ok d.
Proof.
  unfold to_ddb_item. intros H. apply dict_comp_Ok_iff in H.
  induction H as [|kv kv' xs ys [Hk Hy] _ IH]; intros F; [reflexivity|].
  inversion F as [|? ? Hx Hxs]; subst.
  destruct kv as [k v], kv' as [k' y]. cbn [fst snd] in *. subst k'.
  unfold dict_comp in *. cbn [list_comp fst snd].
  rewrite (Hx y Hy). cbn [rmap rbind]. rewrite (IH Hxs). reflexivity.
Qed.

(** Decoding an encoded Generic Value gives the value back. *)
Lemma from_ddb_attr_conv (v w : value) :
  generic reads_back v -> conv v = Ok w -> _from_ddb_attr w = Ok v.
Proof.
  revert w.
  induction v as [|b|z|f|s|l IH|d IH|o] using value_rect'; intros w G;
    rewrite conv_unfold.
  - intros [= <-]. reflexivity.
  - intros [= <-]. destruct b; reflexivity.
  - destruct (py_str_int z) as [t|e] eqn:Et; cbn [rmap rbind]; [|discriminate].
    intros [= <-]. rewrite from_ddb_attr_single. cbn [String.eqb Ascii.eqb Bool.eqb].
    apply (from_number_int_text z t Et).
  - intros [= <-]. rewrite from_ddb_attr_single. cbn [String.eqb Ascii.eqb Bool.eqb].
    apply from_number_float_text, G.
  - intros [= <-]. reflexivity.
  - destruct (list_comp conv l) as [ws|e] eqn:El; cbn [rmap rbind]; [|discriminate].
    intros [= <-]. rewrite from_ddb_attr_single. cbn [String.eqb Ascii.eqb Bool.eqb].
    cbn [iterate rbind].
    apply generic_list in G.
    rewrite (list_comp_compose conv _from_ddb_attr (fun x => x) l ws El).
    + rewrite map_id. reflexivity.
    + clear El. induction IH as [|x xs Hx _ IHxs]; [constructor|].
      inversion G; subst. constructor; auto.
  - destruct (to_ddb_item d) as [ws|e] eqn:Ed; cbn [rmap rbind]; [|discriminate].
    intros [= <-]. rewrite from_ddb_attr_single. cbn [String.eqb Ascii.eqb Bool.eqb].
    cbn [items rbind].
    apply generic_dict in G.
    rewrite (dict_comp_to_ddb_item d ws Ed); [reflexivity|].
    clear Ed. induction IH as [|x xs Hx _ IHxs]; [constructor|].
    inversion G; subst. constructor; auto.
  - destruct G.
Qed.

Lemma normalize_record_encoded (d w r : record) :
  to_ddb_item d = Ok w ->
  dict_comp _from_ddb_attr w = Ok r ->
  normalize_record w = Ok r.
Proof.
  intros Ew Hr. unfold normalize_record.
  destruct (existsb looks_tagged (map snd w)) eqn:E; [exact Hr|].
  destruct w as [|[k y] w'].
  - apply dict_comp_Ok_iff in Hr. inversion Hr. reflexivity.
  - exfalso. unfold to_ddb_item in Ew. apply dict_comp_Ok_iff in Ew.
    inversion Ew as [|[k0 v] ? ? ? [_ Hv] _]; subst. cbn [snd] in Hv.
    cbn [map snd existsb] in E. rewrite (conv_looks_tagged v y Hv) in E.
    discriminate E.
Qed.


(** ** Tag sniffing *)

Lemma str_in_In (s : string) (l : list string) : str_in s l = true <-> In s l.
Proof.
  unfold str_in. rewrite existsb_exists. split.
  - intros (x & Hx & E). apply String.eqb_eq in E. subst. exact Hx.
  - intros H. exists s. split; [exact H | apply String.eqb_refl].
Qed.

Lemma len_one {A} (l : list A) : (len l =? 1) = true -> exists x, l = [x].
Proof.
  unfold len. intros H. apply Z.eqb_eq in H.
  destruct l as [|x [|y l']]; simpl in H; try lia. eauto.
Qed.

(** The source's test recognizes exactly the single-key wrappers with a
    recognized tag. *)
Lemma looks_tagged_spec (v : value) : looks_tagged v = true <-> tag_wrapper v.
Proof.
  unfold tag_wrapper. split.
  - destruct v as [| | | | | |d|]; try discriminate. cbn [looks_tagged].
    intros H. apply andb_prop in H. destruct H as [H1 H2].
    destruct (len_one d H1) as [[t x] ->].
    exists t, x. split; [reflexivity | apply str_in_In, H2].
  - intros (t & x & -> & Ht). cbn [looks_tagged].
    apply str_in_In in Ht. rewrite Ht. reflexivity.
Qed.

Lemma existsb_looks_tagged (obj : record) :
  existsb looks_tagged (map snd obj) = true
  <-> exists k v, In (k, v) obj /\ tag_wrapper v.
Proof.
  rewrite existsb_exists. split.
  - intros (v & Hin & Hv). apply in_map_iff in Hin.
    destruct Hin as ([k v'] & <- & Hin).
    exists k, v'. split; [exact Hin | apply looks_tagged_spec, Hv].
  - intros (k & v & Hin & Hv). exists v. split.
    + apply in_map_iff. exists (k, v). auto.
    + apply looks_tagged_spec, Hv.
Qed.

(** C4. Tag-sniffing dispatch.  For every string-keyed mapping given to
    [normalize_record]: if at least one top-level attribute value is a
    single-key mapping whose sole key is one of S, N, BOOL, L, M, NULL, the
    result is the comprehension that unwraps every attribute with
    [_from_ddb_attr] (so it returns [r] exactly when [r] has the same keys
    in the same order and each value is the decoding of the input's);
    otherwise the mapping is returned unchanged, so that on an already
    plain mapping the function is the identity. *)
Theorem normalize_record_dispatch (obj : record) :
  ((exists k v, In (k, v) obj /\ tag_wrapper v) ->
     normalize_record obj = dict_comp _from_ddb_attr obj /\
     forall r, normalize_record obj = Ok r <->
       Forall2 (fun kv kv' => fst kv' = fst kv
                              /\ _from_ddb_attr (snd kv) = Ok (snd kv')) obj r)
  /\
  ((forall k v, In (k, v) obj -> ~ tag_wrapper v) ->
     normalize_record obj = Ok obj).
Proof.
  split.
  - intros H. apply existsb_looks_tagged in H.
    assert (E : normalize_record obj = dict_comp _from_ddb_attr obj).
    { unfold normalize_record. rewrite H. reflexivity. }
    split; [exact E|].
    intros r. rewrite E. apply dict_comp_Ok_iff.
  - intros H. unfold normalize_record.
    destruct (existsb looks_tagged (map snd obj)) eqn:E; [|reflexivity].
    apply existsb_looks_tagged in E. destruct E as (k & v & Hin & Hv).
    destruct (H k v Hin Hv).
Qed.

(** ** Wrappers the decoder does not recognize *)

Lemma from_number_returns (v : value) : exists r, from_number v = Ok r.
Proof.
  unfold from_number, try_except.
  match goal with |- exists r, match ?b with _ => _ end = _ =>
    destruct b as [a|e] end; eauto.
Qed.


(** ** The Number tag *)

(** The test [isdigit] is the digit run of the specification. *)
Lemma digit_run_isdigit (s : string) : digit_run s <-> isdigit s = true.
Proof.
  unfold digit_run, isdigit, digit. split.
  - intros (g & gs & -> & F). apply forallb_forall.
    rewrite Forall_forall in F. exact F.
  - destruct (characters s) as [|g gs]; [discriminate|].
    intros H. exists g, gs. split; [reflexivity|].
    apply Forall_forall. apply forallb_forall. exact H.
Qed.

Lemma integer_text_looks_int (t : string) : integer_text t <-> looks_int t = true.
Proof.
  unfold integer_text, looks_int. rewrite orb_true_iff, andb_true_iff.
  rewrite <- digit_run_isdigit. split.
  - intros [H|(ds & -> & H)]; [left; exact H|].
    right. split; [reflexivity | apply digit_run_isdigit, H].
  - intros [H|[Hm H]]; [left; exact H|].
    right. destruct t as [|c t']; [discriminate|].
    exists t'. split; [|apply digit_run_isdigit, H].
    unfold startswith_minus in Hm.
    destruct c as [[] [] [] [] [] [] [] []]; try discriminate Hm. reflexivity.
Qed.

(** Plain digits are digits. *)
Lemma plain_digit_run_all_digits (s : string) :
  plain_digit_run s <-> exists c s', s = String c s' /\ all_digits s = true.
Proof.
  split.
  - induction 1 as [c Hc|c s Hc Hs IH].
    + apply is_digit_In in Hc. exists c, EmptyString.
      cbn [all_digits]. rewrite Hc. auto.
    + apply is_digit_In in Hc. destruct IH as (c' & s' & -> & IH).
      exists c, (String c' s'). split; [reflexivity|].
      change (is_digit c && all_digits (String c' s') = true).
      rewrite Hc, IH. reflexivity.
  - intros (c & s' & -> & H). revert c H.
    induction s' as [|c' s' IH]; intros c H;
      cbn [all_digits] in H; apply andb_prop in H; destruct H as [Hc Hs];
      apply is_digit_In in Hc.
    + constructor; exact Hc.
    + apply plain_digit_run_more; [exact Hc | apply IH, Hs].
Qed.

Lemma plain_digit_run_digit_run (s : string) : plain_digit_run s -> digit_run s.
Proof.
  intros H. apply plain_digit_run_all_digits in H.
  destruct H as (c & s' & -> & H). apply digit_run_isdigit, isdigit_digits, H.
Qed.

Lemma decimal_text_integer_text (t : string) : decimal_text t -> integer_text t.
Proof.
  intros [H|(ds & -> & H)]; [left | right; exists ds; split; [reflexivity|]];
    apply plain_digit_run_digit_run, H.
Qed.

Lemma is_digit_not_sign (c : ascii) :
  is_digit c = true -> c <> "-"%char /\ c <> "+"%char.
Proof.
  intros H; split; intros ->; discriminate H.
Qed.

(** The library's reading of decimal text agrees with [digits_value]. *)
Lemma uint_of_string_digits (s : string) :
  all_digits s = true ->
  exists d, NilEmpty.uint_of_string s = Some d /\ digits_value 0 s = Z.of_uint d.
Proof.
  intros H.
  assert (E : exists d, NilEmpty.uint_of_string s = Some d).
  { induction s as [|c s IH]; [simpl; eauto|].
    cbn [all_digits] in H. apply andb_prop in H. destruct H as [Hc Hs].
    destruct (IH Hs) as [d Hd]. cbn [NilEmpty.uint_of_string]. rewrite Hd.
    apply is_digit_In in Hc. cbn [In] in Hc.
    repeat (destruct Hc as [<-|Hc]; [simpl; eauto|]). destruct Hc. }
  destruct E as [d Hd]. exists d. split; [exact Hd|].
  apply NilEmpty.sus in Hd. rewrite <- Hd. apply digits_value_of_uint.
Qed.

Lemma int_of_string_digits (c : ascii) (s : string) :
  all_digits (String c s) = true ->
  exists d, NilZero.int_of_string (String c s) = Some (Pos d)
            /\ digits_value 0 (String c s) = Z.of_uint d.
Proof.
  intros H.
  destruct (uint_of_string_digits (String c s)) as (d & Hd & Hv); [exact H|].
  exists d. split; [|exact Hv].
  cbn [NilZero.int_of_string NilZero.uint_of_string]. rewrite Hd.
  cbn [all_digits] in H. apply andb_prop in H. destruct H as [Hc _].
  destruct (is_digit_not_sign c Hc) as [Hm _].
  apply Ascii.eqb_neq in Hm. rewrite Hm. reflexivity.
Qed.

Lemma int_of_string_minus_digits (c : ascii) (s : string) :
  all_digits (String c s) = true ->
  exists d, NilZero.int_of_string (String "-" (String c s)) = Some (Neg d)
            /\ digits_value 0 (String c s) = Z.of_uint d.
Proof.
  intros H.
  destruct (uint_of_string_digits (String c s)) as (d & Hd & Hv); [exact H|].
  exists d. split; [|exact Hv].
  cbn [NilZero.int_of_string NilZero.uint_of_string Ascii.eqb Bool.eqb].
  rewrite Hd. reflexivity.
Qed.

Lemma from_number_text (t : string) :
  from_number (VStr t) =
    if looks_int t then try_except (rmap VInt (int_of_str t)) (Ok (VStr t))
    else match float_of_str t with
         | Some f => Ok (VFloat f)
         | None => Ok (VStr t)
         end.
Proof.
  unfold from_number, looks_int.
  destruct (isdigit t || (startswith_minus t && isdigit (tail t))); [reflexivity|].
  cbn [py_float]. destruct (float_of_str t); reflexivity.
Qed.

(** C6. Number-tag decode rule.  For every wrapper [{"N": t}] with a text
    payload [t]: when [t] is an optional leading minus followed only by
    digits, the decoder returns the integer that [int] reads from [t],
    and the text [t] itself when [int] raises (a digit that is no decimal
    digit, or more than 4300 digits); on decimal text, of the digits [0]
    to [9], that integer is the one the text denotes in decimal;
    otherwise the decoder returns the float the interpreter reads from
    [t], and the text [t] itself when the interpreter reads none; it
    returns in every case. *)
Theorem number_tag_decode (t : string) :
  (integer_text t ->
     _from_ddb_attr (VDict [("N", VStr t)])
     = match int_of_str t with
       | Ok z => Ok (VInt z)
       | Raise _ => Ok (VStr t)
       end)
  /\
  (decimal_text t ->
     exists i, NilZero.int_of_string t = Some i
               /\ _from_ddb_attr (VDict [("N", VStr t)])
                  = if Z.of_nat (String.length (digits_of t)) <=? int_max_str_digits
                    then Ok (VInt (Z.of_int i))
                    else Ok (VStr t))
  /\
  (~ integer_text t ->
     forall f, float_of_str t = Some f ->
               _from_ddb_attr (VDict [("N", VStr t)]) = Ok (VFloat f))
  /\
  (~ integer_text t ->
     float_of_str t = None ->
     _from_ddb_attr (VDict [("N", VStr t)]) = Ok (VStr t))
  /\
  (exists r, _from_ddb_attr (VDict [("N", VStr t)]) = Ok r).
Proof.
  rewrite from_ddb_attr_single. cbn [String.eqb Ascii.eqb Bool.eqb].
  rewrite from_number_text.
  split; [|split; [|split; [|split]]].
  - intros H. apply integer_text_looks_int in H. rewrite H.
    destruct (int_of_str t); reflexivity.
  - intros H. pose proof (decimal_text_integer_text t H) as L.
    apply integer_text_looks_int in L. rewrite L.
    destruct H as [H|(ds & -> & H)];
      apply plain_digit_run_all_digits in H; destruct H as (c & s' & -> & H).
    + destruct (int_of_string_digits c s' H) as (d & Hd & Hv).
      exists (Pos d). split; [exact Hd|].
      rewrite int_of_str_digits by (apply isdigit_digits, H).
      rewrite (int_of_digits_plain c s' H).
      assert (E : digits_of (String c s') = String c s').
      { cbn [all_digits] in H. apply andb_prop in H. destruct H as [Hc _].
        destruct (is_digit_not_sign c Hc) as [Hm _]. unfold digits_of.
        destruct c as [[] [] [] [] [] [] [] []]; try reflexivity; congruence. }
      rewrite E.
      destruct (Z.of_nat (String.length (String c s')) <=? int_max_str_digits);
        [|reflexivity].
      cbn [rmap rbind try_except Z.of_int]. rewrite Hv. reflexivity.
    + destruct (int_of_string_minus_digits c s' H) as (d & Hd & Hv).
      exists (Neg d). split; [exact Hd|].
      rewrite int_of_str_minus, (int_of_digits_plain c s' H).
      cbn [digits_of].
      destruct (Z.of_nat (String.length (String c s')) <=? int_max_str_digits);
        [|reflexivity].
      cbn [rmap rbind try_except Z.of_int]. rewrite Hv. reflexivity.
  - intros H f Hf. destruct (looks_int t) eqn:L.
    + destruct H. apply integer_text_looks_int, L.
    + rewrite Hf. reflexivity.
  - intros H Hf. destruct (looks_int t) eqn:L.
    + destruct H. apply integer_text_looks_int, L.
    + rewrite Hf. reflexivity.
  - destruct (looks_int t).
    + destruct (int_of_str t); cbn; eauto.
    + destruct (float_of_str t); eauto.
Qed.

(** ** Encode mapping rules *)


(** ** When the decoder returns *)





(** ** The effect monad *)

Lemma bind_lift_Ok {A B} (a : A) (k : A -> M B) (s : backend) :
  bind (lift (Ok a)) k s = k a s.
Proof.
  unfold bind, lift. destruct (k a s) as [[r s2] t2]. reflexivity.
Qed.

Lemma bind_lift_Raise {A B} (e : exn) (k : A -> M B) (s : backend) :
  bind (lift (Raise e)) k s = (Raise e, s, []).
Proof. reflexivity. Qed.

(** ** Chunking *)

Lemma firstn_past {A} (l : list A) (a : nat) :
  firstn (Nat.min a (List.length l)) l = firstn a l.
Proof.
  destruct (Nat.le_ge_cases a (List.length l)) as [H|H].
  - rewrite Nat.min_l by exact H. reflexivity.
  - rewrite Nat.min_r by exact H.
    rewrite !firstn_all2; auto.
Qed.

(** A slice that starts at a non-negative index and has a non-negative
    width is the window of that width taken after dropping the start. *)
Lemma slice_window {A} (l : list A) (i w : Z) :
  0 <= i -> 0 <= w ->
  slice l i (i + w) = firstn (Z.to_nat w) (skipn (Z.to_nat i) l).
Proof.
  intros Hi Hw. unfold slice, clamp, len.
  destruct (Z.ltb_spec i 0) as [?|_]; [lia|].
  destruct (Z.ltb_spec (i + w) 0) as [?|_]; [lia|].
  destruct (Z.le_gt_cases i (Z.of_nat (List.length l))) as [H|H].
  - rewrite (Z.min_l i) by exact H.
    rewrite <- (firstn_past (skipn (Z.to_nat i) l) (Z.to_nat w)).
    f_equal. rewrite length_skipn. lia.
  - rewrite !skipn_all2 by lia. rewrite !firstn_nil. reflexivity.
Qed.

(** The number of chunks, as [range] counts it. *)
Lemma range_count (n c : Z) :
  1 <= c -> 0 <= n ->
  (if 0 <? c then (if 0 <? n then (n - 0 - 1) / c + 1 else 0)
   else (if n <? 0 then (0 - n - 1) / (- c) + 1 else 0))
  = (n + c - 1) / c.
Proof.
  intros Hc Hn.
  destruct (Z.ltb_spec 0 c) as [_|?]; [|lia].
  replace (n + c - 1) with (n - 1 + 1 * c) by lia.
  rewrite Z.div_add by lia.
  destruct (Z.ltb_spec 0 n) as [H|H].
  - f_equal. f_equal. lia.
  - assert (n = 0) by lia. subst n.
    assert ((0 - 1) / c = -1); [|lia].
    symmetry. apply (Z.div_unique_pos (0 - 1) c (-1) (c - 1)); lia.
Qed.

(** The chunks are the successive windows of width [batch_size]. *)
Lemma chunks_of_windows (records : list record) (c : Z) :
  1 <= c ->
  chunks_of records c =
    Ok (map (fun k => firstn (Z.to_nat c) (skipn (k * Z.to_nat c) records))
            (seq 0 (Z.to_nat ((len records + c - 1) / c)))).
Proof.
  intros Hc. unfold chunks_of, range3.
  destruct (Z.eqb_spec c 0) as [?|_]; [lia|].
  rewrite range_count by (unfold len; lia).
  cbn [rmap rbind]. f_equal. rewrite map_map.
  apply map_ext. intros k.
  rewrite slice_window by lia. f_equal. f_equal. lia.
Qed.

Lemma concat_windows {A} (c : nat) (n : nat) (l : list A) :
  (List.length l <= n * c)%nat ->
  List.concat (map (fun k => firstn c (skipn (k * c) l)) (seq 0 n)) = l.
Proof.
  revert l; induction n as [|n IH]; intros l H.
  - destruct l; [reflexivity | simpl in H; lia].
  - cbn [seq map List.concat]. rewrite <- seq_shift, map_map.
    cbn [Nat.mul skipn].
    transitivity (firstn c l ++ skipn c l)%list; [|apply firstn_skipn].
    f_equal.
    rewrite <- (IH (skipn c l)) at 1 by (rewrite length_skipn; lia).
    f_equal. apply map_ext. intros k.
    rewrite skipn_skipn. f_equal. f_equal. lia.
Qed.

Lemma ceil_bounds (n c : Z) :
  1 <= c -> 0 <= n ->
  ((n + c - 1) / c - 1) * c < n <= (n + c - 1) / c * c.
Proof.
  intros Hc Hn.
  pose proof (Z.div_mod (n + c - 1) c ltac:(lia)) as E.
  pose proof (Z.mod_pos_bound (n + c - 1) c ltac:(lia)) as B.
  nia.
Qed.

Lemma window_length {A} (l : list A) (c k : nat) :
  List.length (firstn c (skipn (k * c) l))
  = Nat.min c (List.length l - k * c).
Proof.
  rewrite length_firstn, length_skipn. reflexivity.
Qed.

(** ** Traces *)

Lemma calls_of_app (t1 t2 : list event) :
  calls_of (t1 ++ t2) = (calls_of t1 ++ calls_of t2)%list.
Proof.
  induction t1 as [|[] t1 IH]; simpl; congruence.
Qed.

Lemma requests_of_app (t1 t2 : list event) :
  requests_of (t1 ++ t2) = (requests_of t1 ++ requests_of t2)%list.
Proof.
  unfold requests_of. rewrite calls_of_app, map_app. reflexivity.
Qed.

Lemma sleeps_of_app (t1 t2 : list event) :
  sleeps_of (t1 ++ t2) = (sleeps_of t1 ++ sleeps_of t2)%list.
Proof.
  induction t1 as [|[] t1 IH]; simpl; congruence.
Qed.

(** One turn of the retry loop, written out. *)
Lemma retry_loop_step (attempt : Z) (rest : list Z) (req : request_items)
    (b : number) (s : backend) :
  retry_loop (attempt :: rest) req b s =
    match batch_write_item req s with
    | (Ok resp, s1) =>
        if unprocessed_count (unprocessed_of resp) =? 0
        then (Ok tt, s1, [Call req (Ok resp)])
        else
          match retry_loop rest (unprocessed_of resp)
                  (py_min (times2 b) (NInt 5)) s1 with
          | (r, s2, t2) =>
              (r, s2,
               Call req (Ok resp)
               :: Print ("[WARN] "
                         ++ (str_of_int (unprocessed_count (unprocessed_of resp))
                             ++ " unprocessed items, retrying (attempt "
                             ++ str_of_int (attempt + 1) ++ ")"))
               :: Sleep b :: t2)
          end
    | (Raise e, s1) => (Raise e, s1, [Call req (Raise e)])
    end.
Proof.
  cbn [retry_loop]. unfold bind at 1, call_batch_write_item.
  destruct (batch_write_item req s) as [[resp|e] s1]; [|reflexivity].
  destruct (unprocessed_count (unprocessed_of resp) =? 0); [reflexivity|].
  unfold bind, warn, print, sleep.
  destruct (retry_loop rest _ _ s1) as [[r s2] t2]. reflexivity.
Qed.

Lemma bind_run {A B} (m : M A) (k : A -> M B) (s : backend) :
  bind m k s =
    match m s with
    | (Ok a, s1, t1) =>
        (fst (fst (k a s1)), snd (fst (k a s1)), (t1 ++ snd (k a s1))%list)
    | (Raise e, s1, t1) => (Raise e, s1, t1)
    end.
Proof.
  unfold bind. destruct (m s) as [[[a|e] s1] t1]; [|reflexivity].
  destruct (k a s1) as [[r s2] t2]. reflexivity.
Qed.

(** ** The retry loop *)

(** Whatever the backend answers, every request after the first is the
    unprocessed subset of the answer before it, and there are no more calls
    than attempts. *)
Lemma retry_loop_resubmits (attempts : list Z) (req : request_items)
    (b : number) (s : backend) :
  resubmits req (calls_of (snd (retry_loop attempts req b s)))
  /\ (List.length (calls_of (snd (retry_loop attempts req b s)))
      <= List.length attempts)%nat.
Proof.
  revert req b s; induction attempts as [|attempt rest IH]; intros req b s.
  - simpl. auto.
  - rewrite retry_loop_step.
    destruct (batch_write_item req s) as [[resp|e] s1].
    + destruct (unprocessed_count (unprocessed_of resp) =? 0).
      * simpl. repeat split; auto. lia.
      * specialize (IH (unprocessed_of resp) (py_min (times2 b) (NInt 5)) s1).
        destruct (retry_loop rest _ _ s1) as [[r s2] t2].
        cbn [snd calls_of resubmits List.length] in *.
        destruct IH as [IH1 IH2]. repeat split; auto. lia.
    + simpl. repeat split; auto. lia.
Qed.

(** [write_chunk], step by step: the encoding of the chunk, the retry
    loop, the progress line. *)
Lemma write_chunk_step (table_name : string) (total max_retries i : Z)
    (chunk : list record) (s : backend) :
  write_chunk table_name total max_retries i chunk s =
    match put_requests table_name chunk with
    | Raise e => (Raise e, s, [])
    | Ok req =>
        match retry_loop (range max_retries) req (NFloat 0.2) s with
        | (Ok _, s1, t1) =>
            (Ok tt, s1, (t1 ++ [Print (progress_line total (i, chunk))])%list)
        | (Raise e, s1, t1) => (Raise e, s1, t1)
        end
    end.
Proof.
  unfold write_chunk.
  destruct (put_requests table_name chunk) as [req|e];
    [rewrite bind_lift_Ok | rewrite bind_lift_Raise; reflexivity].
  rewrite bind_run.
  destruct (retry_loop _ _ _ s) as [[[[]|e] s1] t1]; reflexivity.
Qed.

Lemma list_comp_length {A B} (f : A -> result B) (l : list A) (r : list B) :
  list_comp f l = Ok r -> List.length r = List.length l.
Proof.
  rewrite list_comp_Ok_iff. induction 1; simpl; congruence.
Qed.

Lemma put_requests_Ok (table_name : string) (chunk : list record)
    (req : request_items) :
  put_requests table_name chunk = Ok req ->
  exists items,
    list_comp (fun rec => rmap put_request (to_ddb_item rec)) chunk = Ok items
    /\ req = [(table_name, items)].
Proof.
  unfold put_requests.
  destruct (list_comp _ chunk) as [items|e]; cbn [rmap rbind]; [|discriminate].
  intros [= <-]. eauto.
Qed.

Lemma unprocessed_count_put_requests (table_name : string) (chunk : list record)
    (req : request_items) :
  put_requests table_name chunk = Ok req ->
  unprocessed_count req = len chunk.
Proof.
  intros H. apply put_requests_Ok in H. destruct H as (items & Hi & ->).
  unfold unprocessed_count, sum, len. cbn.
  rewrite (list_comp_length _ _ _ Hi). reflexivity.
Qed.

Lemma length_range (n : Z) : List.length (range n) = Z.to_nat n.
Proof.
  unfold range. rewrite length_map, length_seq. reflexivity.
Qed.

(** With a backend that reports everything as unprocessed, the loop uses
    every attempt on the same request and then ends normally. *)
Lemma retry_loop_always_unprocessed (attempts : list Z) (req : request_items)
    (b : number) (s : backend) :
  always_unprocessed ->
  unprocessed_count req <> 0 ->
  fst (fst (retry_loop attempts req b s)) = Ok tt
  /\ calls_of (snd (retry_loop attempts req b s))
     = repeat (req, Ok {| UnprocessedItems := Some req |}) (List.length attempts).
Proof.
  intros Hb Hreq. revert b s; induction attempts as [|attempt rest IH]; intros b s.
  - simpl. auto.
  - rewrite retry_loop_step. specialize (Hb req s).
    destruct (batch_write_item req s) as [r s1]. cbn [fst] in Hb. subst r.
    cbn [unprocessed_of UnprocessedItems].
    destruct (Z.eqb_spec (unprocessed_count req) 0) as [?|_]; [contradiction|].
    specialize (IH (py_min (times2 b) (NInt 5)) s1).
    destruct (retry_loop rest req _ s1) as [[r s2] t2].
    cbn [fst snd calls_of List.length repeat] in *.
    destruct IH as [-> ->]. auto.
Qed.

Lemma write_chunk_always_unprocessed (table_name : string) (total max_retries i : Z)
    (chunk : list record) (req : request_items) (s : backend) :
  always_unprocessed ->
  chunk <> [] ->
  put_requests table_name chunk = Ok req ->
  fst (fst (write_chunk table_name total max_retries i chunk s)) = Ok tt
  /\ calls_of (snd (write_chunk table_name total max_retries i chunk s))
     = repeat (req, Ok {| UnprocessedItems := Some req |}) (Z.to_nat max_retries).
Proof.
  intros Hb Hchunk Hreq0.
  assert (Hreq : unprocessed_count req <> 0).
  { rewrite (unprocessed_count_put_requests table_name chunk req Hreq0). unfold len.
    destruct chunk; [contradiction | simpl; lia]. }
  destruct (retry_loop_always_unprocessed (range max_retries)
              req (NFloat 0.2) s Hb Hreq) as [Hr Hc].
  rewrite write_chunk_step, Hreq0.
  destruct (retry_loop _ _ _ s) as [[r s1] t1]. cbn [fst snd] in *. subst r.
  cbn [fst snd]. rewrite calls_of_app, Hc, length_range.
  split; [reflexivity | apply app_nil_r].
Qed.

Lemma chunks_of_nonempty (records : list record) (c : Z) (chunks : list (list record)) :
  1 <= c -> chunks_of records c = Ok chunks ->
  Forall (fun chunk => chunk <> []) chunks.
Proof.
  intros Hc E. rewrite chunks_of_windows in E by exact Hc.
  injection E as <-.
  pose proof (ceil_bounds (len records) c Hc ltac:(unfold len; lia)) as B.
  apply Forall_forall. intros chunk Hin.
  apply in_map_iff in Hin. destruct Hin as (k & <- & Hk).
  apply in_seq in Hk. intros E.
  apply (f_equal (@List.length record)) in E.
  rewrite window_length in E. unfold len in *. simpl in E. nia.
Qed.

Lemma enumerate_snd {A} (l : list A) (k : Z) : map snd (enumerate l k) = l.
Proof.
  revert k; induction l as [|x xs IH]; intros k; simpl; [|rewrite IH]; reflexivity.
Qed.

Lemma for_each_always_unprocessed (table_name : string) (total max_retries : Z)
    (pairs : list (Z * list record)) (reqs : list request_items) (s : backend) :
  always_unprocessed ->
  Forall (fun chunk => chunk <> []) (map snd pairs) ->
  list_comp (put_requests table_name) (map snd pairs) = Ok reqs ->
  let run := for_each (fun ic => write_chunk table_name total max_retries
                                             (fst ic) (snd ic)) pairs s in
  fst (fst run) = Ok tt
  /\ requests_of (snd run)
     = flat_map (fun req => repeat req (Z.to_nat max_retries)) reqs.
Proof.
  intros Hb. revert reqs s;
    induction pairs as [|[i chunk] rest IH]; intros reqs s Hne Hreqs.
  - injection Hreqs as <-. simpl. auto.
  - cbn [map snd] in Hne. inversion Hne as [|? ? Hchunk Hrest]; subst.
    cbn [map snd list_comp] in Hreqs.
    destruct (put_requests table_name chunk) as [req|e] eqn:Ereq;
      cbn [rbind] in Hreqs; [|discriminate].
    destruct (list_comp (put_requests table_name) (map snd rest)) as [reqs'|e]
      eqn:Erest; cbn [rbind] in Hreqs; [|discriminate].
    injection Hreqs as <-.
    cbn [for_each flat_map fst snd]. cbv zeta. rewrite bind_run.
    destruct (write_chunk_always_unprocessed table_name total max_retries i chunk
                req s Hb Hchunk Ereq) as [Hr Hc].
    destruct (write_chunk _ _ _ i chunk s) as [[r s1] t1].
    cbn [fst snd] in *. subst r.
    destruct (IH reqs' s1 Hrest eq_refl) as [IHr IHc]. cbn [fst snd].
    split; [exact IHr|].
    rewrite requests_of_app, IHc. f_equal.
    unfold requests_of. rewrite Hc.
    clear. induction (Z.to_nat max_retries); simpl; congruence.
Qed.

(** C2. Retry termination and silent partial success.  With a backend
    whose every response reports all submitted items as unprocessed, and
    maxRetries >= 1: for every (non-empty) chunk, once its records are
    encoded into a request, the loop issues exactly maxRetries batch-write
    calls, each after the first carrying the unprocessed subset of the
    response before it, and ends without raising (a chunk whose encoding
    raises is not submitted at all, the exception ending the write); the
    whole write then goes on to the next chunk, so that its requests are,
    chunk after chunk, maxRetries submissions of that chunk, and it
    returns normally. *)
Theorem retry_termination (table_name : string) (records : list record)
    (c max_retries : Z) (s : backend) :
  1 <= c -> 1 <= max_retries -> always_unprocessed ->
  (forall chunk i total s',
     chunk <> [] ->
     let run := write_chunk table_name total max_retries i chunk s' in
     match put_requests table_name chunk with
     | Ok req =>
         fst (fst run) = Ok tt
         /\ List.length (calls_of (snd run)) = Z.to_nat max_retries
         /\ resubmits req (calls_of (snd run))
     | Raise e => run = (Raise e, s', [])
     end)
  /\
  exists chunks,
    chunks_of records c = Ok chunks
    /\ forall reqs,
         list_comp (put_requests table_name) chunks = Ok reqs ->
         fst (fst (batch_write_items table_name records c max_retries s)) = Ok tt
         /\ requests_of (snd (batch_write_items table_name records c max_retries s))
            = flat_map (fun req => repeat req (Z.to_nat max_retries)) reqs.
Proof.
  intros Hc Hm Hb. split.
  - intros chunk i total s' Hchunk run.
    destruct (put_requests table_name chunk) as [req|e] eqn:Ereq.
    2: { subst run. rewrite write_chunk_step, Ereq. reflexivity. }
    destruct (write_chunk_always_unprocessed table_name total max_retries i chunk
                req s' Hb Hchunk Ereq) as [Hr Hcalls].
    subst run. split; [exact Hr|]. split.
    + rewrite Hcalls. apply repeat_length.
    + rewrite write_chunk_step, Ereq.
      pose proof (retry_loop_resubmits (range max_retries)
                    req (NFloat 0.2) s') as [R _].
      destruct (retry_loop _ _ _ s') as [[[[]|e] s1] t1]; cbn [fst snd] in *.
      * rewrite calls_of_app. simpl. rewrite app_nil_r. exact R.
      * exact R.
  - destruct (chunks_of records c) as [chunks|e] eqn:E.
    2: { rewrite chunks_of_windows in E by exact Hc. discriminate E. }
    exists chunks. split; [reflexivity|]. intros reqs Hreqs.
    pose proof (chunks_of_nonempty records c chunks Hc E) as Hne.
    unfold batch_write_items. rewrite E, bind_lift_Ok.
    rewrite <- (enumerate_snd chunks 1) in Hne, Hreqs.
    exact (for_each_always_unprocessed table_name (len chunks) max_retries
             (enumerate chunks 1) reqs s Hb Hne Hreqs).
Qed.

(** ** Backoff *)

(** The sleeps of a retry loop are the first values of [backoff]. *)
Lemma retry_loop_sleeps (attempts : list Z) (req : request_items)
    (b : number) (s : backend) :
  exists k, (k <= List.length attempts)%nat
            /\ sleeps_of (snd (retry_loop attempts req b s)) = backoff_schedule k b.
Proof.
  revert req b s; induction attempts as [|attempt rest IH]; intros req b s.
  - exists 0%nat. simpl. auto.
  - rewrite retry_loop_step.
    destruct (batch_write_item req s) as [[resp|e] s1].
    + destruct (unprocessed_count (unprocessed_of resp) =? 0).
      * exists 0%nat. simpl. split; [lia | reflexivity].
      * destruct (IH (unprocessed_of resp) (py_min (times2 b) (NInt 5)) s1)
          as (k & Hk & E).
        destruct (retry_loop rest _ _ s1) as [[r s2] t2].
        exists (S k). cbn [snd sleeps_of backoff_schedule List.length] in *.
        rewrite E. split; [lia | reflexivity].
    + exists 0%nat. simpl. split; [lia | reflexivity].
Qed.

Lemma backoff_next (b : number) :
  In b backoff_values ->
  In (py_min (times2 b) (NInt 5)) backoff_values
  /\ doubles_to_cap b (py_min (times2 b) (NInt 5))
  /\ num_leb b (py_min (times2 b) (NInt 5)) = true
  /\ num_leb b (NInt 5) = true.
Proof.
  unfold backoff_values, doubles_to_cap. cbn [In].
  intros H.
  repeat (destruct H as [<-|H];
          [vm_compute; repeat split; auto 10; (left + right); split; reflexivity|]).
  destruct H.
Qed.

Lemma backoff_schedule_from (n : nat) (b : number) :
  In b backoff_values ->
  Forall (fun d => In d backoff_values) (backoff_schedule n b)
  /\ Sorted doubles_to_cap (backoff_schedule n b)
  /\ Sorted (fun x y => num_leb x y = true) (backoff_schedule n b)
  /\ Forall (fun d => num_leb d (NInt 5) = true) (backoff_schedule n b).
Proof.
  revert b; induction n as [|n IH]; intros b Hb.
  - simpl. repeat split; constructor.
  - destruct (backoff_next b Hb) as (Hnext & Hd & Hle & Hcap).
    destruct (IH _ Hnext) as (I1 & I2 & I3 & I4).
    cbn [backoff_schedule]. repeat split; constructor; auto.
    + destruct n; constructor. exact Hd.
    + destruct n; constructor. exact Hle.
Qed.

Lemma backoff_schedule_cap (n : nat) :
  backoff_schedule n (NInt 5) = repeat (NInt 5) n.
Proof.
  induction n as [|n IH]; [reflexivity|].
  cbn [backoff_schedule repeat]. f_equal. exact IH.
Qed.

Lemma backoff_schedule_explicit (n : nat) :
  backoff_schedule n (NFloat 0.2)
  = (firstn n [NFloat 0.2; NFloat 0.4; NFloat 0.8; NFloat 1.6; NFloat 3.2]
     ++ repeat (NInt 5) (n - 5))%list.
Proof.
  assert (E1 : py_min (times2 (NFloat 0.2)) (NInt 5) = NFloat 0.4)
    by (vm_compute; reflexivity).
  assert (E2 : py_min (times2 (NFloat 0.4)) (NInt 5) = NFloat 0.8)
    by (vm_compute; reflexivity).
  assert (E3 : py_min (times2 (NFloat 0.8)) (NInt 5) = NFloat 1.6)
    by (vm_compute; reflexivity).
  assert (E4 : py_min (times2 (NFloat 1.6)) (NInt 5) = NFloat 3.2)
    by (vm_compute; reflexivity).
  assert (E5 : py_min (times2 (NFloat 3.2)) (NInt 5) = NInt 5)
    by (vm_compute; reflexivity).
  destruct n as [|n]; [reflexivity|]. cbn [backoff_schedule]. rewrite E1.
  destruct n as [|n]; [reflexivity|]. cbn [backoff_schedule]. rewrite E2.
  destruct n as [|n]; [reflexivity|]. cbn [backoff_schedule]. rewrite E3.
  destruct n as [|n]; [reflexivity|]. cbn [backoff_schedule]. rewrite E4.
  destruct n as [|n]; [reflexivity|]. cbn [backoff_schedule]. rewrite E5.
  cbn [firstn Nat.sub app]. rewrite Nat.sub_0_r, backoff_schedule_cap.
  rewrite firstn_nil. reflexivity.
Qed.

(** C8. Backoff monotonicity and cap.  Within the retry loop of a single
    chunk, whatever the backend answers, the sleeps are the first values of
    0.2, 0.4, 0.8, 1.6, 3.2, 5, 5, ... (at most one per attempt): the first
    is 0.2, each next one is double the one before while the double does
    not exceed 5 and is 5 from then on, the sequence is non-decreasing, and
    no delay exceeds 5. *)
Theorem backoff_monotone_capped (table_name : string) (total max_retries i : Z)
    (chunk : list record) (s : backend) :
  let delays := sleeps_of (snd (write_chunk table_name total max_retries i chunk s)) in
  (exists k, (k <= Z.to_nat max_retries)%nat
             /\ delays
                = (firstn k [NFloat 0.2; NFloat 0.4; NFloat 0.8; NFloat 1.6; NFloat 3.2]
                   ++ repeat (NInt 5) (k - 5))%list)
  /\ (delays = [] \/ exists rest, delays = NFloat 0.2 :: rest)
  /\ Sorted doubles_to_cap delays
  /\ Sorted (fun a b => num_leb a b = true) delays
  /\ Forall (fun d => num_leb d (NInt 5) = true) delays.
Proof.
  intros delays.
  assert (D : exists k, (k <= Z.to_nat max_retries)%nat
                        /\ delays = backoff_schedule k (NFloat 0.2)).
  { subst delays. rewrite write_chunk_step.
    destruct (put_requests table_name chunk) as [req|e].
    - destruct (retry_loop_sleeps (range max_retries) req (NFloat 0.2) s)
        as (k & Hk & E).
      rewrite length_range in Hk. exists k. split; [exact Hk|].
      destruct (retry_loop _ _ _ s) as [[[[]|e] s1] t1]; cbn [fst snd] in *.
      + rewrite sleeps_of_app, E. apply app_nil_r.
      + exact E.
    - exists 0%nat. split; [lia | reflexivity]. }
  destruct D as (k & Hk & D).
  assert (H02 : In (NFloat 0.2) backoff_values) by (left; reflexivity).
  destruct (backoff_schedule_from k (NFloat 0.2) H02) as (_ & S1 & S2 & F).
  rewrite D. repeat split; auto.
  - exists k. split; [exact Hk | apply backoff_schedule_explicit].
  - destruct k; [left; reflexivity | right; eexists; reflexivity].
Qed.

(** ** Submission order *)

Lemma write_chunk_accepts_all (table_name : string) (total max_retries i : Z)
    (chunk : list record) (req : request_items) (s : backend) :
  accepts_all -> 1 <= max_retries ->
  put_requests table_name chunk = Ok req ->
  fst (fst (write_chunk table_name total max_retries i chunk s)) = Ok tt
  /\ requests_of (snd (write_chunk table_name total max_retries i chunk s))
     = [req].
Proof.
  intros Hb Hm Hreq. rewrite write_chunk_step, Hreq.
  unfold range. destruct (Z.to_nat max_retries) as [|n] eqn:En; [lia|].
  cbn [seq map]. rewrite retry_loop_step.
  destruct (Hb req s) as (resp & Hr & Hcount).
  destruct (batch_write_item _ s) as [r s1]. cbn [fst] in Hr. subst r.
  rewrite Hcount. cbn. auto.
Qed.

Lemma for_each_accepts_all (table_name : string) (total max_retries : Z)
    (pairs : list (Z * list record)) (reqs : list request_items) (s : backend) :
  accepts_all -> 1 <= max_retries ->
  list_comp (put_requests table_name) (map snd pairs) = Ok reqs ->
  let run := for_each (fun ic => write_chunk table_name total max_retries
                                             (fst ic) (snd ic)) pairs s in
  fst (fst run) = Ok tt
  /\ requests_of (snd run) = reqs.
Proof.
  intros Hb Hm. revert reqs s;
    induction pairs as [|[i chunk] rest IH]; intros reqs s Hreqs.
  - injection Hreqs as <-. simpl. auto.
  - cbn [map snd list_comp] in Hreqs.
    destruct (put_requests table_name chunk) as [req|e] eqn:Ereq;
      cbn [rbind] in Hreqs; [|discriminate].
    destruct (list_comp (put_requests table_name) (map snd rest)) as [reqs'|e]
      eqn:Erest; cbn [rbind] in Hreqs; [|discriminate].
    injection Hreqs as <-.
    cbn [for_each fst snd]. cbv zeta. rewrite bind_run.
    destruct (write_chunk_accepts_all table_name total max_retries i chunk req s
                Hb Hm Ereq) as [Hr Hc].
    destruct (write_chunk _ _ _ i chunk s) as [[r s1] t1].
    cbn [fst snd] in *. subst r.
    destruct (IH reqs' s1 eq_refl) as [IHr IHc]. cbn [fst snd].
    split; [exact IHr|].
    rewrite requests_of_app, IHc, Hc. reflexivity.
Qed.

(** C3. Chunking.  For every record list of length N and every chunk size
    C with 1 <= C (so for 1 <= C <= 25), [batch_write_items] cuts the list
    into ceil(N / C) chunks, in order: the count k satisfies
    (k - 1) * C < N <= k * C; every chunk has between 1 and C records and
    every chunk but the last has exactly C; the chunks concatenated give
    the list back; and the chunks are what the loop of [batch_write_items]
    runs over; with a backend that applies everything (and at least one
    attempt) the requests submitted are, in order, the put requests of
    the chunks, those being the requests that the records of each chunk
    encode into. *)
Theorem chunking (table_name : string) (records : list record)
    (c max_retries : Z) :
  1 <= c ->
  exists chunks,
    chunks_of records c = Ok chunks
    /\ (len chunks - 1) * c < len records <= len chunks * c
    /\ len chunks = (len records + c - 1) / c
    /\ Forall (fun chunk => 1 <= len chunk <= c) chunks
    /\ (forall k, (k + 1 < List.length chunks)%nat -> len (nth k chunks []) = c)
    /\ List.concat chunks = records
    /\ (forall s,
          batch_write_items table_name records c max_retries s
          = for_each (fun ic => write_chunk table_name (len chunks) max_retries
                                            (fst ic) (snd ic))
                     (enumerate chunks 1) s)
    /\ (1 <= max_retries -> accepts_all ->
        forall reqs,
          list_comp (put_requests table_name) chunks = Ok reqs ->
          forall s,
            requests_of (snd (batch_write_items table_name records c max_retries s))
            = reqs).
Proof.
  intros Hc. eexists. split; [apply chunks_of_windows, Hc|].
  set (n := (len records + c - 1) / c).
  pose proof (ceil_bounds (len records) c Hc ltac:(unfold len; lia)) as B.
  fold n in B.
  assert (Hn : 0 <= n) by (apply Z.div_pos; unfold len; lia).
  assert (L : len (map (fun k => firstn (Z.to_nat c) (skipn (k * Z.to_nat c) records))
                       (seq 0 (Z.to_nat n))) = n).
  { unfold len. rewrite length_map, length_seq. lia. }
  rewrite L. repeat split; try lia.
  - apply Forall_forall. intros chunk Hin.
    apply in_map_iff in Hin. destruct Hin as (k & <- & Hk).
    apply in_seq in Hk. unfold len in *. rewrite window_length. nia.
  - intros k Hk. rewrite length_map, length_seq in Hk.
    set (f := fun k => firstn (Z.to_nat c) (skipn (k * Z.to_nat c) records)).
    rewrite (nth_indep _ [] (f 0%nat)) by (rewrite length_map, length_seq; lia).
    rewrite map_nth, seq_nth by lia.
    unfold f, len in *. rewrite window_length. nia.
  - apply concat_windows. unfold len in *. nia.
  - unfold batch_write_items. rewrite chunks_of_windows by exact Hc.
    fold n. intros s. rewrite bind_lift_Ok, L. reflexivity.
  - intros Hm Hb reqs Hreqs s. unfold batch_write_items.
    rewrite chunks_of_windows by exact Hc. fold n. rewrite bind_lift_Ok.
    fold n in Hreqs.
    set (chunks := map _ (seq 0 (Z.to_nat n))) in *.
    rewrite <- (enumerate_snd chunks 1) in Hreqs.
    exact (proj2 (for_each_accepts_all table_name (len chunks) max_retries
                    (enumerate chunks 1) reqs s Hb Hm Hreqs)).
Qed.

(** ** Preparing the records *)

Lemma dict_has_In (k : string) (d : record) :
  dict_has k d = true <-> In k (map fst d).
Proof.
  unfold dict_has. rewrite existsb_exists, in_map_iff. split.
  - intros (kv & Hin & E). apply String.eqb_eq in E. eauto.
  - intros (kv & E & Hin). exists kv. split; [exact Hin|].
    apply String.eqb_eq, E.
Qed.

Lemma filter_kept_of (records : list record) :
  kept_of records (filter (dict_has "summarize_job_name") records).
Proof.
  induction records as [|r rs IH]; cbn [filter]; [constructor|].
  destruct (dict_has "summarize_job_name" r) eqn:E.
  - apply kept_keep; [apply dict_has_In, E | exact IH].
  - apply kept_drop; [|exact IH].
    intros H. apply dict_has_In in H. congruence.
Qed.

Lemma dict_set_keys (k : string) (x v : value) (d : record) :
  dict_get k d = Some v -> map fst (dict_set k x d) = map fst d.
Proof.
  induction d as [|[k' v'] d' IH]; cbn [dict_get dict_set]; [discriminate|].
  destruct (String.eqb k' k); [reflexivity|].
  intros H. cbn [map fst]. rewrite IH by exact H. reflexivity.
Qed.

Lemma dict_get_set (k k' : string) (x : value) (d : record) :
  dict_get k' (dict_set k x d)
  = if String.eqb k' k then
      match dict_get k d with Some _ => Some x | None => Some x end
    else dict_get k' d.
Proof.
  induction d as [|[k0 v0] d' IH]; cbn [dict_get dict_set].
  - rewrite (String.eqb_sym k k'). destruct (String.eqb k' k); reflexivity.
  - destruct (String.eqb_spec k0 k) as [->|Hk0]; cbn [dict_get].
    + rewrite (String.eqb_sym k k'). destruct (String.eqb k' k); reflexivity.
    + destruct (String.eqb_spec k0 k') as [->|Hk0'].
      * destruct (String.eqb_spec k' k) as [->|_]; [contradiction | reflexivity].
      * exact IH.
Qed.

Lemma coerce_patient_id_coerced (r r' : record) :
  coerce_patient_id r = Ok r' -> coerced r r'.
Proof.
  unfold coerced, coerce_patient_id.
  destruct (dict_get "patient_id" r) as [v|] eqn:E.
  - destruct (isinstance_str v) eqn:Hv; cbn [negb].
    + intros [= <-]. split; [reflexivity|]. intros k.
      destruct (dict_get k r) as [v'|] eqn:Ek; [|reflexivity].
      destruct (String.eqb_spec k "patient_id") as [->|_]; [|reflexivity].
      rewrite E in Ek. injection Ek as <-. rewrite Hv. reflexivity.
    + destruct (py_str v) as [t|e] eqn:Et; cbn [rmap rbind]; [|discriminate].
      intros [= <-]. split; [apply (dict_set_keys _ _ v), E|]. intros k.
      rewrite dict_get_set.
      destruct (String.eqb_spec k "patient_id") as [->|_].
      * rewrite E, Hv. cbn [negb andb]. exists t. rewrite Et. auto.
      * destruct (dict_get k r); reflexivity.
  - intros [= <-]. split; [reflexivity|]. intros k.
    destruct (dict_get k r) as [v'|] eqn:Ek; [|reflexivity].
    destruct (String.eqb_spec k "patient_id") as [->|_]; [|reflexivity].
    congruence.
Qed.

Lemma coerce_patient_id_returns (r : record) :
  (exists r', coerce_patient_id r = Ok r') <-> coercible r.
Proof.
  unfold coercible, coerce_patient_id.
  destruct (dict_get "patient_id" r) as [v|].
  - destruct (isinstance_str v) eqn:Hv; cbn [negb].
    + split; [intros _ v' [= <-]; left; exact Hv | eauto].
    + rewrite rmap_returns. split.
      * intros H v' [= <-]. right. exact H.
      * intros H. destruct (H v eq_refl) as [H'|H']; [congruence | exact H'].
  - split; [intros _ v' [=] | eauto].
Qed.

Lemma len_zero {A} (l : list A) : (len l =? 0) = true <-> l = [].
Proof.
  unfold len. rewrite Z.eqb_eq. destruct l; simpl; split; intros H;
    try reflexivity; try discriminate; lia.
Qed.

(** The import of [main], once the list is normalized: the warning about
    the records without a key, the coercion, the write. *)
Lemma main_import_after_normalize (table : string) (data : list value)
    (records : list record) (s : backend) :
  list_comp normalize_item data = Ok records ->
  main_import table data s =
    let kept := filter (dict_has "summarize_job_name") records in
    let missing := len records - len kept in
    let pre :=
      if negb (missing =? 0)
      then [Print ("[WARN] " ++ (str_of_int missing
                                 ++ " record(s) missing 'summarize_job_name' skipped"))]
      else [] in
    match prepare_records records with
    | Raise e => (Raise e, s, pre)
    | Ok prepared =>
        if len prepared =? 0
        then (Ok tt, s, (pre ++ [Print ("[WARN] " ++ "No valid records to import.")])%list)
        else
          match batch_write_items table prepared 25 5 s with
          | (Ok _, s1, t1) =>
              (Ok tt, s1,
               (pre ++ t1 ++ [Print ("[INFO] " ++ "Import complete. Example query:")])%list)
          | (Raise e, s1, t1) => (Raise e, s1, (pre ++ t1)%list)
          end
    end.
Proof.
  intros H. cbv zeta. unfold main_import. rewrite H, bind_lift_Ok.
  fold (prepare_records records). rewrite bind_run.
  set (pre := if negb (_ =? 0) then _ else _).
  assert (P : pre s = (Ok tt, s,
                       if negb (len records
                                - len (filter (dict_has "summarize_job_name") records)
                                =? 0)
                       then [Print ("[WARN] "
                                    ++ (str_of_int
                                          (len records
                                           - len (filter (dict_has "summarize_job_name")
                                                         records))
                                        ++ " record(s) missing 'summarize_job_name' skipped"))]
                       else [])).
  { subst pre. destruct (negb _); reflexivity. }
  rewrite P. cbn [fst snd].
  destruct (prepare_records records) as [prepared|e].
  - rewrite bind_lift_Ok.
    destruct (len prepared =? 0); [reflexivity|].
    rewrite bind_run.
    destruct (batch_write_items table prepared 25 5 s) as [[[[]|e] s1] t1];
      cbn [fst snd info print]; [|rewrite ?app_nil_r; reflexivity].
    reflexivity.
  - rewrite bind_lift_Raise. cbn [fst snd]. rewrite app_nil_r. reflexivity.
Qed.

(** C9. Pre-write filter and coercion.  Of the normalized records, [main]
    drops exactly those that lack the key [summarize_job_name] and keeps
    the others in order (of [{"patient_id": "p1"}] and
    [{"summarize_job_name": "job-3"}] only the second is left); in every
    record kept, a [patient_id] whose value is not a string is replaced by
    the string form of that value, and nothing else changes, as long as
    [str()] returns on each such value; and the calls the import makes to
    the backend are those of [batch_write_items] on the records so
    prepared, with chunk size 25 and 5 attempts (when a [str()] raises,
    the import raises the same and calls nothing). *)
Theorem prefilter_and_coercion :
  prepare_records [[("patient_id", VStr "p1")]; [("summarize_job_name", VStr "job-3")]]
  = Ok [[("summarize_job_name", VStr "job-3")]]
  /\
  (forall records,
     exists kept,
       kept_of records kept
       /\ (forall prepared, prepare_records records = Ok prepared ->
                            Forall2 coerced kept prepared)
       /\ ((exists prepared, prepare_records records = Ok prepared)
           <-> Forall coercible kept))
  /\
  (forall table data records s,
     list_comp normalize_item data = Ok records ->
     match prepare_records records with
     | Ok prepared =>
         calls_of (snd (main_import table data s))
         = calls_of (snd (batch_write_items table prepared 25 5 s))
     | Raise e =>
         fst (fst (main_import table data s)) = Raise e
         /\ calls_of (snd (main_import table data s)) = []
     end).
Proof.
  split; [reflexivity|]. split.
  - intros records. exists (filter (dict_has "summarize_job_name") records).
    split; [apply filter_kept_of|].
    unfold prepare_records. split.
    + intros prepared H. apply list_comp_Ok_iff in H.
      eapply Forall2_impl; [|exact H]. apply coerce_patient_id_coerced.
    + rewrite list_comp_returns. split; apply Forall_impl; intros r;
        apply coerce_patient_id_returns.
  - intros table data records s H.
    rewrite (main_import_after_normalize table data records s H). cbv zeta.
    set (pre := if negb (_ =? 0) then _ else _).
    assert (Hpre : calls_of pre = []) by (subst pre; destruct (negb _); reflexivity).
    destruct (prepare_records records) as [prepared|e].
    + destruct (len prepared =? 0) eqn:E.
      * apply len_zero in E. subst prepared. cbn [fst snd].
        rewrite calls_of_app, Hpre. reflexivity.
      * destruct (batch_write_items table prepared 25 5 s)
          as [[[[]|e] s1] t1]; cbn [fst snd];
          rewrite ?calls_of_app, Hpre; cbn [app calls_of]; [|reflexivity].
        apply app_nil_r.
    + cbn [fst snd]. auto.
Qed.

(** * Further properties of the codec *)

(** ** Depth *)

Lemma value_depth_ind (P : value -> Prop) :
  (forall v, (forall x, (depth x < depth v)%nat -> P x) -> P v) ->
  forall v, P v.
Proof.
  intros H v. remember (depth v) as n eqn:E. revert v E.
  induction n as [n IH] using lt_wf_ind. intros v ->.
  apply H. intros x Hx. exact (IH (depth x) Hx x eq_refl).
Qed.

Lemma list_max_In (n : nat) (l : list nat) : In n l -> (n <= list_max l)%nat.
Proof.
  intros H. pose proof (proj1 (list_max_le l (list_max l)) (Nat.le_refl _)) as F.
  rewrite Forall_forall in F. apply F, H.
Qed.

Lemma depth_in_list (x : value) (l : list value) :
  In x l -> (depth x < depth (VList l))%nat.
Proof.
  intros H. cbn [depth]. apply Nat.lt_succ_r, list_max_In, in_map, H.
Qed.

Lemma depth_in_dict (kv : string * value) (d : list (string * value)) :
  In kv d -> (depth (snd kv) < depth (VDict d))%nat.
Proof.
  intros H. cbn [depth]. apply Nat.lt_succ_r, list_max_In.
  apply (in_map (fun kv => depth (snd kv))), H.
Qed.

Lemma list_max_cons (n : nat) (l : list nat) :
  list_max (n :: l) = Nat.max n (list_max l).
Proof. reflexivity. Qed.

Lemma list_max_Forall2 {A B} (f : A -> nat) (g : B -> nat) (l : list A) (l' : list B) :
  Forall2 (fun a b => (g b <= f a)%nat) l l' ->
  (list_max (map g l') <= list_max (map f l))%nat.
Proof.
  induction 1 as [|a b l l' H _ IH]; cbn [map]; [reflexivity|].
  rewrite !list_max_cons. lia.
Qed.

Lemma Forall2_impl_In {A B} (R Q : A -> B -> Prop) (l : list A) (l' : list B) :
  Forall2 R l l' ->
  (forall a b, In a l -> R a b -> Q a b) ->
  Forall2 Q l l'.
Proof.
  induction 1 as [|a b l l' H _ IH]; intros HQ; constructor.
  - apply HQ; [left; reflexivity | exact H].
  - apply IH. intros x y Hx. apply HQ. right. exact Hx.
Qed.

Lemma depth_texts (l : list value) :
  Forall (fun x => isinstance_str x = true) l -> list_max (map depth l) = 0%nat.
Proof.
  induction 1 as [|x xs Hx _ IH]; [reflexivity|].
  destruct x; try discriminate Hx. cbn [map depth].
  rewrite list_max_cons, IH. reflexivity.
Qed.

Lemma from_number_cases (v r : value) :
  from_number v = Ok r -> r = v \/ depth r = 0%nat.
Proof.
  unfold from_number, try_except.
  match goal with |- match ?b with _ => _ end = _ -> _ =>
    destruct b as [a|e] eqn:E end.
  - intros [= <-]. right.
    destruct v; try (destruct (py_float _); cbn in E; [(injection E as <-) | discriminate E];
                     reflexivity).
    destruct (isdigit s || _).
    + destruct (int_of_str s); cbn in E; [(injection E as <-) | discriminate E]. reflexivity.
    + destruct (py_float _); cbn in E; [(injection E as <-) | discriminate E]. reflexivity.
  - intros [= <-]. left. reflexivity.
Qed.

(** Whenever [_from_ddb_attr] returns, what it returns is nested at most
    as deeply as its argument. *)
Lemma from_ddb_attr_depth (v r : value) :
  _from_ddb_attr v = Ok r -> (depth r <= depth v)%nat.
Proof.
  revert r. induction v as [v IH] using value_depth_ind. intros r E.
  destruct v as [| | | | | |d|]; try (injection E as <-; lia).
  destruct d as [|[t x] [|kv d']]; try (injection E as <-; lia).
  rewrite from_ddb_attr_single in E.
  assert (Hx : (depth x < depth (VDict [(t, x)]))%nat)
    by (apply (depth_in_dict (t, x)); left; reflexivity).
  assert (Hsame : (depth x <= depth (VDict [(t, x)]))%nat) by lia.
  destruct (String.eqb t "S"); [injection E as <-; exact Hsame|].
  destruct (String.eqb t "N").
  { destruct (from_number_cases x r E) as [-> | ->]; [exact Hsame | lia]. }
  destruct (String.eqb t "BOOL"); [injection E as <-; cbn; lia|].
  destruct (String.eqb t "NULL"); [injection E as <-; cbn; lia|].
  destruct (String.eqb t "L").
  { destruct x as [| | | |s|l|d0|]; cbn [iterate rbind] in E; try discriminate E.
    - rewrite list_comp_texts in E by apply chars_texts.
      injection E as <-. cbn [depth]. rewrite (depth_texts _ (chars_texts s)).
      cbn. lia.
    - destruct (list_comp _from_ddb_attr l) as [l'|e] eqn:El; [|discriminate E].
      injection E as <-. apply list_comp_Ok_iff in El.
      enough ((depth (VList l') <= depth (VList l))%nat) by lia.
      cbn [depth]. apply le_n_S, list_max_Forall2.
      apply (Forall2_impl_In _ _ _ _ El). intros a b Ha Hab.
      apply (IH a); [|exact Hab]. apply depth_in_list in Ha. lia.
    - rewrite list_comp_texts in E by apply keys_texts.
      injection E as <-. cbn [depth].
      rewrite (depth_texts _ (keys_texts d0)). cbn. lia. }
  destruct (String.eqb t "M").
  { destruct x as [| | | | | |d0|]; cbn [items rbind] in E; try discriminate E.
    destruct (dict_comp _from_ddb_attr d0) as [d0'|e] eqn:Ed; [|discriminate E].
    injection E as <-. apply dict_comp_Ok_iff in Ed.
    enough ((depth (VDict d0') <= depth (VDict d0))%nat) by lia.
    cbn [depth]. apply le_n_S.
    apply (list_max_Forall2 (fun kv => depth (snd kv)) (fun kv => depth (snd kv))).
    apply (Forall2_impl_In _ _ _ _ Ed). intros a b Ha [_ Hab].
    apply (IH (snd a)); [|exact Hab]. apply depth_in_dict in Ha. lia. }
  injection E as <-. exact Hsame.
Qed.

(** X1. Decoding never deepens: the record that [normalize_record] returns,
    and each of its attribute values, is nested at most as deeply as the
    input record and its value under the same key. *)
Theorem decode_depth (obj r : record) :
  normalize_record obj = Ok r ->
  (depth (VDict r) <= depth (VDict obj))%nat
  /\ Forall2 (fun kv kv' => fst kv' = fst kv
                            /\ (depth (snd kv') <= depth (snd kv))%nat) obj r.
Proof.
  unfold normalize_record.
  destruct (existsb looks_tagged (map snd obj)).
  - intros E. apply dict_comp_Ok_iff in E.
    assert (F : Forall2 (fun kv kv' => fst kv' = fst kv
                           /\ (depth (snd kv') <= depth (snd kv))%nat) obj r).
    { eapply Forall2_impl; [|exact E].
      intros kv kv' [Hk Hv]. split; [exact Hk | apply from_ddb_attr_depth, Hv]. }
    split; [|exact F]. cbn [depth]. apply le_n_S.
    apply (list_max_Forall2 (fun kv => depth (snd kv)) (fun kv => depth (snd kv))).
    eapply Forall2_impl; [|exact F]. intros kv kv' [_ H]. exact H.
  - intros [= <-]. split; [lia|].
    induction obj as [|kv obj' IH]; constructor; auto.
Qed.

(** ** When [normalize_record] changes its input *)

Lemma depth_wrapper (t : string) (x : value) :
  depth (VDict [(t, x)]) = S (depth x).
Proof.
  cbn [depth map snd]. rewrite list_max_cons. cbn. rewrite Nat.max_0_r. reflexivity.
Qed.

(** A wrapper under a recognized tag never decodes to itself. *)
Lemma tagged_not_fixed (w : value) :
  looks_tagged w = true -> _from_ddb_attr w <> Ok w.
Proof.
  intros H E. apply looks_tagged_spec in H. destruct H as (t & x & -> & Ht).
  pose proof (depth_wrapper t x) as D.
  rewrite from_ddb_attr_single in E.
  cbn [recognized_tags In] in Ht.
  assert (Hx : forall r, r = VDict [(t, x)] -> r = x \/ depth r = 0%nat -> False).
  { intros r -> [Hr|Hr]; [apply (f_equal depth) in Hr|]; lia. }
  destruct Ht as [<-|[<-|[<-|[<-|[<-|[<-|[]]]]]]];
    cbn [String.eqb Ascii.eqb Bool.eqb] in E.
  - injection E as E. apply (Hx x); auto.
  - apply from_number_cases in E. apply (Hx (VDict [("N", x)])); [reflexivity|].
    exact E.
  - discriminate E.
  - destruct (iterate x) as [xs|e]; cbn [rbind] in E; [|discriminate E].
    destruct (list_comp _from_ddb_attr xs); discriminate E.
  - destruct x as [| | | | | |d0|]; cbn [items rbind] in E; try discriminate E.
    destruct (dict_comp _from_ddb_attr d0) as [d0'|e] eqn:Ed; [|discriminate E].
    injection E as ->. apply dict_comp_Ok_iff in Ed.
    inversion Ed as [|[k y] kv' l0 l0' [_ Hy] Hrest]; subst.
    inversion Hrest; subst. cbn [snd] in Hy.
    apply from_ddb_attr_depth in Hy. rewrite depth_wrapper in Hy.
    cbn [depth map snd] in *. rewrite list_max_cons in *. cbn in *. lia.
  - discriminate E.
Qed.

Lemma Forall2_diag {A} (R : A -> A -> Prop) (l : list A) :
  Forall2 R l l -> Forall (fun x => R x x) l.
Proof.
  induction l as [|x xs IH]; intros H; [constructor|].
  inversion H; subst. constructor; auto.
Qed.

(** X2. [normalize_record] returns its argument unchanged exactly when no
    attribute value looks tagged: once it sniffs a tag, the result differs
    from the input (or an exception is raised). *)
Theorem normalize_record_unchanged_iff (obj : record) :
  normalize_record obj = Ok obj
  <-> existsb looks_tagged (map snd obj) = false.
Proof.
  split.
  - intros E. destruct (existsb looks_tagged (map snd obj)) eqn:T; [|reflexivity].
    exfalso. unfold normalize_record in E. rewrite T in E.
    apply dict_comp_Ok_iff, Forall2_diag in E. rewrite Forall_forall in E.
    apply existsb_exists in T. destruct T as (v & Hv & Htag).
    apply in_map_iff in Hv. destruct Hv as (kv & <- & Hkv).
    apply (tagged_not_fixed (snd kv) Htag). apply (E kv Hkv).
  - intros T. unfold normalize_record. rewrite T. reflexivity.
Qed.

(** ** What the encoder produces *)

Lemma forallb_over_map {A B} (f : B -> bool) (g : A -> B) (l : list A) :
  forallb f (map g l) = forallb (fun x => f (g x)) l.
Proof.
  induction l as [|x xs IH]; simpl; [|rewrite IH]; reflexivity.
Qed.

Lemma conv_is_wire (v w : value) : conv v = Ok w -> wire w = true.
Proof.
  revert w.
  induction v as [|b|z|f|s|l IH|d IH|o] using value_rect'; intros w;
    rewrite conv_unfold.
  - intros [= <-]. reflexivity.
  - intros [= <-]. reflexivity.
  - destruct (py_str_int z); cbn [rmap rbind]; [|discriminate].
    intros [= <-]. reflexivity.
  - intros [= <-]. reflexivity.
  - intros [= <-]. reflexivity.
  - destruct (list_comp conv l) as [ws|e] eqn:El; cbn [rmap rbind]; [|discriminate].
    intros [= <-]. cbn [wire String.eqb Ascii.eqb Bool.eqb].
    apply list_comp_Ok_iff in El. apply forallb_forall.
    induction El as [|x y xs ys Hxy _ IHl]; [intros ? []|].
    inversion IH as [|? ? Hx Hxs]; subst.
    intros y' [<- | Hy']; [exact (Hx y Hxy) | exact (IHl Hxs y' Hy')].
  - destruct (to_ddb_item d) as [ws|e] eqn:Ed; cbn [rmap rbind]; [|discriminate].
    intros [= <-]. cbn [wire String.eqb Ascii.eqb Bool.eqb].
    unfold to_ddb_item in Ed. apply dict_comp_Ok_iff in Ed. apply forallb_forall.
    induction Ed as [|x y xs ys [_ Hxy] _ IHl]; [intros ? []|].
    inversion IH as [|? ? Hx Hxs]; subst.
    intros y' [<- | Hy']; [exact (Hx (snd y) Hxy) | exact (IHl Hxs y' Hy')].
  - destruct (other_str o); cbn [rmap rbind]; [|discriminate].
    intros [= <-]. reflexivity.
Qed.

(** X3. Every value that [conv] returns is a well-typed AttributeValue: a
    single tag whose payload has the type the tag announces, at every
    depth. *)
Theorem conv_wire (v w : value) : conv v = Ok w -> wire w = true.
Proof.
  apply conv_is_wire.
Qed.

(** ** Decoding well-typed AttributeValues *)

Lemma list_comp_Forall {A B} (f : A -> result B) (Q : B -> Prop) (l : list A) :
  Forall (fun x => exists y, f x = Ok y /\ Q y) l ->
  exists l', list_comp f l = Ok l' /\ Forall Q l'.
Proof.
  induction 1 as [|x xs (y & Hy & Qy) _ (ys & Hys & Qys)]; cbn [list_comp].
  - exists []. split; [reflexivity | constructor].
  - rewrite Hy. cbn [rbind]. rewrite Hys. cbn [rbind].
    exists (y :: ys). split; [reflexivity | constructor; assumption].
Qed.

Lemma from_number_json (s : string) :
  exists r, from_number (VStr s) = Ok r /\ json r.
Proof.
  rewrite from_number_text. destruct (looks_int s).
  - destruct (int_of_str s); eexists; split; try reflexivity; exact I.
  - destruct (float_of_str s); eexists; split; try reflexivity; exact I.
Qed.

Lemma wire_returns (w : value) :
  wire w = true -> exists r, _from_ddb_attr w = Ok r /\ json r.
Proof.
  induction w as [w IH] using value_depth_ind. intros W.
  destruct w as [| | | | | |d|]; try discriminate W.
  destruct d as [|[t x] [|kv d']]; try discriminate W.
  rewrite from_ddb_attr_single. cbn [wire] in W.
  pose proof (depth_wrapper t x) as D.
  destruct (String.eqb t "S").
  { destruct x; try discriminate W. eexists; split; [reflexivity | exact I]. }
  destruct (String.eqb t "N").
  { destruct x; try discriminate W. apply from_number_json. }
  destruct (String.eqb t "BOOL"); [eexists; split; [reflexivity | exact I]|].
  destruct (String.eqb t "NULL"); [eexists; split; [reflexivity | exact I]|].
  destruct (String.eqb t "L").
  { destruct x as [| | | | |l| |]; try discriminate W. cbn [iterate rbind].
    destruct (list_comp_Forall _from_ddb_attr json l) as (l' & -> & Hl').
    - apply Forall_forall. intros y Hy. apply IH.
      + apply depth_in_list in Hy. lia.
      + rewrite forallb_forall in W. apply W, Hy.
    - exists (VList l'). split; [reflexivity | apply generic_list, Hl']. }
  destruct (String.eqb t "M"); [|discriminate W].
  destruct x as [| | | | | |d0|]; try discriminate W. cbn [items rbind].
  unfold dict_comp.
  destruct (list_comp_Forall
              (fun kv => rmap (fun y => (fst kv, y)) (_from_ddb_attr (snd kv)))
              (fun kv : string * value => json (snd kv)) d0) as (d0' & -> & Hd').
  - apply Forall_forall. intros kv Hkv.
    destruct (IH (snd kv)) as (y & -> & Hy).
    + apply depth_in_dict in Hkv. lia.
    + rewrite forallb_forall in W. apply W, Hkv.
    + exists (fst kv, y). split; [reflexivity | exact Hy].
  - exists (VDict d0'). split; [reflexivity | apply generic_dict, Hd'].
Qed.


(** ** Decoding what was encoded *)

Lemma to_ddb_item_keys (d w : record) :
  to_ddb_item d = Ok w -> map fst w = map fst d.
Proof.
  apply dict_comp_keys.
Qed.

(** X4. Whatever the record holds (objects of other types and any floats
    included), whenever [to_ddb_item] returns on it, decoding the encoding
    does not raise and returns a mapping with the same keys in the same
    order. *)
Theorem encoded_record_decodes (d w : record) :
  to_ddb_item d = Ok w ->
  exists r, normalize_record w = Ok r /\ map fst r = map fst d.
Proof.
  intros Ew.
  assert (R : exists r, dict_comp _from_ddb_attr w = Ok r).
  { apply dict_comp_returns. pose proof Ew as F.
    unfold to_ddb_item in F. apply dict_comp_Ok_iff in F.
    clear Ew. induction F as [|kv kw xs ys [_ Hc] _ IH]; constructor; [|exact IH].
    destruct (wire_returns (snd kw) (conv_is_wire _ _ Hc)) as (y & Hy & _).
    eauto. }
  destruct R as [r Hr]. exists r.
  split; [exact (normalize_record_encoded d w r Ew Hr)|].
  rewrite (dict_comp_keys _ _ _ Hr). exact (to_ddb_item_keys d w Ew).
Qed.

(** ** Round trip, objects of other types included *)

Lemma dict_comp_encoded (g : value -> result value) (h : value -> value)
    (d w : record) :
  to_ddb_item d = Ok w ->
  Forall (fun kv => forall y, conv (snd kv) = Ok y -> g y = Ok (h (snd kv))) d ->
  dict_comp g w = Ok (map (fun kv => (fst kv, h (snd kv))) d).
Proof.
  unfold to_ddb_item. intros H. apply dict_comp_Ok_iff in H.
  induction H as [|kv kv' xs ys [Hk Hy] _ IH]; intros F; [reflexivity|].
  inversion F as [|? ? Hx Hxs]; subst.
  destruct kv as [k v], kv' as [k' y]. cbn [fst snd] in *. subst k'.
  unfold dict_comp in *. cbn [list_comp map fst snd].
  rewrite (Hx y Hy). cbn [rmap rbind]. rewrite (IH Hxs). reflexivity.
Qed.

Lemma from_ddb_attr_conv_plain (v w : value) :
  generic reads_back (plain v) -> conv v = Ok w -> _from_ddb_attr w = Ok (plain v).
Proof.
  revert w.
  induction v as [|b|z|f|s|l IH|d IH|o] using value_rect'; intros w G.
  - apply (from_ddb_attr_conv VNone), G.
  - apply (from_ddb_attr_conv (VBool b)), G.
  - apply (from_ddb_attr_conv (VInt z)), G.
  - apply (from_ddb_attr_conv (VFloat f)), G.
  - apply (from_ddb_attr_conv (VStr s)), G.
  - rewrite conv_list.
    destruct (list_comp conv l) as [ws|e] eqn:El; cbn [rmap rbind]; [|discriminate].
    intros [= <-]. rewrite from_ddb_attr_single. cbn [String.eqb Ascii.eqb Bool.eqb].
    cbn [iterate rbind plain]. cbn [plain] in G. apply generic_list in G.
    rewrite (list_comp_compose conv _from_ddb_attr plain l ws El); [reflexivity|].
    clear El. induction IH as [|x xs Hx _ IHxs]; [constructor|].
    cbn [map] in G. inversion G; subst. constructor; auto.
  - rewrite conv_dict.
    destruct (to_ddb_item d) as [ws|e] eqn:Ed; cbn [rmap rbind]; [|discriminate].
    intros [= <-]. rewrite from_ddb_attr_single. cbn [String.eqb Ascii.eqb Bool.eqb].
    cbn [items rbind plain]. cbn [plain] in G. apply generic_dict in G.
    rewrite (dict_comp_encoded _from_ddb_attr plain d ws Ed); [reflexivity|].
    clear Ed. induction IH as [|x xs Hx _ IHxs]; [constructor|].
    cbn [map] in G. inversion G; subst. constructor; auto.
  - rewrite conv_other. cbn [plain].
    destruct (other_str o); cbn [rmap rbind]; [|discriminate].
    intros [= <-]. reflexivity.
Qed.

(** X5. The round trip loses exactly the objects of other types: for every
    record whose floats read back, whenever [to_ddb_item] returns on it,
    decoding the encoding returns the record with each such object
    replaced by its [str()] text and everything else as it was. *)
Theorem round_trip_plain (d w : record) :
  generic reads_back (plain (VDict d)) ->
  to_ddb_item d = Ok w ->
  normalize_record w = Ok (map (fun kv => (fst kv, plain (snd kv))) d).
Proof.
  intros G0 Ew. cbn [plain] in G0. apply generic_dict in G0.
  assert (G : Forall (fun kv => generic reads_back (plain (snd kv))) d).
  { rewrite Forall_forall in *. intros kv Hkv.
    apply (G0 (fst kv, plain (snd kv))).
    apply in_map_iff. exists kv. auto. }
  clear G0.
  apply (normalize_record_encoded d w _ Ew).
  apply (dict_comp_encoded _from_ddb_attr plain d w Ew).
  eapply Forall_impl; [|exact G].
  intros kv Gkv y. apply from_ddb_attr_conv_plain, Gkv.
Qed.


(** ** What the decoder raises *)

Lemma from_ddb_attr_raises (v : value) (e : exn) :
  _from_ddb_attr v = Raise e -> e = TypeError \/ e = AttributeError.
Proof.
  revert e. induction v as [v IH] using value_depth_ind. intros e E.
  destruct v as [| | | | | |d|]; try discriminate E.
  destruct d as [|[t x] [|kv d']]; try discriminate E.
  rewrite from_ddb_attr_single in E.
  pose proof (depth_wrapper t x) as D.
  destruct (String.eqb t "S"); [discriminate E|].
  destruct (String.eqb t "N").
  { destruct (from_number_returns x) as [r Hr]. congruence. }
  destruct (String.eqb t "BOOL"); [discriminate E|].
  destruct (String.eqb t "NULL"); [discriminate E|].
  destruct (String.eqb t "L").
  { destruct x as [| | | |s|l|d0|]; cbn [iterate rbind] in E;
      try (injection E as <-; left; reflexivity).
    - rewrite list_comp_texts in E by apply chars_texts. discriminate E.
    - destruct (list_comp _from_ddb_attr l) as [l'|e'] eqn:El; [discriminate E|].
      injection E as ->. apply list_comp_raises in El.
      destruct El as (y & Hy & Hf). apply (IH y); [|exact Hf].
      apply depth_in_list in Hy. lia.
    - rewrite list_comp_texts in E by apply keys_texts. discriminate E. }
  destruct (String.eqb t "M"); [|discriminate E].
  destruct x as [| | | | | |d0|]; cbn [items rbind] in E;
    try (injection E as <-; right; reflexivity).
  destruct (dict_comp _from_ddb_attr d0) as [d0'|e'] eqn:Ed; [discriminate E|].
  injection E as ->. unfold dict_comp in Ed. apply list_comp_raises in Ed.
  destruct Ed as (kv & Hkv & Hf).
  destruct (_from_ddb_attr (snd kv)) as [y|e'] eqn:Ey; [discriminate Hf|].
  injection Hf as ->. apply (IH (snd kv)); [|exact Ey].
  apply depth_in_dict in Hkv. lia.
Qed.


Lemma normalize_item_raises (x : value) (e : exn) :
  normalize_item x = Raise e -> e = TypeError \/ e = AttributeError.
Proof.
  destruct x; try (intros [= <-]; right; reflexivity).
  cbn [normalize_item]. unfold normalize_record.
  destruct (existsb looks_tagged (map snd d)); [|discriminate].
  intros E. unfold dict_comp in E. apply list_comp_raises in E.
  destruct E as ([k v] & Hin & Hf). cbn [fst snd] in Hf.
  destruct (_from_ddb_attr v) as [y|e'] eqn:Ev; [discriminate Hf|].
  injection Hf as ->. apply (from_ddb_attr_raises v e Ev).
Qed.

Lemma normalize_items_raise (l : list value) (e : exn) :
  list_comp normalize_item l = Raise e -> e = TypeError \/ e = AttributeError.
Proof.
  intros E. apply list_comp_raises in E. destruct E as (x & _ & Hx).
  exact (normalize_item_raises x e Hx).
Qed.

(** * Further properties of the writer *)

(** ** Runs, step by step *)

Lemma for_each_step {A} (body : A -> M unit) (x : A) (xs : list A) (s : backend) :
  for_each body (x :: xs) s =
    match body x s with
    | (Ok _, s1, t1) =>
        (fst (fst (for_each body xs s1)), snd (fst (for_each body xs s1)),
         (t1 ++ snd (for_each body xs s1))%list)
    | (Raise e, s1, t1) => (Raise e, s1, t1)
    end.
Proof.
  cbn [for_each]. rewrite bind_run.
  destruct (body x s) as [[[[]|e] s1] t1]; reflexivity.
Qed.

Lemma batch_write_items_chunks (table_name : string) (records : list record)
    (c max_retries : Z) (chunks : list (list record)) (s : backend) :
  chunks_of records c = Ok chunks ->
  batch_write_items table_name records c max_retries s
  = for_each (fun ic => write_chunk table_name (len chunks) max_retries
                                    (fst ic) (snd ic))
             (enumerate chunks 1) s.
Proof.
  intros E. unfold batch_write_items. rewrite E, bind_lift_Ok. reflexivity.
Qed.

Lemma length_enumerate {A} (l : list A) (k : Z) :
  List.length (enumerate l k) = List.length l.
Proof.
  revert k; induction l as [|x xs IH]; intros k; simpl; [|rewrite IH]; reflexivity.
Qed.

Lemma length_chunks (records : list record) (c : Z) (chunks : list (list record)) :
  1 <= c -> chunks_of records c = Ok chunks ->
  List.length chunks = Z.to_nat ((len records + c - 1) / c).
Proof.
  intros Hc E. rewrite chunks_of_windows in E by exact Hc.
  injection E as <-. rewrite length_map, length_seq. reflexivity.
Qed.

(** ** Degenerate sizes *)

(** X9. A zero batch size is a [ValueError] before anything is sent; a
    negative batch size, like an empty record list, yields no chunk: the
    write returns at once, having sent and printed nothing. *)
Theorem no_chunks_no_effects (table_name : string) (records : list record)
    (c max_retries : Z) (s : backend) :
  (c = 0 ->
   batch_write_items table_name records c max_retries s = (Raise ValueError, s, []))
  /\ (c < 0 ->
      batch_write_items table_name records c max_retries s = (Ok tt, s, []))
  /\ (records = [] -> c <> 0 ->
      batch_write_items table_name records c max_retries s = (Ok tt, s, [])).
Proof.
  split; [|split].
  - intros ->. reflexivity.
  - intros Hc. apply (batch_write_items_chunks _ _ _ _ []).
    unfold chunks_of, range3.
    destruct (Z.eqb_spec c 0) as [?|_]; [lia|].
    destruct (Z.ltb_spec 0 c) as [?|_]; [lia|].
    destruct (Z.ltb_spec (len records) 0) as [H|_]; [unfold len in H; lia|].
    reflexivity.
  - intros -> Hc. apply (batch_write_items_chunks _ _ _ _ []).
    unfold chunks_of, range3. cbn [len List.length Z.of_nat].
    destruct (Z.eqb_spec c 0) as [?|_]; [contradiction|].
    destruct (0 <? c); reflexivity.
Qed.

Lemma range_nonpositive (n : Z) : n <= 0 -> range n = [].
Proof.
  intros H. unfold range. replace (Z.to_nat n) with 0%nat by lia. reflexivity.
Qed.

Lemma for_each_no_attempts (table_name : string) (total max_retries : Z)
    (pairs : list (Z * list record)) (s : backend) :
  max_retries <= 0 ->
  let run := for_each (fun ic => write_chunk table_name total max_retries
                                             (fst ic) (snd ic)) pairs s in
  calls_of (snd run) = []
  /\ ((exists reqs, list_comp (put_requests table_name) (map snd pairs) = Ok reqs) ->
      run = (Ok tt, s, map (fun ic => Print (progress_line total ic)) pairs)).
Proof.
  intros Hm. cbv zeta. induction pairs as [|[i chunk] rest [IH1 IH2]].
  - split; reflexivity.
  - rewrite for_each_step. cbn [fst snd]. rewrite write_chunk_step.
    rewrite range_nonpositive by exact Hm. cbn [retry_loop ret app map snd].
    destruct (put_requests table_name chunk) as [req|e] eqn:Ereq.
    + cbn [fst snd]. rewrite calls_of_app. cbn [calls_of app].
      split; [exact IH1|].
      intros [reqs Hreqs]. cbn [list_comp] in Hreqs. rewrite Ereq in Hreqs.
      cbn [rbind] in Hreqs.
      destruct (list_comp (put_requests table_name) (map snd rest)) as [reqs'|e'];
        [|discriminate Hreqs].
      rewrite IH2 by eauto. reflexivity.
    + split; [reflexivity|].
      intros [reqs Hreqs]. cbn [list_comp] in Hreqs. rewrite Ereq in Hreqs.
      discriminate Hreqs.
Qed.

(** X10. With no attempt allowed (max_retries <= 0) nothing is sent to the
    backend; yet, the records being encoded all the same, the write
    returns normally when they encode and reports every chunk as written:
    its whole trace is then the progress lines of the chunks. *)
Theorem no_attempts_no_calls (table_name : string) (records : list record)
    (c max_retries : Z) (s : backend) :
  1 <= c -> max_retries <= 0 ->
  exists chunks,
    chunks_of records c = Ok chunks
    /\ calls_of (snd (batch_write_items table_name records c max_retries s)) = []
    /\ ((exists reqs, list_comp (put_requests table_name) chunks = Ok reqs) ->
        batch_write_items table_name records c max_retries s
        = (Ok tt, s,
           map (fun ic => Print (progress_line (len chunks) ic))
               (enumerate chunks 1))).
Proof.
  intros Hc Hm.
  destruct (chunks_of records c) as [chunks|e] eqn:E.
  2: { rewrite chunks_of_windows in E by exact Hc. discriminate E. }
  exists chunks. split; [reflexivity|].
  rewrite (batch_write_items_chunks _ _ _ _ chunks) by exact E.
  pose proof (for_each_no_attempts table_name (len chunks) max_retries
                (enumerate chunks 1) s Hm) as H.
  cbv zeta in H. rewrite enumerate_snd in H. exact H.
Qed.

(** ** Transport errors *)

Lemma propagates_app (r : result unit) (t1 t2 : list event) :
  Forall answered (calls_of t1) -> propagates r t2 -> propagates r (t1 ++ t2).
Proof.
  intros H1 H2. destruct r as [u|e]; cbn [propagates] in *.
  - rewrite calls_of_app. apply Forall_app. auto.
  - destruct H2 as [(tr' & req & -> & H2) | H2].
    + left. exists (t1 ++ tr')%list, req. split; [apply app_assoc|].
      rewrite calls_of_app. apply Forall_app. auto.
    + right. rewrite calls_of_app. apply Forall_app. auto.
Qed.

Lemma retry_loop_propagates (attempts : list Z) (req : request_items)
    (b : number) (s : backend) :
  propagates (fst (fst (retry_loop attempts req b s)))
             (snd (retry_loop attempts req b s)).
Proof.
  revert req b s; induction attempts as [|attempt rest IH]; intros req b s.
  - constructor.
  - rewrite retry_loop_step.
    destruct (batch_write_item req s) as [[resp|e] s1].
    + destruct (unprocessed_count (unprocessed_of resp) =? 0).
      * cbn. constructor; [eexists; reflexivity | constructor].
      * specialize (IH (unprocessed_of resp) (py_min (times2 b) (NInt 5)) s1).
        destruct (retry_loop rest _ _ s1) as [[r s2] t2]. cbn [fst snd] in *.
        apply (propagates_app r [Call req (Ok resp); Print _; Sleep b] t2);
          [|exact IH].
        cbn. constructor; [eexists; reflexivity | constructor].
    + cbn. left. exists [], req. split; [reflexivity | constructor].
Qed.

Lemma write_chunk_propagates (table_name : string) (total max_retries i : Z)
    (chunk : list record) (s : backend) :
  propagates (fst (fst (write_chunk table_name total max_retries i chunk s)))
             (snd (write_chunk table_name total max_retries i chunk s)).
Proof.
  rewrite write_chunk_step.
  destruct (put_requests table_name chunk) as [req|e]; [|right; constructor].
  pose proof (retry_loop_propagates (range max_retries) req (NFloat 0.2) s) as H.
  destruct (retry_loop _ _ _ s) as [[[[]|e] s1] t1]; cbn [fst snd] in *.
  - apply propagates_app; [exact H | constructor].
  - exact H.
Qed.

Lemma for_each_propagates (table_name : string) (total max_retries : Z)
    (pairs : list (Z * list record)) (s : backend) :
  let run := for_each (fun ic => write_chunk table_name total max_retries
                                             (fst ic) (snd ic)) pairs s in
  propagates (fst (fst run)) (snd run).
Proof.
  revert s; induction pairs as [|[i chunk] rest IH]; intros s.
  - constructor.
  - cbv zeta. rewrite for_each_step. cbn [fst snd].
    pose proof (write_chunk_propagates table_name total max_retries i chunk s) as H.
    destruct (write_chunk _ _ _ i chunk s) as [[[[]|e] s1] t1]; cbn [fst snd] in *.
    + apply propagates_app; [exact H | apply IH].
    + exact H.
Qed.

Lemma propagates_raising_call (r : result unit) (tr : list event)
    (req : request_items) (e : exn) :
  propagates r tr ->
  In (req, Raise e) (calls_of tr) ->
  r = Raise e
  /\ exists tr', tr = (tr' ++ [Call req (Raise e)])%list
                 /\ Forall answered (calls_of tr').
Proof.
  assert (N : forall calls, Forall answered calls -> ~ In (req, Raise e) calls).
  { intros calls F H. rewrite Forall_forall in F.
    destruct (F _ H) as [resp Hresp]. discriminate Hresp. }
  intros P H. destruct r as [u|e0]; cbn [propagates] in P.
  - destruct (N _ P H).
  - destruct P as [(tr' & req0 & -> & F) | F]; [|destruct (N _ F H)].
    rewrite calls_of_app in H. apply in_app_or in H.
    destruct H as [H | [H | []]]; [destruct (N _ F H)|].
    injection H as -> ->. eauto.
Qed.

(** X11. A transport error is not retried: when a batch-write call raises,
    the write raises the same exception at once, that call being the last
    event of the run and every call before it answered; and the write
    returns normally only if every call was answered. *)
Theorem transport_error_propagates (table_name : string) (records : list record)
    (c max_retries : Z) (s : backend) :
  c <> 0 ->
  let run := batch_write_items table_name records c max_retries s in
  propagates (fst (fst run)) (snd run)
  /\ forall req e,
       In (req, Raise e) (calls_of (snd run)) ->
       fst (fst run) = Raise e
       /\ exists tr', snd run = (tr' ++ [Call req (Raise e)])%list
                      /\ Forall answered (calls_of tr').
Proof.
  intros Hc run.
  assert (P : propagates (fst (fst run)) (snd run)).
  { subst run. destruct (chunks_of records c) as [chunks|e] eqn:E.
    - rewrite (batch_write_items_chunks _ _ _ _ chunks) by exact E.
      apply for_each_propagates.
    - unfold chunks_of, range3 in E.
      destruct (Z.eqb_spec c 0) as [?|_]; [contradiction | discriminate E]. }
  split; [exact P|].
  intros req e. apply propagates_raising_call, P.
Qed.

(** ** How many calls *)

Lemma retry_loop_first_call (attempt : Z) (rest : list Z) (req : request_items)
    (b : number) (s : backend) :
  (1 <= List.length (calls_of (snd (retry_loop (attempt :: rest) req b s))))%nat.
Proof.
  rewrite retry_loop_step.
  destruct (batch_write_item req s) as [[resp|e] s1]; [|cbn; lia].
  destruct (unprocessed_count (unprocessed_of resp) =? 0); [cbn; lia|].
  destruct (retry_loop rest _ _ s1) as [[r s2] t2]. cbn. lia.
Qed.

Lemma write_chunk_calls (table_name : string) (total max_retries i : Z)
    (chunk : list record) (s : backend) :
  let run := write_chunk table_name total max_retries i chunk s in
  (List.length (calls_of (snd run)) <= Z.to_nat max_retries)%nat
  /\ (fst (fst run) = Ok tt -> 1 <= max_retries ->
      (1 <= List.length (calls_of (snd run)))%nat).
Proof.
  cbv zeta. rewrite write_chunk_step.
  destruct (put_requests table_name chunk) as [req|e];
    [|cbn; split; [lia | discriminate]].
  pose proof (retry_loop_resubmits (range max_retries) req (NFloat 0.2) s) as [_ B].
  rewrite length_range in B.
  assert (F : 1 <= max_retries ->
              (1 <= List.length (calls_of (snd (retry_loop (range max_retries)
                     req (NFloat 0.2) s))))%nat).
  { intros Hm. unfold range.
    destruct (Z.to_nat max_retries) as [|n] eqn:En; [lia|].
    cbn [seq map]. apply retry_loop_first_call. }
  destruct (retry_loop _ _ _ s) as [[[[]|e] s1] t1]; cbn [fst snd] in *.
  - rewrite calls_of_app. cbn [calls_of]. rewrite app_nil_r. auto.
  - split; [exact B | discriminate].
Qed.

Lemma for_each_calls (table_name : string) (total max_retries : Z)
    (pairs : list (Z * list record)) (s : backend) :
  let run := for_each (fun ic => write_chunk table_name total max_retries
                                             (fst ic) (snd ic)) pairs s in
  (List.length (calls_of (snd run)) <= List.length pairs * Z.to_nat max_retries)%nat
  /\ (fst (fst run) = Ok tt -> 1 <= max_retries ->
      (List.length pairs <= List.length (calls_of (snd run)))%nat).
Proof.
  revert s; induction pairs as [|[i chunk] rest IH]; intros s.
  - cbn. split; [lia | intros; lia].
  - cbv zeta. rewrite for_each_step. cbn [fst snd].
    pose proof (write_chunk_calls table_name total max_retries i chunk s) as [U L].
    cbv zeta in U, L.
    destruct (write_chunk _ _ _ i chunk s) as [[[[]|e] s1] t1]; cbn [fst snd] in *.
    + destruct (IH s1) as [IU IL]. rewrite calls_of_app, length_app.
      cbn [List.length Nat.mul].
      split; [lia|]. intros Hr Hm. specialize (IL Hr Hm).
      specialize (L eq_refl Hm). lia.
    + cbn [List.length Nat.mul]. split; [lia | discriminate].
Qed.

(** X12. The retries are bounded: for a list of N records and chunk size
    C >= 1 the write makes at most ceil(N / C) * max_retries batch-write
    calls, whatever the backend answers; and when it returns normally with
    max_retries >= 1 it has made at least one call per chunk. *)
Theorem calls_bounded (table_name : string) (records : list record)
    (c max_retries : Z) (s : backend) :
  1 <= c ->
  let run := batch_write_items table_name records c max_retries s in
  let chunks := Z.to_nat ((len records + c - 1) / c) in
  (List.length (calls_of (snd run)) <= chunks * Z.to_nat max_retries)%nat
  /\ (fst (fst run) = Ok tt -> 1 <= max_retries ->
      (chunks <= List.length (calls_of (snd run)))%nat).
Proof.
  intros Hc. cbv zeta.
  destruct (chunks_of records c) as [chunks|e] eqn:E.
  2: { rewrite chunks_of_windows in E by exact Hc. discriminate E. }
  rewrite (batch_write_items_chunks _ _ _ _ chunks) by exact E.
  rewrite <- (length_chunks records c chunks Hc E).
  rewrite <- (length_enumerate chunks 1).
  apply for_each_calls.
Qed.

(** ** Sleeps *)

Lemma retry_loop_sleeps_count (attempts : list Z) (req : request_items)
    (b : number) (s : backend) :
  List.length (sleeps_of (snd (retry_loop attempts req b s)))
  = List.length (filter reports_unprocessed
                        (calls_of (snd (retry_loop attempts req b s)))).
Proof.
  revert req b s; induction attempts as [|attempt rest IH]; intros req b s.
  - reflexivity.
  - rewrite retry_loop_step.
    destruct (batch_write_item req s) as [[resp|e] s1]; [|reflexivity].
    destruct (unprocessed_count (unprocessed_of resp) =? 0) eqn:Ec.
    + cbn [snd calls_of sleeps_of filter]. unfold reports_unprocessed.
      cbn [snd]. rewrite Ec. reflexivity.
    + specialize (IH (unprocessed_of resp) (py_min (times2 b) (NInt 5)) s1).
      destruct (retry_loop rest _ _ s1) as [[r s2] t2].
      cbn [snd calls_of sleeps_of filter] in *. unfold reports_unprocessed at 1.
      cbn [snd]. rewrite Ec. cbn [negb List.length]. rewrite IH. reflexivity.
Qed.

(** X13. The loop sleeps exactly once after each answer that reported
    unprocessed items, the answer to the last attempt included: the
    number of sleeps of a write is the number of such answers. *)
Theorem sleeps_follow_unprocessed (table_name : string) (records : list record)
    (c max_retries : Z) (s : backend) :
  let run := batch_write_items table_name records c max_retries s in
  List.length (sleeps_of (snd run))
  = List.length (filter reports_unprocessed (calls_of (snd run))).
Proof.
  cbv zeta.
  destruct (chunks_of records c) as [chunks|e] eqn:E.
  2: { unfold batch_write_items. rewrite E. reflexivity. }
  rewrite (batch_write_items_chunks _ _ _ _ chunks) by exact E.
  generalize (len chunks) as total. intros total.
  generalize (enumerate chunks 1) as pairs. intros pairs. revert s.
  induction pairs as [|[i chunk] rest IH]; intros s; [reflexivity|].
  rewrite for_each_step. cbn [fst snd]. rewrite write_chunk_step.
  destruct (put_requests table_name chunk) as [req|e]; [|reflexivity].
  pose proof (retry_loop_sleeps_count (range max_retries) req (NFloat 0.2) s) as H.
  destruct (retry_loop _ _ _ s) as [[[[]|e] s1] t1]; cbn [fst snd] in *.
  - rewrite !sleeps_of_app, !calls_of_app, !filter_app, !length_app.
    rewrite H, (IH s1). reflexivity.
  - exact H.
Qed.

(** ** Progress lines *)

Lemma infos_of_app (t1 t2 : list event) :
  infos_of (t1 ++ t2) = (infos_of t1 ++ infos_of t2)%list.
Proof.
  induction t1 as [|[] t1 IH]; try exact IH.
  - reflexivity.
  - change (infos_of ((Print line :: t1) ++ t2))
      with (if String.prefix "[INFO] " line
            then line :: infos_of (t1 ++ t2) else infos_of (t1 ++ t2)).
    cbn [infos_of]. rewrite IH.
    destruct (String.prefix "[INFO] " line); reflexivity.
Qed.

Lemma retry_loop_no_info (attempts : list Z) (req : request_items)
    (b : number) (s : backend) :
  infos_of (snd (retry_loop attempts req b s)) = [].
Proof.
  revert req b s; induction attempts as [|attempt rest IH]; intros req b s.
  - reflexivity.
  - rewrite retry_loop_step.
    destruct (batch_write_item req s) as [[resp|e] s1]; [|reflexivity].
    destruct (unprocessed_count (unprocessed_of resp) =? 0); [reflexivity|].
    specialize (IH (unprocessed_of resp) (py_min (times2 b) (NInt 5)) s1).
    destruct (retry_loop rest _ _ s1) as [[r s2] t2]. cbn [snd] in *.
    cbn. exact IH.
Qed.

(** X14. One progress line per completed chunk: the progress lines of a write
    are those of its first k chunks, numbered from 1 and each giving the
    total and the size of the chunk, where k is the number of chunks when
    the write returns normally. *)
Theorem progress_lines (table_name : string) (records : list record)
    (c max_retries : Z) (s : backend) :
  1 <= c ->
  let run := batch_write_items table_name records c max_retries s in
  exists chunks k,
    chunks_of records c = Ok chunks
    /\ (k <= List.length chunks)%nat
    /\ infos_of (snd run)
       = map (progress_line (len chunks)) (firstn k (enumerate chunks 1))
    /\ (fst (fst run) = Ok tt -> k = List.length chunks).
Proof.
  intros Hc. cbv zeta.
  destruct (chunks_of records c) as [chunks|e] eqn:E.
  2: { rewrite chunks_of_windows in E by exact Hc. discriminate E. }
  exists chunks. rewrite (batch_write_items_chunks _ _ _ _ chunks) by exact E.
  rewrite <- (length_enumerate chunks 1).
  generalize (len chunks) as total. intros total.
  generalize (enumerate chunks 1) as pairs. intros pairs.
  enough (H : exists k,
            (k <= List.length pairs)%nat
            /\ infos_of (snd (for_each (fun ic => write_chunk table_name total
                                 max_retries (fst ic) (snd ic)) pairs s))
               = map (progress_line total) (firstn k pairs)
            /\ (fst (fst (for_each (fun ic => write_chunk table_name total
                            max_retries (fst ic) (snd ic)) pairs s)) = Ok tt ->
                k = List.length pairs)).
  { destruct H as (k & H). exists k. split; [reflexivity | exact H]. }
  revert s; induction pairs as [|[i chunk] rest IH]; intros s.
  - exists 0%nat. cbn. auto.
  - rewrite for_each_step. cbn [fst snd]. rewrite write_chunk_step.
    destruct (put_requests table_name chunk) as [req|e].
    2: { exists 0%nat. cbn [List.length firstn map fst snd]. split; [lia|].
         split; [reflexivity | discriminate]. }
    pose proof (retry_loop_no_info (range max_retries) req (NFloat 0.2) s) as N.
    destruct (retry_loop _ _ _ s) as [[[[]|e] s1] t1]; cbn [fst snd] in *.
    + destruct (IH s1) as (k & Hk & Hi & Hr).
      exists (S k). cbn [List.length firstn map]. split; [lia|].
      rewrite !infos_of_app, N, Hi. split; [reflexivity|].
      intros H. rewrite (Hr H). reflexivity.
    + exists 0%nat. cbn [List.length firstn map]. split; [lia|].
      split; [exact N | discriminate].
Qed.

(** ** What is submitted *)

Lemma within_refl (req : request_items) : within req req.
Proof.
  intros t items H. exists items. split; [exact H | apply incl_refl].
Qed.

Lemma within_trans (r0 r1 r2 : request_items) :
  within r0 r1 -> within r1 r2 -> within r0 r2.
Proof.
  intros H01 H12 t items H.
  destruct (H12 t items H) as (items1 & H1 & I1).
  destruct (H01 t items1 H1) as (items0 & H0 & I0).
  exists items0. split; [exact H0 | eapply incl_tran; eauto].
Qed.

Lemma retry_loop_within (attempts : list Z) (req0 req : request_items)
    (b : number) (s : backend) :
  reports_only_submitted ->
  within req0 req ->
  Forall (within req0) (requests_of (snd (retry_loop attempts req b s))).
Proof.
  intros Hb. revert req b s; induction attempts as [|attempt rest IH];
    intros req b s Hreq.
  - constructor.
  - rewrite retry_loop_step. specialize (Hb req s).
    destruct (batch_write_item req s) as [[resp|e] s1]; cbn [fst] in Hb.
    + specialize (Hb resp eq_refl).
      destruct (unprocessed_count (unprocessed_of resp) =? 0).
      * cbn. constructor; [exact Hreq | constructor].
      * specialize (IH (unprocessed_of resp) (py_min (times2 b) (NInt 5)) s1
                       (within_trans _ _ _ Hreq Hb)).
        destruct (retry_loop rest _ _ s1) as [[r s2] t2]. cbn [snd] in *.
        unfold requests_of in *. cbn [calls_of map fst].
        constructor; [exact Hreq | exact IH].
    + cbn. constructor; [exact Hreq | constructor].
Qed.

Lemma in_window {A} (x : A) (l : list A) (n k : nat) :
  In x (firstn n (skipn k l)) -> In x l.
Proof.
  intros H. rewrite <- (firstn_skipn k l). apply in_or_app. right.
  rewrite <- (firstn_skipn n (skipn k l)). apply in_or_app. left. exact H.
Qed.

Lemma in_chunk_in_records (records : list record) (c : Z)
    (chunks : list (list record)) (chunk : list record) (rec : record) :
  1 <= c -> chunks_of records c = Ok chunks ->
  In chunk chunks -> In rec chunk -> In rec records.
Proof.
  intros Hc E Hchunk Hrec. rewrite chunks_of_windows in E by exact Hc.
  injection E as <-. apply in_map_iff in Hchunk.
  destruct Hchunk as (k & <- & _).
  eapply in_window, Hrec.
Qed.

Lemma Forall2_In_right {A B} (R : A -> B -> Prop) (l : list A) (l' : list B)
    (y : B) :
  Forall2 R l l' -> In y l' -> exists x, In x l /\ R x y.
Proof.
  induction 1 as [|x y' xs ys Hxy _ IH]; [intros []|].
  intros [<- | Hy].
  - exists x. split; [left; reflexivity | exact Hxy].
  - destruct (IH Hy) as (x' & Hx' & Hr). exists x'. split; [right|]; assumption.
Qed.

(** X15. Nothing but the given records is ever submitted, as long as the
    backend reports as unprocessed only items it was sent: every item of
    every request of the write, first attempts and retries alike, is the
    put request of the encoding of one of the records, for the given
    table. *)
Theorem submits_only_records (table_name : string) (records : list record)
    (c max_retries : Z) (s : backend) :
  1 <= c ->
  reports_only_submitted ->
  forall req t items item,
    In req (requests_of (snd (batch_write_items table_name records c max_retries s))) ->
    In (t, items) req ->
    In item items ->
    t = table_name
    /\ exists rec w, In rec records
                     /\ to_ddb_item rec = Ok w
                     /\ item = VDict [("PutRequest", VDict [("Item", VDict w)])].
Proof.
  intros Hc Hb.
  destruct (chunks_of records c) as [chunks|e] eqn:E.
  2: { rewrite chunks_of_windows in E by exact Hc. discriminate E. }
  rewrite (batch_write_items_chunks _ _ _ _ chunks) by exact E.
  assert (Hin : forall ic, In ic (enumerate chunks 1) -> In (snd ic) chunks).
  { intros ic Hic. rewrite <- (enumerate_snd chunks 1). apply in_map, Hic. }
  revert Hin. generalize (len chunks) as total. intros total.
  generalize (enumerate chunks 1) as pairs. intros pairs. revert s.
  induction pairs as [|[i chunk] rest IH]; intros s Hin req t items item Hreq Ht Hitem.
  - destruct Hreq.
  - rewrite for_each_step in Hreq. cbn [fst snd] in Hreq.
    rewrite write_chunk_step in Hreq.
    destruct (put_requests table_name chunk) as [req0|e] eqn:Ereq;
      [|destruct Hreq].
    pose proof (retry_loop_within (range max_retries) req0 req0 (NFloat 0.2) s Hb
                  (within_refl _)) as W.
    assert (Hhere : In req (requests_of (snd (retry_loop (range max_retries)
                       req0 (NFloat 0.2) s))) ->
                    t = table_name
                    /\ exists rec w, In rec records
                         /\ to_ddb_item rec = Ok w
                         /\ item = VDict [("PutRequest", VDict [("Item", VDict w)])]).
    { intros Hr. rewrite Forall_forall in W.
      destruct (W req Hr t items Ht) as (items0 & H0 & I0).
      apply put_requests_Ok in Ereq. destruct Ereq as (items1 & Hi & ->).
      destruct H0 as [H0|[]]. injection H0 as <- <-.
      split; [reflexivity|]. apply I0 in Hitem.
      apply list_comp_Ok_iff in Hi.
      destruct (Forall2_In_right _ _ _ item Hi Hitem) as (rec & Hrec & Hw).
      destruct (to_ddb_item rec) as [w|e'] eqn:Ew; [|discriminate Hw].
      injection Hw as <-. exists rec, w. split; [|split; [exact Ew | reflexivity]].
      apply (in_chunk_in_records records c chunks chunk rec Hc E); [|exact Hrec].
      apply (Hin (i, chunk)). left. reflexivity. }
    destruct (retry_loop _ _ _ s) as [[[[]|e] s1] t1]; cbn [fst snd] in *.
    + rewrite !requests_of_app in Hreq. apply in_app_or in Hreq.
      destruct Hreq as [Hreq|Hreq].
      * apply in_app_or in Hreq. destruct Hreq as [Hreq|[]]. apply Hhere, Hreq.
      * apply (IH s1 (fun ic H => Hin ic (or_intror H)) req t items item Hreq Ht Hitem).
    + apply Hhere, Hreq.
Qed.

(** * Further properties of the import *)

(** ** The prepared records *)

Lemma coerce_patient_id_keys (r r' : record) :
  coerce_patient_id r = Ok r' -> map fst r' = map fst r.
Proof. intros H. apply (coerce_patient_id_coerced r r' H). Qed.

Lemma coerce_patient_id_has (k : string) (r r' : record) :
  coerce_patient_id r = Ok r' -> dict_has k r' = dict_has k r.
Proof.
  intros H. apply eq_true_iff_eq.
  rewrite !dict_has_In, (coerce_patient_id_keys r r' H). reflexivity.
Qed.

Lemma coerce_patient_id_text (r r' : record) (v : value) :
  coerce_patient_id r = Ok r' ->
  dict_get "patient_id" r' = Some v -> isinstance_str v = true.
Proof.
  intros Hr. destruct (coerce_patient_id_coerced r r' Hr) as [_ H].
  specialize (H "patient_id").
  destruct (dict_get "patient_id" r) as [v0|]; [|congruence].
  cbn [String.eqb Ascii.eqb Bool.eqb andb] in H.
  destruct (isinstance_str v0) eqn:E; cbn [negb] in H.
  - rewrite H. intros [= <-]. exact E.
  - destruct H as (t & _ & ->). intros [= <-]. reflexivity.
Qed.

Lemma dict_get_to_ddb_item (k : string) (r item : record) :
  to_ddb_item r = Ok item ->
  match dict_get k r with
  | Some v => exists w, conv v = Ok w /\ dict_get k item = Some w
  | None => dict_get k item = None
  end.
Proof.
  unfold to_ddb_item. intros H. apply dict_comp_Ok_iff in H.
  induction H as [|kv kv' d d' [Hk Hv] _ IH]; [reflexivity|].
  destruct kv as [k0 v], kv' as [k' w]. cbn [fst snd] in Hk, Hv. subst k'.
  cbn [dict_get]. destruct (String.eqb k0 k); [eauto | exact IH].
Qed.

(** X16. Every record that [main] hands to the writer has the primary key
    [summarize_job_name], and its [patient_id], when it has one, is a
    string, so that the item submitted for it carries [patient_id] under
    the S tag, the type the table declares for that index key. *)
Theorem prepared_records_keys (records prepared : list record) (r : record) :
  prepare_records records = Ok prepared ->
  In r prepared ->
  dict_has "summarize_job_name" r = true
  /\ (forall v, dict_get "patient_id" r = Some v -> isinstance_str v = true)
  /\ (forall item w, to_ddb_item r = Ok item ->
                     dict_get "patient_id" item = Some w ->
                     exists s, w = VDict [("S", VStr s)]).
Proof.
  unfold prepare_records. intros H Hr. apply list_comp_Ok_iff in H.
  destruct (Forall2_In_right _ _ _ r H Hr) as (r0 & H0 & Hc).
  apply filter_In in H0. destruct H0 as [_ Hpk].
  split; [rewrite (coerce_patient_id_has _ r0 r Hc); exact Hpk|].
  split; [intros v; apply (coerce_patient_id_text r0 r v Hc)|].
  intros item w Hitem Hw.
  pose proof (dict_get_to_ddb_item "patient_id" r item Hitem) as G.
  destruct (dict_get "patient_id" r) as [v|] eqn:E; [|congruence].
  apply (coerce_patient_id_text r0 r v Hc) in E.
  destruct G as (w' & Hconv & Hget). rewrite Hget in Hw. injection Hw as <-.
  destruct v; try discriminate E. rewrite conv_text in Hconv.
  injection Hconv as <-. eexists. reflexivity.
Qed.

Lemma coerce_patient_id_idempotent (r r' : record) :
  coerce_patient_id r = Ok r' -> coerce_patient_id r' = Ok r'.
Proof.
  intros H. unfold coerce_patient_id.
  destruct (dict_get "patient_id" r') as [v|] eqn:E; [|reflexivity].
  apply (coerce_patient_id_text r r' v H) in E. rewrite E. reflexivity.
Qed.

Lemma prepare_kept (l rs : list record) :
  Forall (fun r => dict_has "summarize_job_name" r = true) l ->
  list_comp coerce_patient_id l = Ok rs ->
  list_comp coerce_patient_id (filter (dict_has "summarize_job_name") rs) = Ok rs.
Proof.
  intros F H. apply list_comp_Ok_iff in H.
  induction H as [|r r' l' rs' Hc _ IH]; [reflexivity|].
  inversion F as [|? ? Hpk F']; subst.
  cbn [filter]. rewrite (coerce_patient_id_has _ r r' Hc), Hpk.
  cbn [list_comp]. rewrite (coerce_patient_id_idempotent r r' Hc).
  cbn [rbind]. rewrite (IH F'). reflexivity.
Qed.

(** X17. Preparing is idempotent: when preparing returns, preparing the
    records it returned returns them as they are. *)
Theorem prepare_records_idempotent (records prepared : list record) :
  prepare_records records = Ok prepared ->
  prepare_records prepared = Ok prepared.
Proof.
  unfold prepare_records. apply prepare_kept.
  apply Forall_forall. intros r Hr. apply filter_In in Hr. apply Hr.
Qed.

(** ** The import as a whole *)

Lemma list_comp_raises_at {A B} (f : A -> result B) (l : list A) :
  Exists (fun x => exists e, f x = Raise e) l -> exists e, list_comp f l = Raise e.
Proof.
  induction 1 as [x xs [e He]|x xs _ [e IH]]; cbn [list_comp].
  - rewrite He. cbn [rbind]. eauto.
  - destruct (f x); cbn [rbind]; [rewrite IH; cbn [rbind]|]; eauto.
Qed.

(** X18. The records are all normalized before anything else happens: if one
    element of the loaded list is not a mapping, or any element fails to
    decode, the import raises without having printed or written anything. *)
Theorem import_all_or_nothing (table : string) (data : list value) (s : backend) :
  (forall e, list_comp normalize_item data = Raise e ->
             main_import table data s = (Raise e, s, []))
  /\ (Exists (fun x => isinstance_dict x = false) data ->
      exists e, main_import table data s = (Raise e, s, [])).
Proof.
  assert (H : forall e, list_comp normalize_item data = Raise e ->
                        main_import table data s = (Raise e, s, [])).
  { intros e E. unfold main_import. rewrite E. reflexivity. }
  split; [exact H|].
  intros Hbad.
  destruct (list_comp_raises_at normalize_item data) as [e He].
  - eapply Exists_impl; [|exact Hbad].
    intros x Hx. exists AttributeError. destruct x; try reflexivity. discriminate Hx.
  - exists e. apply H, He.
Qed.

Lemma prepare_records_nil (records : list record) :
  prepare_records records = Ok []
  <-> Forall (fun r => dict_has "summarize_job_name" r = false) records.
Proof.
  unfold prepare_records. split.
  - intros H. apply list_comp_length in H. cbn [List.length] in H.
    apply Forall_forall. intros r Hr.
    destruct (dict_has "summarize_job_name" r) eqn:E; [|reflexivity].
    assert (Hin : In r (filter (dict_has "summarize_job_name") records))
      by (apply filter_In; auto).
    destruct (filter _ records); [destruct Hin | discriminate H].
  - intros H. induction H as [|r rs Hr _ IH]; [reflexivity|].
    cbn [filter]. rewrite Hr. exact IH.
Qed.

Lemma write_chunk_first_call (table_name : string) (total max_retries i : Z)
    (chunk : list record) (req : request_items) (s : backend) :
  put_requests table_name chunk = Ok req ->
  1 <= max_retries ->
  (1 <= List.length (calls_of (snd (write_chunk table_name total max_retries
                                                i chunk s))))%nat.
Proof.
  intros E Hm. rewrite write_chunk_step, E.
  assert (F : (1 <= List.length (calls_of (snd (retry_loop (range max_retries)
                     req (NFloat 0.2) s))))%nat).
  { unfold range. destruct (Z.to_nat max_retries) as [|n] eqn:En; [lia|].
    cbn [seq map]. apply retry_loop_first_call. }
  destruct (retry_loop _ _ _ s) as [[[[]|e] s1] t1]; cbn [fst snd] in *;
    [|exact F].
  rewrite calls_of_app. cbn [calls_of]. rewrite app_nil_r. exact F.
Qed.

Lemma first_chunk (prepared : list record) (c : Z) :
  1 <= c -> prepared <> [] ->
  exists chunks,
    chunks_of prepared c = Ok (firstn (Z.to_nat c) prepared :: chunks).
Proof.
  intros Hc Hne. rewrite chunks_of_windows by exact Hc.
  destruct (Z.to_nat ((len prepared + c - 1) / c)) as [|n] eqn:En.
  - exfalso. destruct prepared as [|r0 rs0]; [contradiction|].
    pose proof (ceil_bounds (len (r0 :: rs0)) c ltac:(lia)
                  ltac:(unfold len; lia)) as B.
    unfold len in *. cbn [List.length] in *. nia.
  - cbn [seq map]. rewrite Nat.mul_0_l. cbn [skipn]. eauto.
Qed.

(** X19. When the import calls the backend.  Once the records are
    normalized, the import makes no call in exactly three cases: no record
    has the primary key (it then returns normally after its warnings, the
    backend untouched); a [patient_id] cannot be converted to text; or a
    record of the first chunk of 25 cannot be encoded.  Otherwise at
    least one batch-write call is made. *)
Theorem import_writes_iff_valid (table : string) (data : list value)
    (records : list record) (s : backend) :
  list_comp normalize_item data = Ok records ->
  (calls_of (snd (main_import table data s)) = []
   <-> Forall (fun r => dict_has "summarize_job_name" r = false) records
       \/ (exists e, prepare_records records = Raise e)
       \/ (exists prepared e,
             prepare_records records = Ok prepared
             /\ put_requests table (firstn 25 prepared) = Raise e))
  /\ (Forall (fun r => dict_has "summarize_job_name" r = false) records ->
      fst (fst (main_import table data s)) = Ok tt
      /\ snd (fst (main_import table data s)) = s).
Proof.
  intros H. rewrite (main_import_after_normalize table data records s H).
  cbv zeta. rewrite <- prepare_records_nil.
  set (pre := if negb _ then _ else _).
  assert (Hpre : calls_of pre = []) by (subst pre; destruct (negb _); reflexivity).
  destruct (prepare_records records) as [prepared|e0] eqn:Ep.
  2: { cbn [fst snd]. split; [|discriminate].
       split; [intros _; right; left; eauto | intros _; exact Hpre]. }
  destruct (len prepared =? 0) eqn:E.
  - apply len_zero in E. subst prepared. cbn [fst snd].
    rewrite calls_of_app, Hpre. split; [split; auto | auto].
  - assert (Hne : prepared <> []).
    { intros Hnil. rewrite Hnil in E. discriminate E. }
    split; [|intros [= Hnil]; contradiction].
    destruct (first_chunk prepared 25 ltac:(lia) Hne) as (chunks' & Ec).
    change (Z.to_nat 25) with 25%nat in Ec.
    assert (Hcalls : calls_of (snd (batch_write_items table prepared 25 5 s)) = []
                     <-> exists e, put_requests table (firstn 25 prepared) = Raise e).
    { rewrite (batch_write_items_chunks _ _ _ _ _ s Ec).
      cbn [enumerate]. rewrite for_each_step. cbn [fst snd].
      destruct (put_requests table (firstn 25 prepared)) as [req|e] eqn:Er.
      - pose proof (write_chunk_first_call table (len (firstn 25 prepared :: chunks'))
                      5 1 (firstn 25 prepared) req s Er ltac:(lia)) as L.
        split; [|intros [e He]; discriminate He].
        intros Hc. exfalso.
        apply (f_equal (@List.length _)) in Hc. cbn [List.length] in Hc.
        destruct (write_chunk _ _ _ 1 _ s) as [[[[]|e] s1] t1]; cbn [fst snd] in *.
        + rewrite calls_of_app, length_app in Hc. lia.
        + lia.
      - rewrite write_chunk_step, Er. cbn [snd calls_of]. split; eauto. }
    assert (Hrun : calls_of
                     (snd (match batch_write_items table prepared 25 5 s with
                           | (Ok _, s1, t1) =>
                               (Ok tt, s1,
                                (pre ++ t1
                                 ++ [Print ("[INFO] " ++ "Import complete. Example query:")])%list)
                           | (Raise e, s1, t1) => (Raise e, s1, (pre ++ t1)%list)
                           end))
                   = calls_of (snd (batch_write_items table prepared 25 5 s))).
    { destruct (batch_write_items table prepared 25 5 s) as [[[[]|e] s1] t1];
        cbn [fst snd]; rewrite ?calls_of_app, Hpre; cbn [app calls_of];
        [apply app_nil_r | reflexivity]. }
    rewrite Hrun, Hcalls. split.
    + intros [e He]. right. right. exists prepared, e. auto.
    + intros [[= Hnil]|[[e He]|(p & e & [= <-] & He)]];
        [contradiction | discriminate He | eauto].
Qed.

(** * Properties of the setup and of the script *)

Lemma pbind_run {A B} (m : P A) (k : A -> P B) (s : backend) :
  pbind m k s =
    match m s with
    | (Done a, s1, t1) =>
        (fst (fst (k a s1)), snd (fst (k a s1)), (t1 ++ snd (k a s1))%list)
    | (Failed f, s1, t1) => (Failed f, s1, t1)
    end.
Proof.
  unfold pbind. destruct (m s) as [[[a|f] s1] t1]; [|reflexivity].
  destruct (k a s1) as [[r s2] t2]. reflexivity.
Qed.

Lemma of_M_info (msg : string) (s : backend) :
  of_M (info msg) s = (Done tt, s, [Effect (Print ("[INFO] " ++ msg))]).
Proof. reflexivity. Qed.

Lemma of_M_warn (msg : string) (s : backend) :
  of_M (warn msg) s = (Done tt, s, [Effect (Print ("[WARN] " ++ msg))]).
Proof. reflexivity. Qed.

(** ** [ensure_table] *)

(** [ensure_table], case by case on what the three table operations do. *)
Lemma ensure_table_run (name : string) (s : backend) :
  ensure_table name s =
    match describe_table name s with
    | (TableFound, s1) =>
        (Done tt, s1,
         [DescribeTable name;
          Effect (Print ("[INFO] " ++ ("DynamoDB table exists: " ++ name)))])
    | (DescribeClientError code, s1) =>
        if is_not_found code then
          let t0 := [DescribeTable name;
                     Effect (Print ("[INFO] " ++ ("Creating DynamoDB table: " ++ name)));
                     CreateTable (table_schema name)] in
          match create_table (table_schema name) s1 with
          | (Done _, s2) =>
              match wait_table_exists name s2 with
              | (Done _, s3) =>
                  (Done tt, s3,
                   (t0 ++ [WaitTableExists name;
                           Effect (Print ("[INFO] " ++ "Table created and active."))])%list)
              | (Failed f, s3) => (Failed f, s3, (t0 ++ [WaitTableExists name])%list)
              end
          | (Failed f, s2) => (Failed f, s2, t0)
          end
        else (Failed (Exception ClientError), s1, [DescribeTable name])
    | (DescribeError f, s1) => (Failed f, s1, [DescribeTable name])
    end.
Proof.
  unfold ensure_table.
  destruct (describe_table name s) as [[|code|f] s1]; try reflexivity.
  destruct (is_not_found code); [|reflexivity]. cbn [negb].
  rewrite pbind_run, of_M_info. cbn [fst snd]. rewrite pbind_run.
  unfold client.
  destruct (create_table (table_schema name) s1) as [[[]|f] s2]; [|reflexivity].
  cbn [fst snd]. rewrite pbind_run.
  destruct (wait_table_exists name s2) as [[[]|f] s3]; reflexivity.
Qed.

(** X20. [ensure_table] asks for a table to be created only when
    [describe_table] raised a ClientError with the code
    ResourceNotFoundException, and then with the fixed schema under the
    given name; any other outcome of [describe_table] leads to no
    creation. *)
Theorem ensure_table_creates_iff (name : string) (s : backend) (spec : table_spec) :
  In (CreateTable spec) (snd (ensure_table name s))
  <-> (exists code, fst (describe_table name s) = DescribeClientError code
                    /\ is_not_found code = true)
      /\ spec = table_schema name.
Proof.
  rewrite ensure_table_run.
  destruct (describe_table name s) as [[|code|f] s1]; cbn [fst snd].
  - split.
    + intros [H|[H|[]]]; discriminate H.
    + intros [(code & H & _) _]. discriminate H.
  - destruct (is_not_found code) eqn:E.
    + assert (T : forall r : outcome unit * backend * list step,
                (exists t, snd r = ([DescribeTable name;
                    Effect (Print ("[INFO] " ++ ("Creating DynamoDB table: " ++ name)));
                    CreateTable (table_schema name)] ++ t)%list
                   /\ ~ In (CreateTable spec) t) ->
                (In (CreateTable spec) (snd r)
                 <-> (exists code0, DescribeClientError code = DescribeClientError code0
                                    /\ is_not_found code0 = true)
                     /\ spec = table_schema name)).
      { intros r (t & -> & Ht). split.
        - intros [H|[H|[H|H]]]; try discriminate H.
          + injection H as <-. split; [exists code; auto | reflexivity].
          + contradiction.
        - intros [_ ->]. right. right. left. reflexivity. }
      cbv zeta.
      destruct (create_table (table_schema name) s1) as [[[]|f] s2].
      * destruct (wait_table_exists name s2) as [[[]|f] s3]; apply T; cbn [snd].
        -- eexists. split; [reflexivity|]. intros [H|[H|[]]]; discriminate H.
        -- eexists. split; [reflexivity|]. intros [H|[]]; discriminate H.
      * apply T. exists []. split; [reflexivity | intros []].
    + split.
      * intros [H|[]]; discriminate H.
      * intros [(code0 & H & H0) _]. injection H as <-. congruence.
  - split.
    + intros [H|[]]; discriminate H.
    + intros [(code & H & _) _]. discriminate H.
Qed.

(** [ensure_table] returns normally exactly when the table is found, or
    is reported missing and both its creation and the wait for it
    succeed. *)
Lemma ensure_table_returns_iff (name : string) (s : backend) :
  fst (fst (ensure_table name s)) = Done tt
  <-> fst (describe_table name s) = TableFound
      \/ ((exists code, fst (describe_table name s) = DescribeClientError code
                        /\ is_not_found code = true)
          /\ fst (create_table (table_schema name) (snd (describe_table name s)))
             = Done tt
          /\ fst (wait_table_exists name
                    (snd (create_table (table_schema name)
                            (snd (describe_table name s)))))
             = Done tt).
Proof.
  rewrite ensure_table_run.
  destruct (describe_table name s) as [[|code|f] s1]; cbn [fst snd].
  - split; auto.
  - destruct (is_not_found code) eqn:E.
    + cbv zeta.
      destruct (create_table (table_schema name) s1) as [[[]|f] s2]; cbn [fst snd].
      * destruct (wait_table_exists name s2) as [[[]|f] s3]; cbn [fst snd].
        -- split; [|reflexivity]. intros _. right. eauto.
        -- split; [discriminate|]. intros [H|(_ & _ & H)]; discriminate H.
      * split; [discriminate|]. intros [H|(_ & H & _)]; discriminate H.
    + split; [discriminate|].
      intros [H|((code0 & H & H0) & _)]; [discriminate H|].
      injection H as <-. congruence.
  - split; [|intros [H|((code & H & _) & _)]; discriminate H].
    intros H. discriminate H || (destruct f; discriminate H).
Qed.

(** X21. Calling [ensure_table] again after it returned only describes the
    table: on a service where tables persist, the second call finds the
    table and creates nothing. *)
Theorem ensure_table_idempotent (name : string) (s : backend) :
  tables_persist ->
  fst (fst (ensure_table name s)) = Done tt ->
  let s1 := snd (fst (ensure_table name s)) in
  ensure_table name s1
  = (Done tt, snd (describe_table name s1),
     [DescribeTable name;
      Effect (Print ("[INFO] " ++ ("DynamoDB table exists: " ++ name)))]).
Proof.
  intros [Hfound Hcreated] Hr. cbv zeta.
  assert (F : fst (describe_table name (snd (fst (ensure_table name s)))) = TableFound).
  { rewrite ensure_table_run in Hr |- *.
    specialize (Hfound name s). specialize (Hcreated name (snd (describe_table name s))).
    destruct (describe_table name s) as [[|code|f] s1]; cbn [fst snd] in *.
    - apply Hfound. reflexivity.
    - destruct (is_not_found code); [|discriminate Hr]. cbv zeta in *.
      destruct (create_table (table_schema name) s1) as [[[]|f] s2];
        cbn [fst snd] in *; [|discriminate Hr].
      destruct (wait_table_exists name s2) as [[[]|f] s3];
        cbn [fst snd] in *; [|discriminate Hr].
      apply Hcreated; reflexivity.
    - destruct f; discriminate Hr. }
  rewrite (ensure_table_run name (snd (fst (ensure_table name s)))).
  destruct (describe_table name (snd (fst (ensure_table name s)))) as [d s2].
  cbn [fst snd] in *. subst d. reflexivity.
Qed.

(** ** The import inside the script *)

Lemma effects_of_app (t1 t2 : list step) :
  effects_of (t1 ++ t2) = (effects_of t1 ++ effects_of t2)%list.
Proof.
  induction t1 as [|[] t1 IH]; simpl; congruence.
Qed.

Lemma effects_of_map (t : list event) : effects_of (map Effect t) = t.
Proof.
  induction t as [|e t IH]; simpl; congruence.
Qed.

Lemma dict_has_get (k : string) (r : record) :
  dict_has k r = true -> exists v, dict_get k r = Some v.
Proof.
  induction r as [|[k' v] r' IH]; cbn [dict_has existsb dict_get fst]; [discriminate|].
  destruct (String.eqb k' k); [eauto | exact IH].
Qed.

Lemma prepared_records_keys_has (records prepared : list record) (r : record) :
  prepare_records records = Ok prepared ->
  In r prepared ->
  exists key, dict_get "summarize_job_name" r = Some key.
Proof.
  unfold prepare_records. intros H Hr. apply list_comp_Ok_iff in H.
  destruct (Forall2_In_right _ _ _ r H Hr) as (r0 & H0 & Hc).
  apply filter_In in H0. destruct H0 as [_ Hpk].
  apply dict_has_get. rewrite (coerce_patient_id_has _ r0 r Hc). exact Hpk.
Qed.

(** [import_list] is [main_import] followed, after a write that returned,
    by the example query. *)
Lemma import_list_run (table_name : string) (data : list value) (s : backend) :
  import_list table_name data s =
    match list_comp normalize_item data with
    | Raise e => (Failed (Exception e), s, [])
    | Ok records =>
        match main_import table_name data s with
        | (Raise e, s1, t) => (Failed (Exception e), s1, map Effect t)
        | (Ok _, s1, t) =>
            match prepare_records records with
            | Ok (r :: _) =>
                match dict_get "summarize_job_name" r with
                | Some key =>
                    match serializable (example_query table_name key) with
                    | Ok _ =>
                        (Done tt, s1,
                         (map Effect t ++ [PrintJson (example_query table_name key)])%list)
                    | Raise e => (Failed (Exception e), s1, map Effect t)
                    end
                | None => (Failed LookupError, s1, map Effect t)
                end
            | _ => (Done tt, s1, map Effect t)
            end
        end
    end.
Proof.
  destruct (list_comp normalize_item data) as [records|e] eqn:E.
  2: { unfold import_list. rewrite E. reflexivity. }
  rewrite (main_import_after_normalize table_name data records s E).
  unfold import_list. rewrite E, pbind_run. cbn [of_M lift fst snd map app].
  fold (prepare_records records). cbv zeta. rewrite pbind_run.
  set (missing := negb (_ =? 0)).
  assert (Hpre : (if missing
                  then of_M (warn (str_of_int (len records
                         - len (filter (dict_has "summarize_job_name") records))
                         ++ " record(s) missing 'summarize_job_name' skipped"))
                  else pret tt) s
                 = (Done tt, s,
                    map Effect
                      (if missing
                       then [Print ("[WARN] " ++ (str_of_int (len records
                                - len (filter (dict_has "summarize_job_name") records))
                                ++ " record(s) missing 'summarize_job_name' skipped"))]
                       else []))).
  { destruct missing; reflexivity. }
  rewrite Hpre. cbn [fst snd]. rewrite pbind_run.
  destruct (prepare_records records) as [[|r rs]|e] eqn:Ep;
    cbn [of_M lift fst snd map app].
  - cbn [len List.length Z.of_nat Z.eqb]. rewrite of_M_warn. cbn [fst snd].
    rewrite map_app. reflexivity.
  - change (len (r :: rs) =? 0) with false. cbv iota.
    unfold pbind, of_M.
    destruct (batch_write_items table_name (r :: rs) 25 5 s)
      as [[[[]|e] s1] t1]; cbn [fst snd info print pret fail].
    + destruct (dict_get "summarize_job_name" r) as [key|]; cbn [pret fail fst snd].
      * unfold print_json.
        destruct (serializable (example_query table_name key)); cbn [fst snd map app];
          rewrite ?map_app, ?app_nil_r, <- ?app_assoc; reflexivity.
      * cbn [map app]. rewrite ?map_app, ?app_nil_r, <- ?app_assoc. reflexivity.
    + rewrite map_app. reflexivity.
  - rewrite app_nil_r. reflexivity.
Qed.

(** X22. The lookup [records[0]["summarize_job_name"]] for the example query
    cannot fail, the records left having the key; and the example query,
    when one is printed, names the table and the key of the first record
    written, after a write that returned normally. *)
Theorem example_query_is_first_key (table_name : string) (data : list value)
    (s : backend) :
  fst (fst (import_list table_name data s)) <> Failed LookupError
  /\ forall v,
       In (PrintJson v) (snd (import_list table_name data s)) ->
       fst (fst (import_list table_name data s)) = Done tt
       /\ exists records r rest key,
            list_comp normalize_item data = Ok records
            /\ prepare_records records = Ok (r :: rest)
            /\ dict_get "summarize_job_name" r = Some key
            /\ v = example_query table_name key
            /\ fst (fst (batch_write_items table_name (r :: rest) 25 5 s)) = Ok tt.
Proof.
  rewrite import_list_run.
  destruct (list_comp normalize_item data) as [records|e] eqn:E.
  2: { split; [discriminate | intros v []]. }
  assert (NoJson : forall t v, ~ In (PrintJson v) (map Effect t)).
  { intros t v H. apply in_map_iff in H. destruct H as (x & H & _). discriminate H. }
  rewrite (main_import_after_normalize table_name data records s E). cbv zeta.
  destruct (prepare_records records) as [[|r rest]|e] eqn:Ep.
  - cbn [len List.length Z.of_nat Z.eqb]. cbn [fst snd].
    split; [discriminate|]. intros v H. destruct (NoJson _ _ H).
  - assert (Hr : In r (r :: rest)) by (left; reflexivity).
    destruct (prepared_records_keys_has records (r :: rest) r Ep Hr) as [key Hkey].
    replace (len (r :: rest) =? 0) with false
      by (symmetry; apply Z.eqb_neq; unfold len; cbn [List.length]; lia).
    destruct (batch_write_items table_name (r :: rest) 25 5 s)
      as [[[[]|e] s1] t1] eqn:Eb; cbn [fst snd].
    + rewrite Hkey.
      destruct (serializable (example_query table_name key)) as [[]|e]; cbn [fst snd].
      * split; [discriminate|]. intros v H. split; [reflexivity|].
        apply in_app_or in H. destruct H as [H|[H|[]]]; [destruct (NoJson _ _ H)|].
        injection H as <-. exists records, r, rest, key.
        rewrite Eb. repeat split; auto.
      * split; [discriminate|]. intros v H. destruct (NoJson _ _ H).
    + split; [discriminate|]. intros v H. destruct (NoJson _ _ H).
  - cbn [fst snd]. split; [discriminate|]. intros v H. destruct (NoJson _ _ H).
Qed.

(** ** The script, step by step *)

Lemma Exists_or_none {A} (f : A -> bool) (l : list A) :
  Exists (fun x => f x = true) l \/ Forall (fun x => f x = false) l.
Proof.
  induction l as [|x xs [IH|IH]].
  - right. constructor.
  - left. right. exact IH.
  - destruct (f x) eqn:E; [left; left; exact E | right; constructor; assumption].
Qed.

Lemma main_import_calls_prepared (table_name : string) (data : list value)
    (records : list record) (s : backend) :
  list_comp normalize_item data = Ok records ->
  calls_of (snd (main_import table_name data s)) <> [] ->
  exists prepared,
    prepare_records records = Ok prepared
    /\ Exists (fun r => dict_has "summarize_job_name" r = true) records.
Proof.
  intros E. rewrite (main_import_after_normalize table_name data records s E).
  cbv zeta. set (pre := if negb _ then _ else _).
  assert (Hpre : calls_of pre = []) by (subst pre; destruct (negb _); reflexivity).
  destruct (prepare_records records) as [prepared|e] eqn:Ep.
  2: { cbn [snd]. intros H. destruct (H Hpre). }
  intros H. exists prepared. split; [reflexivity|].
  destruct (Exists_or_none (dict_has "summarize_job_name") records) as [Hx|HF];
    [exact Hx|]. exfalso.
  apply prepare_records_nil in HF. rewrite Ep in HF. injection HF as ->.
  apply H. cbn [len List.length Z.of_nat Z.eqb snd].
  rewrite calls_of_app, Hpre. reflexivity.
Qed.

Lemma import_all_or_nothing_raises (l : list value) :
  Exists (fun x => isinstance_dict x = false) l ->
  exists e, list_comp normalize_item l = Raise e.
Proof.
  intros Hbad. apply list_comp_raises_at.
  eapply Exists_impl; [|exact Hbad].
  intros x Hx. exists AttributeError. destruct x; try reflexivity. discriminate Hx.
Qed.

Lemma import_from_file_run (table_name path : string) (s : backend) :
  import_from_file table_name path s =
    let t0 := [Effect (Print ("[INFO] " ++ ("Importing sample file: " ++ path)));
               LoadJson path] in
    match load_json path s with
    | (Done (VList l), s1) =>
        (fst (fst (import_list table_name l s1)),
         snd (fst (import_list table_name l s1)),
         (t0 ++ snd (import_list table_name l s1))%list)
    | (Done _, s1) =>
        (Failed (SystemExit 2), s1,
         (t0 ++ [Stderr ("[ERR ] " ++ "Import file must be a JSON list of objects")])%list)
    | (Failed (SystemExit n), s1) => (Failed (SystemExit n), s1, t0)
    | (Failed f, s1) =>
        (Failed (SystemExit 2), s1,
         (t0 ++ [Stderr ("[ERR ] " ++ ("Failed to read JSON: " ++ exception_text f))])%list)
    end.
Proof.
  unfold import_from_file. rewrite pbind_run, of_M_info. cbn [fst snd].
  rewrite pbind_run. unfold try_except_exception, client.
  destruct (load_json path s) as [[v|f] s1].
  - destruct v; reflexivity.
  - destruct f; reflexivity.
Qed.

Lemma main_run (s : backend) :
  main s =
    match parse_args s with
    | (Failed f, s0) => (Failed f, s0, [ParseArgs])
    | (Done args, s0) =>
        match create_clients (region args) s0 with
        | (Failed f, s1) => (Failed f, s1, [ParseArgs; CreateClients (region args)])
        | (Done _, s1) =>
            (fst (fst (main_connected args s1)), snd (fst (main_connected args s1)),
             ([ParseArgs; CreateClients (region args)]
              ++ snd (main_connected args s1))%list)
        end
    end.
Proof.
  change main with (args <-- client ParseArgs parse_args ;;
                    client (CreateClients (region args)) (create_clients (region args)) ;;;
                    main_connected args).
  rewrite pbind_run. unfold client at 1.
  destruct (parse_args s) as [[args|f] s0]; [|reflexivity].
  cbn [fst snd]. rewrite !pbind_run. unfold client.
  destruct (create_clients (region args) s0) as [[[]|f] s1]; reflexivity.
Qed.

Lemma main_connected_run (args : arguments) (s : backend) :
  main_connected args s =
    match get_caller_identity s with
    | (Failed f, s1) => (Failed f, s1, [GetCallerIdentity])
    | (Done ident, s1) =>
        let t0 := [GetCallerIdentity;
                   Effect (Print ("[INFO] " ++ ("AWS connected as Account " ++ fst ident
                                   ++ ", ARN " ++ snd ident ++ " in " ++ region args)))] in
        match ensure_table (table args) s1 with
        | (Failed f, s2, t1) => (Failed f, s2, (t0 ++ t1)%list)
        | (Done _, s2, t1) =>
            if dry_run args
            then (Done tt, s2,
                  (t0 ++ t1 ++ [Effect (Print ("[INFO] " ++ "Dry-run complete. Infra verified."))])%list)
            else
              match import_if_given args s2 with
              | (Failed f, s3, t2) => (Failed f, s3, (t0 ++ t1 ++ t2)%list)
              | (Done _, s3, t2) =>
                  (Done tt, s3,
                   (t0 ++ t1 ++ t2
                    ++ [Effect (Print ("[INFO] " ++ "All done. You can now query by summarize_job_name or via GSI patient_id-index."))])%list)
              end
        end
    end.
Proof.
  unfold main_connected, pbind, client.
  destruct (get_caller_identity s) as [[ident|f] s1]; [|reflexivity].
  rewrite of_M_info.
  destruct (ensure_table (table args) s1) as [[[[]|f] s2] t1]; [|reflexivity].
  destruct (dry_run args).
  - rewrite of_M_info. reflexivity.
  - destruct (import_if_given args s2) as [[[[]|f] s3] t2]; [|reflexivity].
    rewrite of_M_info. reflexivity.
Qed.

Lemma ensure_table_setup (name : string) (s : backend) :
  Forall setup_step (snd (ensure_table name s)).
Proof.
  rewrite ensure_table_run.
  destruct (describe_table name s) as [[|code|f] s1]; cbn [snd].
  - repeat constructor.
  - destruct (is_not_found code); [|repeat constructor]. cbv zeta.
    destruct (create_table (table_schema name) s1) as [[[]|f] s2].
    + destruct (wait_table_exists name s2) as [[[]|f] s3]; repeat constructor.
    + repeat constructor.
  - repeat constructor.
Qed.

Lemma script_trace (s : backend) :
  exists t, snd (script s) = (snd (main s) ++ t)%list
            /\ Forall setup_step t.
Proof.
  unfold script. destruct (main s) as [[[[]|f] s1] t].
  - exists []. split; [symmetry; apply app_nil_r | constructor].
  - destruct f as [e| |n].
    + destruct e; eexists; (split; [reflexivity | repeat constructor]).
    + eexists. split; [reflexivity | repeat constructor].
    + exists []. split; [symmetry; apply app_nil_r | constructor].
Qed.

(** ** Dry run *)

(** X23. A dry run only parses the command line, creates the clients, checks
    the identity, ensures the table (creating it when it is missing, as a
    normal run would) and prints: it makes no batch write, reads no import
    file and prints no query. *)
Theorem dry_run_only_sets_up (s : backend) (args : arguments) (s0 : backend) :
  parse_args s = (Done args, s0) ->
  dry_run args = true ->
  Forall setup_step (snd (script s))
  /\ forall s1 ident s2 spec,
       create_clients (region args) s0 = (Done tt, s1) ->
       get_caller_identity s1 = (Done ident, s2) ->
       In (CreateTable spec) (snd (ensure_table (table args) s2)) ->
       In (CreateTable spec) (snd (script s)).
Proof.
  intros Hargs Hdry. destruct (script_trace s) as (t & -> & Ht).
  rewrite main_run, Hargs.
  destruct (create_clients (region args) s0) as [[[]|f] s1].
  2: { cbn [snd]. split.
       - apply Forall_app. split; [repeat constructor | exact Ht].
       - intros s1' ident s2 spec H. discriminate H. }
  cbn [snd]. rewrite main_connected_run, Hdry.
  destruct (get_caller_identity s1) as [[ident|f] s2] eqn:Eg.
  - cbv zeta. pose proof (ensure_table_setup (table args) s2) as He.
    destruct (ensure_table (table args) s2) as [[[[]|f] s3] t1] eqn:Ee;
      cbn [snd] in *.
    + split.
      * repeat (apply Forall_app; split); auto; repeat constructor.
      * intros s1' ident0 s2' spec [= <-] Hg H. rewrite Eg in Hg.
        injection Hg as <- <-. rewrite Ee in H.
        cbn [snd] in H.
        apply in_or_app. left. apply in_or_app. right.
        apply in_or_app. right. apply in_or_app. left. exact H.
    + split.
      * repeat (apply Forall_app; split); auto; repeat constructor.
      * intros s1' ident0 s2' spec [= <-] Hg H. rewrite Eg in Hg.
        injection Hg as <- <-. rewrite Ee in H.
        cbn [snd] in H.
        apply in_or_app. left. apply in_or_app. right.
        apply in_or_app. right. exact H.
  - cbn [snd]. split.
    + repeat (apply Forall_app; split); auto; repeat constructor.
    + intros s1' ident s2' spec [= <-] H. rewrite Eg in H. discriminate H.
Qed.

(** ** When the script writes *)

Lemma writes_of_app (t1 t2 : list step) :
  writes_of (t1 ++ t2) = (writes_of t1 ++ writes_of t2)%list.
Proof.
  unfold writes_of. rewrite effects_of_app. apply requests_of_app.
Qed.

Lemma setup_no_writes (t : list step) : Forall setup_step t -> writes_of t = [].
Proof.
  induction 1 as [|st t Hst _ IH]; [reflexivity|].
  destruct st as [| | | | | | |[]| |]; try destruct Hst; exact IH.
Qed.

Lemma import_list_writes (table_name : string) (data : list value) (s : backend) :
  writes_of (snd (import_list table_name data s)) <> [] ->
  exists records prepared,
    list_comp normalize_item data = Ok records
    /\ prepare_records records = Ok prepared
    /\ Exists (fun r => dict_has "summarize_job_name" r = true) records.
Proof.
  rewrite import_list_run.
  destruct (list_comp normalize_item data) as [records|e] eqn:E.
  2: { intros H. destruct (H eq_refl). }
  intros H. exists records.
  assert (Hc : calls_of (snd (main_import table_name data s)) <> []).
  { intros Hc. apply H.
    assert (W : forall t, calls_of t = [] -> writes_of (map Effect t) = []).
    { intros t Ht. unfold writes_of, requests_of.
      rewrite effects_of_map, Ht. reflexivity. }
    destruct (main_import table_name data s) as [[[[]|e] s1] t]; cbn [snd] in *.
    + destruct (prepare_records records) as [[|r rs]|e]; try apply W, Hc.
      destruct (dict_get "summarize_job_name" r) as [key|]; [|apply W, Hc].
      destruct (serializable (example_query table_name key)); cbn [snd];
        [|apply W, Hc].
      rewrite writes_of_app, (W _ Hc). reflexivity.
    + apply W, Hc. }
  destruct (main_import_calls_prepared table_name data records s E Hc)
    as (prepared & Hp & Hx).
  exists prepared. auto.
Qed.

(** X24. The script makes a batch write only after everything before it went
    well: the command line parsed, not for a dry run and with an import
    file given, the clients created, the identity check passed, the table
    ensured, the file read as a JSON list, every element normalized, every
    [patient_id] converted, and at least one record having the primary
    key. *)
Theorem writes_only_after_setup (s : backend) :
  writes_of (snd (script s)) <> [] ->
  exists args s0 s1 path ident s2 l s4 records prepared,
    parse_args s = (Done args, s0)
    /\ dry_run args = false
    /\ import_file args = Some path /\ path <> ""
    /\ create_clients (region args) s0 = (Done tt, s1)
    /\ get_caller_identity s1 = (Done ident, s2)
    /\ fst (fst (ensure_table (table args) s2)) = Done tt
    /\ load_json path (snd (fst (ensure_table (table args) s2)))
       = (Done (VList l), s4)
    /\ list_comp normalize_item l = Ok records
    /\ prepare_records records = Ok prepared
    /\ Exists (fun r => dict_has "summarize_job_name" r = true) records.
Proof.
  destruct (script_trace s) as (t & -> & Ht).
  rewrite writes_of_app, (setup_no_writes t Ht), app_nil_r.
  rewrite main_run.
  destruct (parse_args s) as [[args|f] s0].
  2: { intros H. destruct (H eq_refl). }
  destruct (create_clients (region args) s0) as [[[]|f] s1] eqn:Ecl.
  2: { intros H. destruct (H eq_refl). }
  cbn [snd]. rewrite writes_of_app. cbn [app].
  change (writes_of [ParseArgs; CreateClients (region args)])
    with (@nil request_items). cbn [app].
  rewrite main_connected_run.
  destruct (get_caller_identity s1) as [[ident|f] s2] eqn:Eid.
  2: { intros H. destruct (H eq_refl). }
  cbv zeta. pose proof (ensure_table_setup (table args) s2) as He.
  apply setup_no_writes in He.
  destruct (ensure_table (table args) s2) as [[[[]|f] s3] t1] eqn:Ee;
    cbn [fst snd] in *.
  2: { rewrite writes_of_app, He. intros H. destruct (H eq_refl). }
  destruct (dry_run args) eqn:Hdry.
  { cbn [snd]. rewrite !writes_of_app, He. intros H. destruct (H eq_refl). }
  intros H.
  assert (Hi : writes_of (snd (import_if_given args s3)) <> []).
  { intros Hi. apply H.
    destruct (import_if_given args s3) as [[[[]|f] s4] t2]; cbn [snd] in *;
      rewrite !writes_of_app, He, Hi; reflexivity. }
  clear H. unfold import_if_given in Hi.
  destruct (import_file args) as [path|] eqn:Hfile; [|destruct (Hi eq_refl)].
  destruct (String.eqb path "") eqn:Hpath; cbn [negb] in Hi;
    [destruct (Hi eq_refl)|].
  apply String.eqb_neq in Hpath.
  rewrite import_from_file_run in Hi. cbv zeta in Hi.
  destruct (load_json path s3) as [[v|f] s4] eqn:El.
  - destruct v as [| | | | |l| |]; cbn [snd] in Hi;
      try (destruct (Hi eq_refl)).
    rewrite writes_of_app in Hi. cbn [app] in Hi.
    change (writes_of [Effect (Print ("[INFO] " ++ ("Importing sample file: " ++ path)));
                       LoadJson path]) with (@nil request_items) in Hi.
    cbn [app] in Hi.
    destruct (import_list_writes (table args) l s4 Hi) as (records & prepared & Hn & Hp & Hx).
    exists args, s0, s1, path, ident, s2, l, s4, records, prepared.
    rewrite Ee. cbn [fst snd].
    repeat split; auto.
  - destruct f; cbn [snd] in Hi; destruct (Hi eq_refl).
Qed.

(** ** A bad import file *)

(** X25. An import file that cannot be read or parsed, or whose content is not
    a list, ends the import with exit status 2; a list with an element
    that is not a mapping ends it with a TypeError or an AttributeError
    (exit status 1 from the script); in all three cases nothing has been
    written. *)
Theorem bad_import_file (table_name path : string) (s : backend) :
  let run := import_from_file table_name path s in
  (forall f s1, load_json path s = (Failed f, s1) ->
                (forall n, f <> SystemExit n) ->
                fst (fst run) = Failed (SystemExit 2) /\ writes_of (snd run) = [])
  /\ (forall v s1, load_json path s = (Done v, s1) ->
                   isinstance_list v = false ->
                   fst (fst run) = Failed (SystemExit 2) /\ writes_of (snd run) = [])
  /\ (forall l s1, load_json path s = (Done (VList l), s1) ->
                   Exists (fun x => isinstance_dict x = false) l ->
                   exists e, (e = TypeError \/ e = AttributeError)
                             /\ fst (fst run) = Failed (Exception e)
                             /\ writes_of (snd run) = []).
Proof.
  cbv zeta. rewrite import_from_file_run. cbv zeta.
  split; [|split].
  - intros f s1 -> Hf. destruct f as [e| |n]; cbn [fst snd].
    + split; reflexivity.
    + split; reflexivity.
    + destruct (Hf n eq_refl).
  - intros v s1 -> Hv. destruct v; try discriminate Hv; split; reflexivity.
  - intros l s1 -> Hbad. cbn [fst snd].
    destruct (import_all_or_nothing_raises l Hbad) as [e He].
    rewrite import_list_run, He. exists e.
    split; [exact (normalize_items_raise l e He) | split; reflexivity].
Qed.

(** ** Exit status *)

Lemma import_list_no_exit (table_name : string) (data : list value) (s : backend)
    (n : Z) :
  fst (fst (import_list table_name data s)) <> Failed (SystemExit n).
Proof.
  rewrite import_list_run.
  destruct (list_comp normalize_item data) as [records|e]; [|discriminate].
  destruct (main_import table_name data s) as [[[[]|e] s1] t]; [|discriminate].
  destruct (prepare_records records) as [[|r rs]|e]; try discriminate.
  destruct (dict_get "summarize_job_name" r) as [key|]; [|discriminate].
  destruct (serializable (example_query table_name key)); discriminate.
Qed.

Lemma ensure_table_no_exit (name : string) (s : backend) (n : Z) :
  clients_raise_exceptions ->
  fst (fst (ensure_table name s)) <> Failed (SystemExit n).
Proof.
  intros (_ & _ & Hd & Hc & Hw & _). rewrite ensure_table_run.
  specialize (Hd name s n). specialize (Hc (table_schema name)).
  destruct (describe_table name s) as [[|code|f] s1]; cbn [fst] in *.
  - discriminate.
  - destruct (is_not_found code); [|discriminate]. cbv zeta.
    specialize (Hc s1 n). specialize (Hw name).
    destruct (create_table (table_schema name) s1) as [[[]|f] s2]; cbn [fst] in *.
    + specialize (Hw s2 n).
      destruct (wait_table_exists name s2) as [[[]|f] s3]; cbn [fst] in *;
        congruence.
    + congruence.
  - congruence.
Qed.

(** Once connected, [main] exits only with status 2, after a line on
    stderr. *)
Lemma main_connected_exit (args : arguments) (s : backend) (n : Z) :
  clients_raise_exceptions ->
  fst (fst (main_connected args s)) = Failed (SystemExit n) ->
  n = 2 /\ exists line, In (Stderr line) (snd (main_connected args s)).
Proof.
  intros Hc. rewrite main_connected_run.
  pose proof (proj1 (proj2 Hc) s n) as Hi.
  destruct (get_caller_identity s) as [[ident|f] s1]; cbn [fst] in *;
    [|congruence].
  cbv zeta. pose proof (ensure_table_no_exit (table args) s1 n Hc) as He.
  destruct (ensure_table (table args) s1) as [[[[]|f] s2] t1]; cbn [fst] in *;
    [|congruence].
  destruct (dry_run args); [discriminate|].
  unfold import_if_given.
  destruct (import_file args) as [path|]; [|discriminate].
  destruct (String.eqb path ""); cbn [negb]; [discriminate|].
  rewrite import_from_file_run. cbv zeta.
  pose proof (proj2 (proj2 (proj2 (proj2 (proj2 Hc)))) path s2) as Hj.
  destruct (load_json path s2) as [[v|f] s3]; cbn [fst] in Hj.
  - destruct v as [| | | | |l| |]; cbn [fst snd];
      try (intros [= <-]; split; [reflexivity|]; eexists;
           apply in_or_app; right; apply in_or_app; right;
           apply in_or_app; right; left; reflexivity).
    pose proof (import_list_no_exit (table args) l s3 n) as Hl.
    destruct (import_list (table args) l s3) as [[[[]|f] s4] t2]; cbn [fst] in *;
      [discriminate | congruence].
  - destruct f as [e| |m]; cbn [fst snd].
    + intros [= <-]. split; [reflexivity|]. eexists.
      apply in_or_app; right; apply in_or_app; right.
      apply in_or_app; right; left; reflexivity.
    + intros [= <-]. split; [reflexivity|]. eexists.
      apply in_or_app; right; apply in_or_app; right.
      apply in_or_app; right; left; reflexivity.
    + destruct (Hj m eq_refl).
Qed.

(** X26. The exit status of the script, the client operations failing with
    exceptions only and the command-line parser exiting with status 0
    (after [--help]) or 2 only: the status is 0, 1 or 2; it is 0 exactly
    when [main] returns or the parser exited with 0; and a status other
    than 0 comes from the parser's own exit or with a line that the
    script prints on stderr. *)
Theorem exit_status (s : backend) :
  clients_raise_exceptions ->
  parser_exits ->
  let status := fst (fst (script s)) in
  (status = 0 \/ status = 1 \/ status = 2)
  /\ (status = 0
      <-> fst (fst (main s)) = Done tt
          \/ fst (parse_args s) = Failed (SystemExit 0))
  /\ (status <> 0 ->
      fst (parse_args s) = Failed (SystemExit 2)
      \/ exists line, In (Stderr line) (snd (script s))).
Proof.
  intros Hc Hp. cbv zeta.
  assert (Hexit : forall n, fst (fst (main s)) = Failed (SystemExit n) ->
                            fst (parse_args s) = Failed (SystemExit n)
                            \/ (fst (parse_args s) <> Failed (SystemExit 0)
                                /\ n = 2
                                /\ exists line, In (Stderr line) (snd (main s)))).
  { intros n. rewrite main_run.
    destruct (parse_args s) as [[args|f] s0]; cbn [fst];
      [|intros [= ->]; left; reflexivity].
    pose proof (proj1 Hc (region args) s0 n) as Hcl.
    destruct (create_clients (region args) s0) as [[[]|f] s1]; cbn [fst] in *;
      [|congruence].
    intros H. right. split; [discriminate|].
    destruct (main_connected_exit args s1 n Hc H) as [-> [line Hline]].
    split; [reflexivity|]. exists line. cbn [snd app]. right. right. exact Hline. }
  assert (Hdone : forall f, fst (parse_args s) = Failed f ->
                            fst (fst (main s)) = Failed f).
  { intros f. rewrite main_run.
    destruct (parse_args s) as [[args|f'] s0]; cbn [fst]; [discriminate|].
    intros [= ->]. reflexivity. }
  unfold script.
  destruct (main s) as [[[[]|f] s1] t]; cbn [fst snd] in *.
  - split; [auto|]. split; [split; auto | intros H; destruct (H eq_refl)].
  - assert (Hno : forall n, f <> SystemExit n ->
                            fst (parse_args s) <> Failed (SystemExit n)).
    { intros n Hf Hparse. apply Hdone in Hparse. congruence. }
    destruct f as [e| |n].
    + destruct e; cbn [fst snd]; (split; [auto|]);
        (split; [split; [discriminate|];
                 intros [H|H]; [discriminate H | destruct (Hno 0 ltac:(discriminate) H)]|]);
        intros _; right; eexists;
        apply in_or_app; right; left; reflexivity.
    + cbn [fst snd]. split; [auto|].
      split; [split; [discriminate|];
              intros [H|H]; [discriminate H | destruct (Hno 0 ltac:(discriminate) H)]|].
      intros _. right. eexists. apply in_or_app; right; left; reflexivity.
    + cbn [fst snd].
      destruct (Hexit n eq_refl) as [Hparse|(Hnot0 & -> & Hline)].
      * destruct (Hp s n Hparse) as [-> | ->].
        -- split; [auto|]. split; [split; auto | intros H; destruct (H eq_refl)].
        -- split; [auto|]. split; [|intros _; left; exact Hparse].
           split; [discriminate|]. intros [H|H]; [discriminate H|].
           rewrite Hparse in H. discriminate H.
      * split; [auto|]. split; [|intros _; right; exact Hline].
        split; [discriminate|]. intros [H|H]; [discriminate H | contradiction].
Qed.

End Backend.

End Runtime.

(** * The properties on the sample instances *)


Lemma normalize_record_dispatch_sample :
  (exists k v, In (k, v) sample_wire /\ tag_wrapper v)
  /\ normalize_record sample_float_of_str sample_wire
     = Ok [ ("summarize_job_name", VStr "job-9");
            ("codes", VList [VInt 12; VStr "raw"]);
            ("plain", VInt 1) ].
Proof.
  assert (H : exists k v, In (k, v) sample_wire /\ tag_wrapper v).
  { exists "summarize_job_name", (VDict [("S", VStr "job-9")]).
    split; [left; reflexivity|].
    exists "S", (VStr "job-9"). split; [reflexivity | left; reflexivity]. }
  split; [exact H|].
  rewrite (proj1 (proj1 (normalize_record_dispatch sample_float_of_str sample_wire) H)).
  reflexivity.
Defined.


Lemma number_tag_decode_sample :
  integer_text "-42"
  /\ _from_ddb_attr sample_float_of_str (VDict [("N", VStr "-42")]) = Ok (VInt (-42)).
Proof.
  assert (H : integer_text "-42").
  { right. exists "42". split; [reflexivity|].
    exists "4", ["2"]. split; [reflexivity|].
    apply Forall_forall. intros g [<-|[<-|[]]]; reflexivity. }
  split; [exact H|].
  exact (proj1 (number_tag_decode sample_float_of_str "-42") H).
Defined.



Lemma retry_termination_sample :
  1 <= 2 /\ 1 <= 3 /\ always_unprocessed unit stubborn_backend
  /\ fst (fst (batch_write_items sample_float_str sample_repr_container unit
                 stubborn_backend "notes" sample_records 2 3 tt)) = Ok tt
  /\ List.length
       (requests_of
          (snd (batch_write_items sample_float_str sample_repr_container unit
                  stubborn_backend "notes" sample_records 2 3 tt)))
     = 6%nat.
Proof.
  assert (H1 : 1 <= 2) by lia.
  assert (H2 : 1 <= 3) by lia.
  assert (H3 : always_unprocessed unit stubborn_backend)
    by (intros req s; reflexivity).
  repeat (split; [assumption|]).
  destruct (retry_termination sample_float_str sample_repr_container unit
              stubborn_backend "notes" sample_records 2 3 tt H1 H2 H3)
    as [_ (chunks & E & Hr)].
  vm_compute in E. injection E as <-.
  destruct (Hr _ eq_refl) as [R Q].
  split; [exact R|].
  rewrite Q. reflexivity.
Defined.

Lemma chunking_sample :
  1 <= 2
  /\ exists chunks reqs,
       chunks_of sample_records 2 = Ok chunks
       /\ len chunks = 2
       /\ List.concat chunks = sample_records
       /\ list_comp (put_requests sample_float_str sample_repr_container "notes")
                    chunks = Ok reqs
       /\ requests_of
            (snd (batch_write_items sample_float_str sample_repr_container unit
                    accepting_backend "notes" sample_records 2 5 tt))
          = reqs.
Proof.
  assert (H : 1 <= 2) by lia.
  split; [exact H|].
  destruct (chunking sample_float_str sample_repr_container unit accepting_backend
              "notes" sample_records 2 5 H)
    as (chunks & E & _ & L & _ & _ & C & _ & S).
  destruct (list_comp (put_requests sample_float_str sample_repr_container "notes")
                      chunks) as [reqs|e] eqn:Er.
  2: { exfalso. vm_compute in E. injection E as <-. discriminate Er. }
  exists chunks, reqs. split; [exact E|]. split; [rewrite L; reflexivity|].
  split; [exact C|]. split; [exact Er|].
  apply S; [lia| |reflexivity].
  intros req s. exists {| UnprocessedItems := None |}. split; reflexivity.
Defined.

Lemma prefilter_and_coercion_sample :
  list_comp (normalize_item sample_float_of_str) sample_data
  = Ok [ [("patient_id", VStr "p1")];
         [("summarize_job_name", VStr "job-1"); ("patient_id", VInt 42)] ]
  /\ calls_of
       (snd (main_import sample_float_str sample_float_of_str sample_repr_container
               unit accepting_backend "notes" sample_data tt))
     = calls_of
         (snd (batch_write_items sample_float_str sample_repr_container unit
                 accepting_backend "notes"
                 [[("summarize_job_name", VStr "job-1"); ("patient_id", VStr "42")]]
                 25 5 tt)).
Proof.
  assert (H : list_comp (normalize_item sample_float_of_str) sample_data
              = Ok [ [("patient_id", VStr "p1")];
                     [("summarize_job_name", VStr "job-1"); ("patient_id", VInt 42)] ])
    by reflexivity.
  split; [exact H|].
  exact (proj2 (proj2 (prefilter_and_coercion sample_float_str sample_float_of_str
                         sample_repr_container unit accepting_backend))
           "notes" sample_data _ tt H).
Defined.

(** ** Where the program departs from the specification *)





(** ** Runs on concrete inputs *)

(** Decoding number tags: integer text, float text, and text that is
    neither, which comes back as it is. *)
Example decode_numbers :
  map (_from_ddb_attr sample_float_of_str)
      [ VDict [("N", VStr "007")]; VDict [("N", VStr "-12")];
        VDict [("N", VStr "3.5")]; VDict [("N", VStr "12a")];
        VDict [("N", VStr "-")]; VDict [("N", VNone)];
        VDict [("N", VInt 2)]; VDict [("N", VBool true)] ]
  = [ Ok (VInt 7); Ok (VInt (-12)); Ok (VFloat 3.5); Ok (VStr "12a");
      Ok (VStr "-"); Ok VNone; Ok (VFloat 2); Ok (VFloat 1) ].
Proof. reflexivity. Qed.

(** Digits of other scripts are digits for [isdigit], and [int()] reads
    the decimal ones: Arabic-Indic three is 3, minus Devanagari one two is
    -12, and scripts can be mixed.  A superscript two is a digit that
    [int()] refuses: the text comes back as it is, alone or after another
    digit. *)
Example decode_other_digits :
  map (_from_ddb_attr sample_float_of_str)
      [ VDict [("N", VStr "٣")]; VDict [("N", VStr "-१२")];
        VDict [("N", VStr "4٣")]; VDict [("N", VStr "²")];
        VDict [("N", VStr "4²")] ]
  = [ Ok (VInt 3); Ok (VInt (-12)); Ok (VInt 43); Ok (VStr "²");
      Ok (VStr "4²") ].
Proof. vm_compute. reflexivity. Qed.

(** The text of an integer of 4301 digits is integer text that [int()]
    refuses: the decoder returns the text. *)
Example decode_long_integer :
  _from_ddb_attr sample_float_of_str (VDict [("N", VStr (str_of_int sample_big))])
  = Ok (VStr (str_of_int sample_big)).
Proof. vm_compute. reflexivity. Qed.

(** A string of digits under the S tag comes back as a string. *)
Example decode_digit_string :
  rbind (to_ddb_item sample_float_str sample_repr_container [("patient_id", VStr "42")])
        (normalize_record sample_float_of_str)
  = Ok [("patient_id", VStr "42")].
Proof. reflexivity. Qed.

(** Malformed L and M payloads: a text is iterated character by
    character, an integer cannot be iterated, a list has no items. *)
Example decode_malformed :
  map (_from_ddb_attr sample_float_of_str)
      [ VDict [("L", VStr "ab")]; VDict [("L", VInt 5)];
        VDict [("M", VList [])]; VDict [("BOOL", VStr "no")] ]
  = [ Ok (VList [VStr "a"; VStr "b"]); Raise TypeError;
      Raise AttributeError; Ok (VBool true) ].
Proof. reflexivity. Qed.

(** The end-to-end scenario: two records, the first with an integer
    [patient_id], chunk size 25; one batch of two encoded records is
    submitted, [patient_id] coerced to the string ["42"]. *)
Example end_to_end :
  requests_of
    (snd (main_import sample_float_str sample_float_of_str sample_repr_container
            unit accepting_backend "notes"
            [ VDict [("summarize_job_name", VStr "job-1"); ("patient_id", VInt 42)];
              VDict [("summarize_job_name", VStr "job-2")] ]
            tt))
  = [ [("notes",
        [ VDict [("PutRequest",
            VDict [("Item",
              VDict [("summarize_job_name", VDict [("S", VStr "job-1")]);
                     ("patient_id", VDict [("S", VStr "42")])])])];
          VDict [("PutRequest",
            VDict [("Item",
              VDict [("summarize_job_name", VDict [("S", VStr "job-2")])])])] ])] ].
Proof. reflexivity. Qed.

(** An import in which a record holds an integer of 4301 digits: the
    chunk is not encoded, the import raises a [ValueError] and nothing is
    submitted. *)
Example import_long_integer :
  main_import sample_float_str sample_float_of_str sample_repr_container
    unit accepting_backend "notes"
    [ VDict [("summarize_job_name", VStr "job-1"); ("count", VInt sample_big)] ] tt
  = (Raise ValueError, tt, []).
Proof. vm_compute. reflexivity. Qed.

(** With the default five attempts and a backend that never applies
    anything, one chunk is submitted five times, with sleeps of 0.2, 0.4,
    0.8, 1.6 and 3.2 in between and after. *)
Example five_attempts :
  let run := batch_write_items sample_float_str sample_repr_container unit
               stubborn_backend "notes" sample_records 25 5 tt in
  fst (fst run) = Ok tt
  /\ List.length (requests_of (snd run)) = 5%nat
  /\ sleeps_of (snd run)
     = [NFloat 0.2; NFloat 0.4; NFloat 0.8; NFloat 1.6; NFloat 3.2].
Proof. vm_compute. repeat split. Qed.

(** * The further properties on the sample instances *)

Arguments Done {A} a.
Arguments Failed {A} f.

(** ** The codec *)

Lemma decode_depth_sample :
  normalize_record sample_float_of_str sample_wire
  = Ok [ ("summarize_job_name", VStr "job-9");
         ("codes", VList [VInt 12; VStr "raw"]);
         ("plain", VInt 1) ]
  /\ (depth (VDict [ ("summarize_job_name", VStr "job-9");
                     ("codes", VList [VInt 12; VStr "raw"]);
                     ("plain", VInt 1) ])
      <= depth (VDict sample_wire))%nat.
Proof.
  assert (H : normalize_record sample_float_of_str sample_wire
              = Ok [ ("summarize_job_name", VStr "job-9");
                     ("codes", VList [VInt 12; VStr "raw"]);
                     ("plain", VInt 1) ]) by reflexivity.
  split; [exact H|].
  exact (proj1 (decode_depth sample_float_of_str sample_wire _ H)).
Defined.

Lemma conv_wire_sample :
  conv sample_float_str sample_repr_container
    (VList [VInt 1; VNone; VDict [("score", VFloat 3.5)]])
  = Ok (VDict [("L", VList [ VDict [("N", VStr "1")];
                             VDict [("NULL", VBool true)];
                             VDict [("M", VDict [("score", VDict [("N", VStr "3.5")])])] ])])
  /\ wire (VDict [("L", VList [ VDict [("N", VStr "1")];
                                VDict [("NULL", VBool true)];
                                VDict [("M", VDict [("score",
                                                     VDict [("N", VStr "3.5")])])] ])])
     = true.
Proof.
  assert (H : conv sample_float_str sample_repr_container
                (VList [VInt 1; VNone; VDict [("score", VFloat 3.5)]])
              = Ok (VDict [("L", VList [ VDict [("N", VStr "1")];
                                         VDict [("NULL", VBool true)];
                                         VDict [("M", VDict [("score",
                                                  VDict [("N", VStr "3.5")])])] ])]))
    by reflexivity.
  split; [exact H|].
  exact (conv_wire sample_float_str sample_repr_container _ _ H).
Defined.

Lemma encoded_record_decodes_sample :
  exists w,
    to_ddb_item sample_float_str sample_repr_container sample_mixed = Ok w
    /\ exists r, normalize_record sample_float_of_str w = Ok r
                 /\ map fst r = ["summarize_job_name"; "z"; "tags"].
Proof.
  destruct (to_ddb_item sample_float_str sample_repr_container sample_mixed)
    as [w|e] eqn:E; [|vm_compute in E; discriminate E].
  exists w. split; [reflexivity|].
  exact (encoded_record_decodes sample_float_str sample_float_of_str
           sample_repr_container sample_mixed w E).
Defined.

Lemma round_trip_plain_sample :
  generic (reads_back sample_float_str sample_float_of_str)
          (plain (VDict sample_mixed))
  /\ exists w,
       to_ddb_item sample_float_str sample_repr_container sample_mixed = Ok w
       /\ normalize_record sample_float_of_str w
          = Ok [ ("summarize_job_name", VStr "job-4");
                 ("z", VStr "(1+2j)");
                 ("tags", VList [VInt 1; VStr "2024-01-31"]) ].
Proof.
  assert (G : generic (reads_back sample_float_str sample_float_of_str)
                      (plain (VDict sample_mixed))).
  { vm_compute. repeat split. }
  split; [exact G|].
  destruct (to_ddb_item sample_float_str sample_repr_container sample_mixed)
    as [w|e] eqn:E; [|vm_compute in E; discriminate E].
  exists w. split; [reflexivity|].
  exact (round_trip_plain sample_float_str sample_float_of_str
           sample_repr_container sample_mixed w G E).
Defined.




(** ** The writer *)

Lemma no_attempts_no_calls_sample :
  1 <= 2 /\ 0 <= 0
  /\ batch_write_items sample_float_str sample_repr_container unit
       stubborn_backend "notes" sample_records 2 0 tt
     = (Ok tt, tt,
        [ Print "[INFO] Wrote batch 1/2 (2 items)";
          Print "[INFO] Wrote batch 2/2 (1 items)" ]).
Proof.
  assert (H1 : 1 <= 2) by lia.
  assert (H2 : 0 <= 0) by lia.
  repeat (split; [assumption|]).
  destruct (no_attempts_no_calls sample_float_str sample_repr_container unit
              stubborn_backend "notes" sample_records 2 0 tt H1 H2)
    as (chunks & E & _ & R).
  vm_compute in E. injection E as <-.
  rewrite R; [reflexivity|]. eexists. reflexivity.
Defined.

Lemma transport_error_propagates_sample :
  2 <> 0
  /\ fst (fst (batch_write_items sample_float_str sample_repr_container unit
                 failing_backend "notes" sample_records 2 5 tt))
     = Raise ClientError
  /\ propagates (Raise ClientError)
       (snd (batch_write_items sample_float_str sample_repr_container unit
               failing_backend "notes" sample_records 2 5 tt)).
Proof.
  assert (H : 2 <> 0) by lia.
  split; [exact H|].
  assert (R : fst (fst (batch_write_items sample_float_str sample_repr_container unit
                          failing_backend "notes" sample_records 2 5 tt))
              = Raise ClientError) by reflexivity.
  split; [exact R|].
  rewrite <- R.
  exact (proj1 (transport_error_propagates sample_float_str sample_repr_container
                  unit failing_backend "notes" sample_records 2 5 tt H)).
Defined.

Lemma calls_bounded_sample :
  1 <= 2
  /\ (List.length
        (calls_of
           (snd (batch_write_items sample_float_str sample_repr_container unit
                   stubborn_backend "notes" sample_records 2 3 tt)))
      <= 2 * 3)%nat.
Proof.
  assert (H : 1 <= 2) by lia.
  split; [exact H|].
  exact (proj1 (calls_bounded sample_float_str sample_repr_container unit
                  stubborn_backend "notes" sample_records 2 3 tt H)).
Defined.

Lemma progress_lines_sample :
  1 <= 2
  /\ exists k,
       (k <= 2)%nat
       /\ infos_of
            (snd (batch_write_items sample_float_str sample_repr_container unit
                    accepting_backend "notes" sample_records 2 5 tt))
          = firstn k [ "[INFO] Wrote batch 1/2 (2 items)";
                       "[INFO] Wrote batch 2/2 (1 items)" ].
Proof.
  assert (H : 1 <= 2) by lia.
  split; [exact H|].
  destruct (progress_lines sample_float_str sample_repr_container unit
              accepting_backend "notes" sample_records 2 5 tt H)
    as (chunks & k & E & Hk & HI & _).
  vm_compute in E. injection E as <-.
  exists k. split; [exact Hk|].
  rewrite HI, <- firstn_map. reflexivity.
Defined.

Lemma stubborn_backend_reports_only_submitted :
  reports_only_submitted unit stubborn_backend.
Proof.
  intros req s resp [= <-] t items Hin.
  exists items. split; [exact Hin | apply incl_refl].
Qed.

Lemma submits_only_records_sample :
  let item :=
    VDict [("PutRequest",
            VDict [("Item", VDict [("summarize_job_name", VDict [("S", VStr "job-2")])])])] in
  let items :=
    [ VDict [("PutRequest",
              VDict [("Item", VDict [("summarize_job_name", VDict [("S", VStr "job-1")]);
                                     ("patient_id", VDict [("N", VStr "42")])])])];
      item ] in
  1 <= 2
  /\ reports_only_submitted unit stubborn_backend
  /\ In [("notes", items)]
        (requests_of
           (snd (batch_write_items sample_float_str sample_repr_container unit
                   stubborn_backend "notes" sample_records 2 3 tt)))
  /\ exists rec w,
       In rec sample_records
       /\ to_ddb_item sample_float_str sample_repr_container rec = Ok w
       /\ item = VDict [("PutRequest", VDict [("Item", VDict w)])].
Proof.
  intros item items.
  assert (H : 1 <= 2) by lia.
  assert (H1 : In [("notes", items)]
                 (requests_of
                    (snd (batch_write_items sample_float_str sample_repr_container
                            unit stubborn_backend "notes" sample_records 2 3 tt)))).
  { vm_compute. left. reflexivity. }
  assert (H2 : In ("notes", items) [("notes", items)]) by (left; reflexivity).
  assert (H3 : In item items) by (right; left; reflexivity).
  split; [exact H|].
  split; [exact stubborn_backend_reports_only_submitted|].
  split; [exact H1|].
  exact (proj2 (submits_only_records sample_float_str sample_repr_container unit
                  stubborn_backend "notes" sample_records 2 3 tt H
                  stubborn_backend_reports_only_submitted _ _ _ _ H1 H2 H3)).
Defined.

(** ** The import *)

Lemma prepared_records_keys_sample :
  prepare_records sample_float_str sample_repr_container sample_records
  = Ok [ [("summarize_job_name", VStr "job-1"); ("patient_id", VStr "42")];
         [("summarize_job_name", VStr "job-2")];
         [("summarize_job_name", VStr "job-3"); ("score", VFloat 3.5)] ]
  /\ forall item w,
       to_ddb_item sample_float_str sample_repr_container
         [("summarize_job_name", VStr "job-1"); ("patient_id", VStr "42")]
       = Ok item ->
       dict_get "patient_id" item = Some w ->
       exists s, w = VDict [("S", VStr s)].
Proof.
  assert (H : prepare_records sample_float_str sample_repr_container sample_records
              = Ok [ [("summarize_job_name", VStr "job-1"); ("patient_id", VStr "42")];
                     [("summarize_job_name", VStr "job-2")];
                     [("summarize_job_name", VStr "job-3"); ("score", VFloat 3.5)] ])
    by reflexivity.
  split; [exact H|].
  exact (proj2 (proj2 (prepared_records_keys sample_float_str sample_repr_container
                         sample_records _ _ H (or_introl eq_refl)))).
Defined.

Lemma prepare_records_idempotent_sample :
  prepare_records sample_float_str sample_repr_container sample_records
  = Ok [ [("summarize_job_name", VStr "job-1"); ("patient_id", VStr "42")];
         [("summarize_job_name", VStr "job-2")];
         [("summarize_job_name", VStr "job-3"); ("score", VFloat 3.5)] ]
  /\ prepare_records sample_float_str sample_repr_container
       [ [("summarize_job_name", VStr "job-1"); ("patient_id", VStr "42")];
         [("summarize_job_name", VStr "job-2")];
         [("summarize_job_name", VStr "job-3"); ("score", VFloat 3.5)] ]
     = Ok [ [("summarize_job_name", VStr "job-1"); ("patient_id", VStr "42")];
            [("summarize_job_name", VStr "job-2")];
            [("summarize_job_name", VStr "job-3"); ("score", VFloat 3.5)] ].
Proof.
  assert (H : prepare_records sample_float_str sample_repr_container sample_records
              = Ok [ [("summarize_job_name", VStr "job-1"); ("patient_id", VStr "42")];
                     [("summarize_job_name", VStr "job-2")];
                     [("summarize_job_name", VStr "job-3"); ("score", VFloat 3.5)] ])
    by reflexivity.
  split; [exact H|].
  exact (prepare_records_idempotent sample_float_str sample_repr_container
           sample_records _ H).
Defined.

Lemma import_writes_iff_valid_sample :
  list_comp (normalize_item sample_float_of_str)
    [VDict [("patient_id", VStr "p1")]; VDict [("note", VDict [("S", VStr "x")])]]
  = Ok [ [("patient_id", VStr "p1")]; [("note", VStr "x")] ]
  /\ calls_of
       (snd (main_import sample_float_str sample_float_of_str sample_repr_container
               unit accepting_backend "notes"
               [VDict [("patient_id", VStr "p1")];
                VDict [("note", VDict [("S", VStr "x")])]] tt))
     = [].
Proof.
  assert (H : list_comp (normalize_item sample_float_of_str)
                [VDict [("patient_id", VStr "p1")];
                 VDict [("note", VDict [("S", VStr "x")])]]
              = Ok [ [("patient_id", VStr "p1")]; [("note", VStr "x")] ])
    by reflexivity.
  split; [exact H|].
  apply (proj2 (proj1 (import_writes_iff_valid sample_float_str sample_float_of_str
                         sample_repr_container unit accepting_backend "notes"
                         _ _ tt H))).
  left. repeat constructor.
Defined.

(** ** The setup and the script *)

Lemma sample_tables_persist :
  tables_persist (list string) sample_describe_table sample_create_table
    sample_wait_table_exists.
Proof.
  split.
  - intros name s. unfold sample_describe_table.
    destruct (existsb (String.eqb name) s) eqn:E; cbn [fst snd]; [|discriminate].
    intros _. rewrite E. reflexivity.
  - intros name s _ _. unfold sample_describe_table. cbn.
    rewrite String.eqb_refl. reflexivity.
Qed.

Lemma sample_clients_raise_exceptions :
  clients_raise_exceptions (list string) sample_create_clients
    sample_get_caller_identity sample_describe_table sample_create_table
    sample_wait_table_exists sample_load_json.
Proof.
  repeat split.
  - intros region_name s n. discriminate.
  - intros s n. discriminate.
  - intros name s n. unfold sample_describe_table.
    destruct (existsb (String.eqb name) s); discriminate.
  - intros spec s n. discriminate.
  - intros name s n. discriminate.
  - intros path s n. unfold sample_load_json.
    destruct (String.eqb path "notes.json"); discriminate.
Qed.

Lemma sample_parse_help_exits : parser_exits (list string) sample_parse_help.
Proof. intros s n [= <-]. left. reflexivity. Qed.

Lemma ensure_table_idempotent_sample :
  tables_persist (list string) sample_describe_table sample_create_table
    sample_wait_table_exists
  /\ ensure_table (list string) sample_describe_table sample_create_table
       sample_wait_table_exists "notes" []
     = (Done tt, ["notes"],
        [ DescribeTable "notes";
          Effect (Print "[INFO] Creating DynamoDB table: notes");
          CreateTable (table_schema "notes");
          WaitTableExists "notes";
          Effect (Print "[INFO] Table created and active.") ])
  /\ ensure_table (list string) sample_describe_table sample_create_table
       sample_wait_table_exists "notes" ["notes"]
     = (Done tt, ["notes"],
        [ DescribeTable "notes";
          Effect (Print "[INFO] DynamoDB table exists: notes") ]).
Proof.
  split; [exact sample_tables_persist|].
  split; [reflexivity|].
  exact (ensure_table_idempotent (list string) sample_describe_table
           sample_create_table sample_wait_table_exists "notes" []
           sample_tables_persist eq_refl).
Defined.

Lemma dry_run_only_sets_up_sample :
  sample_parse_dry_run [] = (Done sample_dry_run_args, [])
  /\ dry_run sample_dry_run_args = true
  /\ Forall setup_step
       (snd (script sample_float_str sample_float_of_str sample_repr_container
               (list string) sample_batch_write_item sample_parse_dry_run
               sample_create_clients sample_get_caller_identity
               sample_describe_table sample_create_table sample_wait_table_exists
               sample_load_json sample_exception_text []))
  /\ In (CreateTable (table_schema "notes"))
       (snd (script sample_float_str sample_float_of_str sample_repr_container
               (list string) sample_batch_write_item sample_parse_dry_run
               sample_create_clients sample_get_caller_identity
               sample_describe_table sample_create_table sample_wait_table_exists
               sample_load_json sample_exception_text [])).
Proof.
  assert (H0 : sample_parse_dry_run [] = (Done sample_dry_run_args, []))
    by reflexivity.
  assert (H : dry_run sample_dry_run_args = true) by reflexivity.
  split; [exact H0|]. split; [exact H|].
  destruct (dry_run_only_sets_up sample_float_str sample_float_of_str
              sample_repr_container (list string) sample_batch_write_item
              sample_parse_dry_run sample_create_clients
              sample_get_caller_identity sample_describe_table sample_create_table
              sample_wait_table_exists sample_load_json sample_exception_text
              [] sample_dry_run_args [] H0 H) as [F C].
  split; [exact F|].
  apply (C [] _ [] (table_schema "notes") eq_refl eq_refl).
  right. right. left. reflexivity.
Defined.

Lemma writes_only_after_setup_sample :
  writes_of
    (snd (script sample_float_str sample_float_of_str sample_repr_container
            (list string) sample_batch_write_item sample_parse_args
            sample_create_clients sample_get_caller_identity
            sample_describe_table sample_create_table sample_wait_table_exists
            sample_load_json sample_exception_text []))
  <> []
  /\ exists path l s4 records prepared,
       import_file sample_args = Some path
       /\ sample_load_json path ["notes"] = (Done (VList l), s4)
       /\ list_comp (normalize_item sample_float_of_str) l = Ok records
       /\ prepare_records sample_float_str sample_repr_container records
          = Ok prepared
       /\ Exists (fun r => dict_has "summarize_job_name" r = true) records.
Proof.
  assert (H : writes_of
                (snd (script sample_float_str sample_float_of_str
                        sample_repr_container (list string) sample_batch_write_item
                        sample_parse_args sample_create_clients
                        sample_get_caller_identity sample_describe_table
                        sample_create_table sample_wait_table_exists
                        sample_load_json sample_exception_text []))
              <> []).
  { vm_compute. discriminate. }
  split; [exact H|].
  destruct (writes_only_after_setup sample_float_str sample_float_of_str
              sample_repr_container (list string) sample_batch_write_item
              sample_parse_args sample_create_clients
              sample_get_caller_identity sample_describe_table sample_create_table
              sample_wait_table_exists sample_load_json sample_exception_text
              [] H)
    as (args & s0 & s1 & path & ident & s2 & l & s4 & records & prepared
        & Ha & _ & Hp & _ & Hc & Hi & _ & Hl & Hn & Hr & Hk).
  injection Ha as <- <-. injection Hc as <-. injection Hi as <- <-.
  exists path, l, s4, records, prepared.
  repeat split; assumption.
Defined.

Lemma exit_status_sample :
  clients_raise_exceptions (list string) sample_create_clients
    sample_get_caller_identity sample_describe_table sample_create_table
    sample_wait_table_exists sample_load_json
  /\ parser_exits (list string) sample_parse_help
  /\ fst (sample_parse_help []) = Failed (SystemExit 0)
  /\ fst (fst (script sample_float_str sample_float_of_str sample_repr_container
                 (list string) sample_batch_write_item sample_parse_help
                 sample_create_clients sample_get_caller_identity
                 sample_describe_table sample_create_table sample_wait_table_exists
                 sample_load_json sample_exception_text []))
     = 0.
Proof.
  split; [exact sample_clients_raise_exceptions|].
  split; [exact sample_parse_help_exits|].
  assert (E : fst (sample_parse_help []) = Failed (SystemExit 0)) by reflexivity.
  split; [exact E|].
  exact (proj2 (proj1 (proj2 (exit_status sample_float_str sample_float_of_str
                                sample_repr_container (list string)
                                sample_batch_write_item sample_parse_help
                                sample_create_clients sample_get_caller_identity
                                sample_describe_table sample_create_table
                                sample_wait_table_exists sample_load_json
                                sample_exception_text []
                                sample_clients_raise_exceptions
                                sample_parse_help_exits)))
           (or_intror E)).
Defined.

(** The three command lines, run: an import creates the table, reads the
    file and writes one batch; a dry run stops after the table; [--help]
    ends the process with status 0 before anything else happens. *)
Example script_runs :
  let run parse :=
    script sample_float_str sample_float_of_str sample_repr_container
      (list string) sample_batch_write_item parse sample_create_clients
      sample_get_caller_identity sample_describe_table sample_create_table
      sample_wait_table_exists sample_load_json sample_exception_text [] in
  fst (fst (run sample_parse_args)) = 0
  /\ List.length (writes_of (snd (run sample_parse_args))) = 1%nat
  /\ fst (fst (run sample_parse_dry_run)) = 0
  /\ writes_of (snd (run sample_parse_dry_run)) = []
  /\ run sample_parse_help = (0, [], [ParseArgs]).
Proof. vm_compute. repeat split. Qed.
